(** * BCUDP capture analysis scripts: a shallow embedding and its properties

    The development follows the Python sources under [pcap/]:
    [compare_pcaps.py] (block-structured captures, binary decoding),
    [analyze_json.py] and [compare_stream_flow.py] (JSON exports with
    hex-string payloads) and [analyze_pcap.py] (legacy captures).

    Python values are modelled as follows: [bytes] is a list of [Byte.byte],
    [int] is [Z], [str] is [string], [float] is a primitive binary64 float,
    [None]-or-value is [option], and a call that may raise is a computation
    in the monad [M], which also keeps the list of buffer positions that the
    computation asked for. *)

From Stdlib Require Import ZArith List Bool Lia.
From Stdlib.Strings Require Import String Ascii Byte.
From Stdlib Require Import Permutation Sorted.
From Stdlib Require Import DecimalString.
From Stdlib Require Import PrimFloat.
Import ListNotations.

Open Scope Z_scope.

(* ================================================================== *)
(** ** Python primitives                                               *)
(* ================================================================== *)

Module Py.

(** Exceptions raised by the primitives that the scripts use. *)
Inductive exn : Type :=
| StructError   (* struct.error: buffer of the wrong size *)
| ValueError    (* bytes.fromhex on a malformed string *)
| IndexError.   (* subscript out of range *)

Inductive result (A : Type) : Type :=
| Ret (a : A)
| Raise (e : exn).
Arguments Ret {A} a.
Arguments Raise {A} e.

(** A request [data[lo:hi]] (or [data[lo]], with [hi = lo + 1]) made on a
    buffer. *)
Record span : Type := Span { lo : Z; hi : Z }.

(** Computations: a result or an exception, with the requests made so far. *)
Definition M (A : Type) : Type := (result A * list span)%type.

Definition ret {A} (a : A) : M A := (Ret a, []).
Definition raise {A} (e : exn) : M A := (Raise e, []).
Definition bind {A B} (m : M A) (f : A -> M B) : M B :=
  match m with
  | (Ret a, l) => let (r, l') := f a in (r, l ++ l')
  | (Raise e, l) => (Raise e, l)
  end.

(** [try: m except: h] with a handler that cannot itself raise. *)
Definition try_except {A} (m : M A) (h : A) : M A :=
  match m with
  | (Ret a, l) => (Ret a, l)
  | (Raise _, l) => (Ret h, l)
  end.

Definition value {A} (m : M A) : result A := fst m.
Definition reads {A} (m : M A) : list span := snd m.

Definition bytes : Type := list byte.

Definition len {A} (l : list A) : Z := Z.of_nat (List.length l).

Definition byte_val (b : byte) : Z := Z.of_N (Byte.to_N b).

(** Python's clamping of a slice bound against a sequence of length [n]. *)
Definition clamp (n i : Z) : Z :=
  if i <? 0 then Z.max 0 (i + n) else Z.min i n.

(** [data[a:b]] as a value: never raises, bounds are clamped. *)
Definition slice_of {A} (data : list A) (a b : Z) : list A :=
  let a' := clamp (len data) a in
  let b' := clamp (len data) b in
  firstn (Z.to_nat (b' - a')) (skipn (Z.to_nat a') data).

(** [data[a:b]] on a buffer, the request being recorded. *)
Definition slice (data : bytes) (a b : Z) : M bytes :=
  (Ret (slice_of data a b), [Span a b]).

(** [data[i]] for [0 <= i]: raises IndexError past the end. *)
Definition index (data : bytes) (i : Z) : M Z :=
  match nth_error data (Z.to_nat i) with
  | Some b => (Ret (byte_val b), [Span i (i + 1)])
  | None => (Raise IndexError, [Span i (i + 1)])
  end.

(** Unsigned value of a byte string, least significant byte first. *)
Fixpoint uint_le (bs : bytes) : Z :=
  match bs with
  | [] => 0
  | b :: t => byte_val b + 256 * uint_le t
  end.

(** Unsigned value of a byte string, most significant byte first. *)
Definition uint_be (bs : bytes) : Z :=
  fold_left (fun acc b => acc * 256 + byte_val b) bs 0.

(** Two's complement reading of an [n]-byte unsigned value. *)
Definition to_signed (n : nat) (v : Z) : Z :=
  if v <? 2 ^ (8 * Z.of_nat n - 1) then v else v - 2 ^ (8 * Z.of_nat n).

(** [int.from_bytes(bs, 'little')] and [int.from_bytes(bs, 'little',
    signed=True)]: any length is accepted. *)
Definition int_from_bytes_little (bs : bytes) : Z := uint_le bs.
Definition int_from_bytes_little_signed (bs : bytes) : Z :=
  match bs with
  | [] => 0
  | _ => to_signed (List.length bs) (uint_le bs)
  end.

(** [struct.unpack(fmt, bs)[0]] for the one-field formats that occur; the
    buffer must have exactly the size of the format. *)
Definition unpack (size : nat) (decode : bytes -> Z) (bs : bytes) : M Z :=
  if Nat.eqb (List.length bs) size then ret (decode bs) else raise StructError.

Definition unpack_lt_I : bytes -> M Z := unpack 4 uint_le.          (* '<I' *)
Definition unpack_lt_i : bytes -> M Z :=                            (* '<i' *)
  unpack 4 (fun bs => to_signed 4 (uint_le bs)).
Definition unpack_gt_I : bytes -> M Z := unpack 4 uint_be.          (* '>I' *)
Definition unpack_gt_H : bytes -> M Z := unpack 2 uint_be.          (* '>H' *)

(** *** Strings *)

(** [s.replace(c, '')] for a one-character [c]. *)
Fixpoint remove_char (c : ascii) (s : string) : string :=
  match s with
  | EmptyString => EmptyString
  | String d t =>
      if Ascii.eqb d c then remove_char c t else String d (remove_char c t)
  end.

(** [needle in s]. *)
Fixpoint contains (needle s : string) : bool :=
  String.prefix needle s ||
  match s with
  | EmptyString => false
  | String _ t => contains needle t
  end.

(** [str(n)] for an integer. *)
Definition str (n : Z) : string := NilZero.string_of_int (Z.to_int n).

(** [sep.join(parts)]. *)
Definition join (sep : string) (parts : list string) : string :=
  String.concat sep parts.

(** [s[:n]] for a string and [0 <= n]. *)
Definition str_prefix (n : nat) (s : string) : string := String.substring 0 n s.

Definition nibble_char (n : N) : ascii :=
  match n with
  | 0 => "0" | 1 => "1" | 2 => "2" | 3 => "3" | 4 => "4" | 5 => "5"
  | 6 => "6" | 7 => "7" | 8 => "8" | 9 => "9" | 10 => "a" | 11 => "b"
  | 12 => "c" | 13 => "d" | 14 => "e" | _ => "f"
  end%N%char.

(** [bs.hex()]: two lower-case digits per byte. *)
Fixpoint hex (bs : bytes) : string :=
  match bs with
  | [] => EmptyString
  | b :: t =>
      String (nibble_char (N.div (Byte.to_N b) 16))
        (String (nibble_char (N.modulo (Byte.to_N b) 16)) (hex t))
  end.

(** Value of a hexadecimal digit, either case. *)
Definition hex_digit (c : ascii) : option N :=
  let n := N_of_ascii c in
  if (48 <=? n)%N && (n <=? 57)%N then Some (n - 48)%N
  else if (97 <=? n)%N && (n <=? 102)%N then Some (n - 87)%N
  else if (65 <=? n)%N && (n <=? 70)%N then Some (n - 55)%N
  else None.

(** ASCII whitespace as [bytes.fromhex] understands it: space, and the
    control characters tab, newline, vertical tab, form feed, return. *)
Definition is_space (c : ascii) : bool :=
  let n := N_of_ascii c in
  (n =? 32)%N || ((9 <=? n)%N && (n <=? 13)%N).

Definition byte_of_nibbles (h l : N) : byte :=
  match Byte.of_N (16 * h + l)%N with
  | Some b => b
  | None => x00
  end.

(** [bytes.fromhex(s)]: two hexadecimal digits per byte, whitespace being
    skipped between bytes (not inside one); anything else is a ValueError. *)
Fixpoint fromhex_result (s : string) : result bytes :=
  match s with
  | EmptyString => Ret []
  | String c t =>
      if is_space c then fromhex_result t
      else
        match hex_digit c, t with
        | Some h, String d t' =>
            match hex_digit d with
            | Some l =>
                match fromhex_result t' with
                | Ret bs => Ret (byte_of_nibbles h l :: bs)
                | Raise e => Raise e
                end
            | None => Raise ValueError
            end
        | _, _ => Raise ValueError
        end
  end.

Definition fromhex (s : string) : M bytes := (fromhex_result s, []).

(** *** Floats *)

(** An [int] used where a float is expected; exact below [2^53]. *)
Fixpoint float_of_pos (p : positive) : float :=
  match p with
  | xH => 1
  | xO q => 2 * float_of_pos q
  | xI q => 2 * float_of_pos q + 1
  end%float.

Definition float_of_int (n : Z) : float :=
  match n with
  | Z0 => 0
  | Zpos p => float_of_pos p
  | Zneg p => - float_of_pos p
  end%float.

(** *** More of [struct] and [bytes] *)

(** [struct.unpack('<HH', bs)], ['<II'] and ['<IIII']. *)
Definition unpack_lt_HH (bs : bytes) : M (Z * Z) :=
  if Nat.eqb (List.length bs) 4 then
    ret (uint_le (firstn 2 bs), uint_le (skipn 2 bs))
  else raise StructError.

Definition unpack_lt_II (bs : bytes) : M (Z * Z) :=
  if Nat.eqb (List.length bs) 8 then
    ret (uint_le (firstn 4 bs), uint_le (skipn 4 bs))
  else raise StructError.

Definition unpack_lt_IIII (bs : bytes) : M (Z * Z * Z * Z) :=
  if Nat.eqb (List.length bs) 16 then
    ret (uint_le (firstn 4 bs), uint_le (firstn 4 (skipn 4 bs)),
         uint_le (firstn 4 (skipn 8 bs)), uint_le (skipn 12 bs))
  else raise StructError.

(** [a == b] on byte strings. *)
Fixpoint bytes_eqb (a b : bytes) : bool :=
  match a, b with
  | [], [] => true
  | x :: a', y :: b' => Byte.eqb x y && bytes_eqb a' b'
  | _, _ => false
  end.

(** [data[a:]]. *)
Definition slice_from (data : bytes) (a : Z) : M bytes :=
  slice data a (len data).

(** *** [sorted] on integers *)

Fixpoint insert_sorted (x : Z) (l : list Z) : list Z :=
  match l with
  | [] => [x]
  | y :: t => if x <=? y then x :: l else y :: insert_sorted x t
  end.

(** [sorted(l)]: the ascending rearrangement of [l]. *)
Fixpoint sorted (l : list Z) : list Z :=
  match l with
  | [] => []
  | x :: t => insert_sorted x (sorted t)
  end.

(** *** Files and standard output *)

(** A binary file open for reading, with what has been printed so far:
    [pending] holds the bytes after the current position. *)
Record fstate : Type := FState { pending : bytes; stdout : list string }.

(** Computations that read from the file and print. *)
Definition F (A : Type) : Type := fstate -> result A * fstate.

Definition fret {A} (a : A) : F A := fun st => (Ret a, st).
Definition fbind {A B} (m : F A) (f : A -> F B) : F B :=
  fun st =>
    match m st with
    | (Ret a, st') => f a st'
    | (Raise e, st') => (Raise e, st')
    end.

(** A computation on values used inside a file computation. *)
Definition lift {A} (m : M A) : F A := fun st => (value m, st).

(** [f.read(n)] for [0 <= n]: up to [n] bytes, fewer at end of file. *)
Definition fread (n : Z) : F bytes :=
  fun st =>
    (Ret (firstn (Z.to_nat n) (pending st)),
     FState (skipn (Z.to_nat n) (pending st)) (stdout st)).

(** [print(s)]. *)
Definition print (s : string) : F unit :=
  fun st => (Ret tt, FState (pending st) (stdout st ++ [s])).

End Py.

Import Py.

Declare Scope py_scope.
Delimit Scope py_scope with py.
Notation "x <- m ;; k" := (bind m (fun x => k))
  (at level 61, m at next level, right associativity) : py_scope.
Notation "x <~ m ;; k" := (fbind m (fun x => k))
  (at level 61, m at next level, right associativity) : py_scope.
Open Scope py_scope.

(* ================================================================== *)
(** ** compare_pcaps.py                                                *)
(* ================================================================== *)

Module compare_pcaps.

Definition BCUDP_MAGIC_DISCOVERY : Z := 0x3acf872a.
Definition BCUDP_MAGIC_DATA : Z := 0x10cf872a.
Definition BCUDP_MAGIC_ACK : Z := 0x20cf872a.

(** The dictionaries returned by [parse_bcudp_packet], one constructor per
    value of the ['type'] key.  The ['magic'] entry is kept as the integer
    that [hex] renders. *)
Inductive bcudp : Type :=
| Discovery (magic : Z) (payload : bytes)
| Data (magic : Z) (connection_id packet_id payload_len : Z) (payload : bytes)
| Ack (magic : Z) (connection_id group_id packet_id : Z) (payload : bytes).

Definition parse_bcudp_packet (udp_payload : bytes) : M (option bcudp) :=
  if len udp_payload <? 4 then ret None else
  m <- slice udp_payload 0 4 ;;
  magic <- unpack_lt_I m ;;
  if magic =? BCUDP_MAGIC_DISCOVERY then
    ret (Some (Discovery magic udp_payload))
  else if magic =? BCUDP_MAGIC_DATA then
    if len udp_payload <? 20 then ret None else
    c <- slice udp_payload 4 8 ;;
    connection_id <- unpack_lt_i c ;;
    p <- slice udp_payload 12 16 ;;
    packet_id <- unpack_lt_I p ;;
    l <- slice udp_payload 16 20 ;;
    payload_len <- unpack_lt_I l ;;
    ret (Some (Data magic connection_id packet_id payload_len udp_payload))
  else if magic =? BCUDP_MAGIC_ACK then
    if len udp_payload <? 28 then ret None else
    c <- slice udp_payload 4 8 ;;
    connection_id <- unpack_lt_i c ;;
    g <- slice udp_payload 12 16 ;;
    group_id <- unpack_lt_I g ;;
    p <- slice udp_payload 16 20 ;;
    packet_id <- unpack_lt_I p ;;
    ret (Some (Ack magic connection_id group_id packet_id udp_payload))
  else ret None.

(** [read_pcapng_block(f)]: [None] at end of file or on a short block. *)
Definition read_pcapng_block : F (option (Z * bytes)) :=
  block_type_data <~ fread 4 ;;
  if len block_type_data <? 4 then fret None else
  block_type <~ lift (unpack_lt_I block_type_data) ;;
  block_length_data <~ fread 4 ;;
  if len block_length_data <? 4 then fret None else
  block_length <~ lift (unpack_lt_I block_length_data) ;;
  if block_length <? 12 then fret None else
  block_body <~ fread (block_length - 8) ;;
  if len block_body <? block_length - 8 then fret None else
  trailing_length_data <~ fread 4 ;;
  if len trailing_length_data <? 4 then fret None else
  trailing_length <~ lift (unpack_lt_I trailing_length_data) ;;
  _ <~ (if negb (trailing_length =? block_length) then
          print ("Warning: block length mismatch: " ++ str block_length
                 ++ " != " ++ str trailing_length)%string
        else fret tt) ;;
  fret (Some (block_type, block_body)).

Record epb : Type := Epb {
  interface_id : Z;
  timestamp : Z;
  packet_data : bytes
}.

Definition parse_enhanced_packet_block (block_body : bytes) : M (option epb) :=
  if len block_body <? 16 then ret None else
  b0 <- slice block_body 0 4 ;;
  interface_id <- unpack_lt_I b0 ;;
  b1 <- slice block_body 4 8 ;;
  timestamp_high <- unpack_lt_I b1 ;;
  b2 <- slice block_body 8 12 ;;
  timestamp_low <- unpack_lt_I b2 ;;
  b3 <- slice block_body 12 16 ;;
  captured_len <- unpack_lt_I b3 ;;
  packet_data <- slice block_body 16 (16 + captured_len) ;;
  ret (Some (Epb interface_id
               (Z.lor (Z.shiftl timestamp_high 32) timestamp_low)
               packet_data)).

Record udp_packet : Type := UdpPacket {
  src_ip : string;
  dst_ip : string;
  src_port : Z;
  dst_port : Z;
  payload : bytes
}.

Definition extract_udp_packet (packet_data : bytes) : M (option udp_packet) :=
  if len packet_data <? 42 then ret None else
  v <- index packet_data 14 ;;
  if negb (v =? 0x45) then ret None else
  ip_header <- slice packet_data 14 34 ;;
  s <- slice ip_header 12 16 ;;
  let src_ip := join "."%string (map (fun b => str (byte_val b)) s) in
  d <- slice ip_header 16 20 ;;
  let dst_ip := join "."%string (map (fun b => str (byte_val b)) d) in
  protocol <- index ip_header 9 ;;
  if negb (protocol =? 17) then ret None else
  udp_header <- slice packet_data 34 42 ;;
  h0 <- slice udp_header 0 2 ;;
  src_port <- unpack_gt_H h0 ;;
  h1 <- slice udp_header 2 4 ;;
  dst_port <- unpack_gt_H h1 ;;
  h2 <- slice udp_header 4 6 ;;
  udp_length <- unpack_gt_H h2 ;;
  udp_payload <- slice packet_data 42 (42 + udp_length - 8) ;;
  ret (Some (UdpPacket src_ip dst_ip src_port dst_port udp_payload)).

(** The entries appended to [packets] by [analyze_pcapng]. *)
Record packet : Type := Packet {
  num : Z;
  pkt_timestamp : Z;
  pkt_src_ip : string;
  pkt_dst_ip : string;
  pkt_src_port : Z;
  pkt_dst_port : Z;
  pkt_bcudp : bcudp;
  raw_payload : string
}.

(** What one block contributes: the packet to append, if any. *)
Definition block_packet (packet_num : Z) (block_type : Z) (block_body : bytes)
  : M (option packet) :=
  if block_type =? 6 then
    e <- parse_enhanced_packet_block block_body ;;
    match e with
    | None => ret None
    | Some epb =>
        u <- extract_udp_packet (packet_data epb) ;;
        match u with
        | None => ret None
        | Some udp_pkt =>
            b <- parse_bcudp_packet (payload udp_pkt) ;;
            match b with
            | None => ret None
            | Some bcudp_pkt =>
                ret (Some (Packet packet_num (timestamp epb)
                             (src_ip udp_pkt) (dst_ip udp_pkt)
                             (src_port udp_pkt) (dst_port udp_pkt)
                             bcudp_pkt
                             (str_prefix 100 (hex (payload udp_pkt)))))
            end
        end
    end
  else ret None.

(** The [while True] loop of [analyze_pcapng]; every iteration that does not
    leave the loop consumes at least sixteen bytes of the file, and [fuel]
    bounds the number of iterations.  [None] stands for fuel exhausted. *)
Fixpoint read_blocks (fuel : nat) (packets : list packet) (packet_num : Z)
  : F (option (list packet)) :=
  match fuel with
  | O => fret None
  | S fuel' =>
      block <~ read_pcapng_block ;;
      match block with
      | None => fret (Some packets)
      | Some (block_type, block_body) =>
          p <~ lift (block_packet packet_num block_type block_body) ;;
          match p with
          | Some pkt => read_blocks fuel' (packets ++ [pkt]) (packet_num + 1)
          | None => read_blocks fuel' packets packet_num
          end
      end
  end.

(** The loop run on the rest of the file: the number of bytes left bounds
    the number of iterations. *)
Definition read_remaining (packets : list packet) (packet_num : Z)
  : F (option (list packet)) :=
  fun st => read_blocks (S (List.length (pending st))) packets packet_num st.

(** [analyze_pcapng], on the opened file; [None] stands for fuel
    exhausted. *)
Definition analyze_pcapng (filename : string) : F (option (list packet)) :=
  fun st =>
    let not_pcapng : F (option (list packet)) :=
      _ <~ print ("Error: " ++ filename
                  ++ " is not a valid pcapng file")%string ;;
      fret (Some []) in
    (first_block <~ read_pcapng_block ;;
     match first_block with
     | None => not_pcapng
     | Some (block_type, _) =>
         if negb (block_type =? 0x0A0D0D0A) then not_pcapng
         else read_blocks (S (List.length (pending st))) [] 0
     end) st.

(** [p['bcudp']['type'] == 'data'] and [== 'ack']. *)
Definition is_data (p : packet) : bool :=
  match pkt_bcudp p with Data _ _ _ _ _ => true | _ => false end.
Definition is_ack (p : packet) : bool :=
  match pkt_bcudp p with Ack _ _ _ _ _ => true | _ => false end.

(** The ['payload'] entry of a decoded dictionary. *)
Definition bcudp_payload (b : bcudp) : bytes :=
  match b with
  | Discovery _ payload => payload
  | Data _ _ _ _ payload => payload
  | Ack _ _ _ _ payload => payload
  end.

(** What [compare_flows] prints about the first DATA packets: the two
    packets and whether it says "DIFFERENT HEX". *)
Record first_data_comparison : Type := FirstData {
  neolink_first_data : packet;
  scrypted_first_data : packet;
  different_hex : bool
}.

Record flow_comparison : Type := FlowComparison {
  totals : Z * Z;
  first_data : option first_data_comparison;
  neolink_counts : Z * Z;      (* DATA, ACK *)
  scrypted_counts : Z * Z      (* DATA, ACK *)
}.

(** What [compare_flows] prints, as a record. *)
Definition compare_flows (neolink_packets scrypted_packets : list packet)
  : flow_comparison :=
  FlowComparison
    (len neolink_packets, len scrypted_packets)
    match find is_data neolink_packets, find is_data scrypted_packets with
    | Some a, Some b =>
        Some (FirstData a b
                (negb (String.eqb (raw_payload a) (raw_payload b))))
    | _, _ => None
    end
    (len (filter is_data neolink_packets), len (filter is_ack neolink_packets))
    (len (filter is_data scrypted_packets),
     len (filter is_ack scrypted_packets)).

End compare_pcaps.

(* ================================================================== *)
(** ** Records of a JSON export                                        *)
(* ================================================================== *)

(** One element of the exported array, with the fields that the scripts
    look up already converted by [int] and [float]: [udp = None] stands for
    a missing or empty ['udp'] layer, and an absent ['udp.payload'],
    ['ip.src'] or ['ip.dst'] is the empty string, the default of [get]. *)
Module Json.

Record udp_layer : Type := UdpLayer {
  udp_srcport : Z;
  udp_dstport : Z;
  udp_payload : string
}.

Record entry : Type := Entry {
  frame_number : Z;
  frame_time_relative : float;
  udp : option udp_layer;
  ip_src : string;
  ip_dst : string
}.

End Json.

(* ================================================================== *)
(** ** analyze_json.py                                                 *)
(* ================================================================== *)

Module analyze_json.

Definition BCUDP_MAGIC_DISCOVERY : Z := 0x3acf872a.
Definition BCUDP_MAGIC_DATA : Z := 0x10cf872a.
Definition BCUDP_MAGIC_ACK : Z := 0x20cf872a.

Definition hex_to_bytes (hex_str : string) : M bytes :=
  try_except
    (fromhex (remove_char " " (remove_char ":" hex_str)))
    [].

(** The dictionaries returned by [parse_bcudp_packet]; the payload is kept
    as (a prefix of) the hex string. *)
Inductive bcudp : Type :=
| Discovery (magic : Z) (payload : string)
| Data (magic : Z) (connection_id packet_id payload_len : Z)
       (payload_hex : string)
| Ack (magic : Z) (connection_id group_id packet_id : Z)
      (payload_hex : string).

Definition parse_bcudp_packet (udp_data_hex : string) : M (option bcudp) :=
  try_except
    (data <- hex_to_bytes udp_data_hex ;;
     if len data <? 4 then ret None else
     m <- slice data 0 4 ;;
     magic <- unpack_gt_I m ;;
     if magic =? BCUDP_MAGIC_DISCOVERY then
       ret (Some (Discovery magic udp_data_hex))
     else if magic =? BCUDP_MAGIC_DATA then
       if len data <? 20 then ret None else
       c <- slice data 4 8 ;;
       let connection_id := int_from_bytes_little_signed c in
       p <- slice data 12 16 ;;
       let packet_id := int_from_bytes_little p in
       l <- slice data 16 20 ;;
       let payload_len := int_from_bytes_little l in
       ret (Some (Data magic connection_id packet_id payload_len
                    (str_prefix 80 udp_data_hex)))
     else if magic =? BCUDP_MAGIC_ACK then
       if len data <? 28 then ret None else
       c <- slice data 4 8 ;;
       let connection_id := int_from_bytes_little_signed c in
       g <- slice data 12 16 ;;
       let group_id := int_from_bytes_little g in
       p <- slice data 16 20 ;;
       let packet_id := int_from_bytes_little p in
       ret (Some (Ack magic connection_id group_id packet_id
                    (str_prefix 56 udp_data_hex)))
     else ret None)
    None.

Record packet : Type := Packet {
  frame_num : Z;
  time : float;
  src_ip : string;
  dst_ip : string;
  src_port : Z;
  dst_port : Z;
  pkt_bcudp : bcudp
}.

(** The body of the loop of [extract_packets]: the packet appended for one
    entry, if any. *)
Definition extract_entry (e : Json.entry) : M (option packet) :=
  match Json.udp e with
  | None => ret None
  | Some udp =>
      let udp_data_hex := Json.udp_payload udp in
      if String.eqb udp_data_hex "" then ret None else
      b <- parse_bcudp_packet udp_data_hex ;;
      match b with
      | Some bcudp =>
          ret (Some (Packet (Json.frame_number e) (Json.frame_time_relative e)
                       (Json.ip_src e) (Json.ip_dst e)
                       (Json.udp_srcport udp) (Json.udp_dstport udp) bcudp))
      | None => ret None
      end
  end.

Fixpoint extract_packets (entries : list Json.entry) : M (list packet) :=
  match entries with
  | [] => ret []
  | e :: rest =>
      p <- extract_entry e ;;
      ps <- extract_packets rest ;;
      ret (match p with Some pkt => pkt :: ps | None => ps end)
  end.

Definition is_discovery (p : packet) : bool :=
  match pkt_bcudp p with Discovery _ _ => true | _ => false end.

(** The loop of [compare_initial_sequence] that looks for the end of the
    discovery: the index of the first discovery packet whose source address
    contains ['192.168'], counted from [i]. *)
Fixpoint find_discovery_end (i : Z) (packets : list packet) : option Z :=
  match packets with
  | [] => None
  | pkt :: rest =>
      if is_discovery pkt then
        if contains "192.168" (src_ip pkt) then Some i
        else find_discovery_end (i + 1) rest
      else find_discovery_end (i + 1) rest
  end.

(** The truth value of a variable that holds [None] or an index. *)
Definition truthy (d : option Z) : bool :=
  match d with
  | Some i => negb (i =? 0)
  | None => false
  end.

(** What [compare_initial_sequence] prints for one of its two lists. *)
Record sequence_report : Type := SequenceReport {
  discovery_end : option Z;
  completed_at : option Z;         (* [None]: the line says "not found" *)
  next_packets : list packet;      (* the packets after the discovery *)
  sequence : list (float * packet) (* the lines, with the relative time *)
}.

Definition initial_sequence (packets : list packet) : sequence_report :=
  let d := find_discovery_end 0 packets in
  let next :=
    match d with
    | Some i => if truthy d then slice_of packets (i + 1) (i + 51) else []
    | None => []
    end in
  let base :=
    match d with
    | Some i =>
        if truthy d then
          match nth_error packets (Z.to_nat i) with
          | Some p => time p
          | None => 0%float
          end
        else 0%float
    | None => 0%float
    end in
  SequenceReport d (if truthy d then d else None) next
    (map (fun pkt => ((time pkt - base)%float, pkt)) (slice_of next 0 30)).

Definition compare_initial_sequence
    (neolink_packets scrypted_packets : list packet)
  : sequence_report * sequence_report :=
  (initial_sequence neolink_packets, initial_sequence scrypted_packets).

End analyze_json.

(* ================================================================== *)
(** ** compare_stream_flow.py                                          *)
(* ================================================================== *)

Module compare_stream_flow.

Definition BCUDP_MAGIC_DATA : Z := 0x10cf872a.
Definition BCUDP_MAGIC_ACK : Z := 0x20cf872a.

Definition hex_to_bytes (hex_str : string) : M bytes :=
  try_except
    (fromhex (remove_char " " (remove_char ":" hex_str)))
    [].

(** The dictionaries returned by [parse_bcudp_data] and [parse_bcudp_ack]. *)
Inductive bcudp : Type :=
| Data (connection_id packet_id payload_len : Z)
| Ack (connection_id group_id packet_id : Z).

Definition parse_bcudp_data (data : bytes) : M (option bcudp) :=
  if len data <? 20 then ret None else
  m <- slice data 0 4 ;;
  magic <- unpack_gt_I m ;;
  if negb (magic =? BCUDP_MAGIC_DATA) then ret None else
  c <- slice data 4 8 ;;
  let connection_id := int_from_bytes_little_signed c in
  p <- slice data 12 16 ;;
  let packet_id := int_from_bytes_little p in
  l <- slice data 16 20 ;;
  let payload_len := int_from_bytes_little l in
  ret (Some (Data connection_id packet_id payload_len)).

Definition parse_bcudp_ack (data : bytes) : M (option bcudp) :=
  if len data <? 28 then ret None else
  m <- slice data 0 4 ;;
  magic <- unpack_gt_I m ;;
  if negb (magic =? BCUDP_MAGIC_ACK) then ret None else
  c <- slice data 4 8 ;;
  let connection_id := int_from_bytes_little_signed c in
  g <- slice data 12 16 ;;
  let group_id := int_from_bytes_little g in
  p <- slice data 16 20 ;;
  let packet_id := int_from_bytes_little p in
  ret (Some (Ack connection_id group_id packet_id)).

(** The entries of [packets]: the frame fields, and the fields of the
    decoded dictionary merged in. *)
Record packet : Type := Packet {
  frame_num : Z;
  time : float;
  src_ip : string;
  src_port : Z;
  dst_port : Z;
  body : bcudp
}.

Definition is_data (p : packet) : bool :=
  match body p with Data _ _ _ => true | Ack _ _ _ => false end.
Definition is_ack (p : packet) : bool :=
  match body p with Data _ _ _ => false | Ack _ _ _ => true end.
Definition packet_id (p : packet) : Z :=
  match body p with Data _ pid _ => pid | Ack _ _ pid => pid end.

(** The body of the loop of [extract_stream_packets]. *)
Definition extract_entry (e : Json.entry) : M (option packet) :=
  match Json.udp e with
  | None => ret None
  | Some udp =>
      let payload_hex := Json.udp_payload udp in
      if String.eqb payload_hex "" then ret None else
      bytes_data <- hex_to_bytes payload_hex ;;
      if len bytes_data <? 4 then ret None else
      let mk := Packet (Json.frame_number e) (Json.frame_time_relative e)
                  (Json.ip_src e) (Json.udp_srcport udp)
                  (Json.udp_dstport udp) in
      pkt_data <- parse_bcudp_data bytes_data ;;
      match pkt_data with
      | Some d => ret (Some (mk d))
      | None =>
          pkt_ack <- parse_bcudp_ack bytes_data ;;
          match pkt_ack with
          | Some a => ret (Some (mk a))
          | None => ret None
          end
      end
  end.

Fixpoint extract_stream_packets (entries : list Json.entry)
  : M (list packet) :=
  match entries with
  | [] => ret []
  | e :: rest =>
      p <- extract_entry e ;;
      ps <- extract_stream_packets rest ;;
      ret (match p with Some pkt => pkt :: ps | None => ps end)
  end.

(** ['192.168' in p['src_ip']]. *)
Definition from_camera (p : packet) : bool := contains "192.168" (src_ip p).

(** The gap loop of [analyze_stream_flow], on the sorted ids:
    [(pids[i], pids[i+1], gap)] for every [i] in [range(len(pids) - 1)]
    with [gap > 1]. *)
Definition find_gaps (pids : list Z) : list (Z * Z * Z) :=
  flat_map
    (fun i =>
       let gap := nth (S i) pids 0 - nth i pids 0 in
       if gap >? 1 then [(nth i pids 0, nth (S i) pids 0, gap)] else [])
    (seq 0 (List.length pids - 1)).

(** The "Missing: a to b (gap=n)" lines: the first ten gaps only. *)
Definition missing_lines (gaps : list (Z * Z * Z)) : list (Z * Z * Z) :=
  map (fun '(start, end_, gap) => (start + 1, end_ - 1, gap - 1))
      (firstn 10 gaps).

(** [l[-1]['time'] - l[0]['time']] for a non-empty [l] whose first element
    is [first]. *)
Definition duration_of (first : packet) (l : list packet) : float :=
  (time (last l first) - time first)%float.

(** [len(l) / duration if duration > 0 else 0]; the integer 0 is rendered
    as the float 0. *)
Definition rate_of (l : list packet) (duration : float) : float :=
  if (0 <? duration)%float then (float_of_int (len l) / duration)%float
  else 0%float.

Record camera_report : Type := CameraReport {
  cam_first : packet;
  cam_last : packet;
  cam_duration : float;
  cam_gaps : list (Z * Z * Z);
  cam_missing : list (Z * Z * Z);
  cam_rate : option float       (* [None]: no rate line is printed *)
}.

Record ack_report : Type := AckReport {
  ack_total : Z;
  ack_rate : option float       (* [None]: no rate line is printed *)
}.

Record flow_report : Type := FlowReport {
  total : Z;
  n_data : Z;
  n_ack : Z;
  breakdown : option (Z * Z * Z * Z);   (* [None]: "No DATA packets found!" *)
  camera : option camera_report;
  client : option ack_report
}.

(** What [analyze_stream_flow] prints, as a record. *)
Definition analyze_stream_flow (packets : list packet) : flow_report :=
  let data_packets := filter is_data packets in
  let ack_packets := filter is_ack packets in
  match data_packets with
  | [] => FlowReport (len packets) (len data_packets) (len ack_packets)
            None None None
  | _ =>
      let camera_data := filter from_camera data_packets in
      let client_data := filter (fun p => negb (from_camera p)) data_packets in
      let camera_ack := filter from_camera ack_packets in
      let client_ack := filter (fun p => negb (from_camera p)) ack_packets in
      FlowReport (len packets) (len data_packets) (len ack_packets)
        (Some (len camera_data, len client_data,
               len camera_ack, len client_ack))
        match camera_data with
        | [] => None
        | first :: _ =>
            let pids := sorted (map packet_id camera_data) in
            let gaps := find_gaps pids in
            Some (CameraReport first (last camera_data first)
                    (duration_of first camera_data)
                    gaps (missing_lines gaps)
                    (if len camera_data >? 1 then
                       Some (rate_of camera_data
                               (duration_of first camera_data))
                     else None))
        end
        match client_ack with
        | [] => None
        | first :: _ =>
            Some (AckReport (len client_ack)
                    (if len client_ack >? 1 then
                       Some (rate_of client_ack (duration_of first client_ack))
                     else None))
        end
  end.

Record rate_comparison : Type := RateComparison {
  nl_duration : float;
  sc_duration : float;
  nl_rate : float;
  sc_rate : float;
  much_lower : bool     (* "Scrypted has much lower packet rate!" *)
}.

Record comparison : Type := Comparison {
  data_counts : Z * Z;
  data_ratio : float;
  ack_counts : Z * Z;
  ack_ratio : float;
  rates : option rate_comparison
}.

(** [len(b) / len(a) * 100 if a else 0]. *)
Definition ratio_percent (a b : list packet) : float :=
  match a with
  | [] => 0%float
  | _ => (float_of_int (len b) / float_of_int (len a) * 100)%float
  end.

(** What [compare_streams] prints, as a record. *)
Definition compare_streams (nl_packets sc_packets : list packet) : comparison :=
  let camera_data_of :=
    filter (fun p => is_data p && from_camera p) in
  let client_ack_of :=
    filter (fun p => is_ack p && negb (from_camera p)) in
  let nl_camera_data := camera_data_of nl_packets in
  let sc_camera_data := camera_data_of sc_packets in
  let nl_client_ack := client_ack_of nl_packets in
  let sc_client_ack := client_ack_of sc_packets in
  Comparison
    (len nl_camera_data, len sc_camera_data)
    (ratio_percent nl_camera_data sc_camera_data)
    (len nl_client_ack, len sc_client_ack)
    (ratio_percent nl_client_ack sc_client_ack)
    match nl_camera_data, sc_camera_data with
    | nl_first :: _, sc_first :: _ =>
        let nl_duration := duration_of nl_first nl_camera_data in
        let sc_duration := duration_of sc_first sc_camera_data in
        let nl_rate := rate_of nl_camera_data nl_duration in
        let sc_rate := rate_of sc_camera_data sc_duration in
        Some (RateComparison nl_duration sc_duration nl_rate sc_rate
                (sc_rate <? nl_rate * 0.5)%float)
    | _, _ => None
    end.

End compare_stream_flow.

(* ================================================================== *)
(** ** analyze_pcap.py                                                 *)
(* ================================================================== *)

Module analyze_pcap.

Record pcap_header : Type := PcapHeader {
  version_major : Z;
  version_minor : Z;
  snaplen : Z;
  network : Z
}.

Definition read_pcap_header : F (option pcap_header) :=
  magic <~ fread 4 ;;
  if negb (bytes_eqb magic [xd4; xc3; xb2; xa1]) then fret None else
  b0 <~ fread 4 ;;
  v <~ lift (unpack_lt_HH b0) ;;
  b1 <~ fread 8 ;;
  _ <~ lift (unpack_lt_II b1) ;;
  b2 <~ fread 8 ;;
  n <~ lift (unpack_lt_II b2) ;;
  fret (Some (PcapHeader (fst v) (snd v) (fst n) (snd n))).

Record packet_header : Type := PacketHeader {
  ts_sec : Z;
  ts_usec : Z;
  incl_len : Z;
  orig_len : Z
}.

Definition read_packet_header : F (option packet_header) :=
  data <~ fread 16 ;;
  if len data <? 16 then fret None else
  t <~ lift (unpack_lt_IIII data) ;;
  let '(ts_sec, ts_usec, incl_len, orig_len) := t in
  fret (Some (PacketHeader ts_sec ts_usec incl_len orig_len)).

(** The values of the ['type'] key. *)
Inductive kind : Type := discovery | ack | data.

Record packet : Type := Packet {
  num : Z;
  ts : float;
  src_port : Z;
  dst_port : Z;
  type : kind;
  pkt_data : bytes
}.

(** The part of the loop body of [analyze_pcap] that looks at one frame:
    the packet appended to [packets], if any. *)
Definition frame_packet (packet_num : Z) (pkt_header : packet_header)
    (packet_data : bytes) : M (option packet) :=
  if len packet_data >=? 42 then
    ip_header <- slice packet_data 14 34 ;;
    v <- index ip_header 0 ;;
    if v =? 0x45 then
      protocol <- index ip_header 9 ;;
      if protocol =? 17 then
        s <- slice ip_header 20 22 ;;
        src_port <- unpack_gt_H s ;;
        d <- slice ip_header 22 24 ;;
        dst_port <- unpack_gt_H d ;;
        udp_data <- slice_from packet_data 42 ;;
        if len udp_data >=? 4 then
          magic <- slice udp_data 0 4 ;;
          let ts := (float_of_int (ts_sec pkt_header)
                     + float_of_int (ts_usec pkt_header) / 1000000)%float in
          if bytes_eqb magic [x3a; xcf; x87; x2a] then
            first <- slice udp_data 0 100 ;;
            ret (Some (Packet packet_num ts src_port dst_port discovery first))
          else if bytes_eqb magic [x20; xcf; x87; x2a] then
            first <- slice udp_data 0 50 ;;
            ret (Some (Packet packet_num ts src_port dst_port ack first))
          else if bytes_eqb magic [x10; xcf; x87; x2a] then
            first <- slice udp_data 0 50 ;;
            ret (Some (Packet packet_num ts src_port dst_port data first))
          else ret None
        else ret None
      else ret None
    else ret None
  else ret None.

(** The [while True] loop of [analyze_pcap]; every iteration that does not
    leave the loop consumes sixteen bytes or more, and [fuel] bounds the
    number of iterations.  [None] stands for fuel exhausted. *)
Fixpoint read_packets (fuel : nat) (packets : list packet) (packet_num : Z)
  : F (option (list packet * Z)) :=
  match fuel with
  | O => fret None
  | S fuel' =>
      pkt_header <~ read_packet_header ;;
      match pkt_header with
      | None => fret (Some (packets, packet_num))
      | Some h =>
          packet_data <~ fread (incl_len h) ;;
          if len packet_data <? incl_len h then
            fret (Some (packets, packet_num))
          else
            p <~ lift (frame_packet packet_num h packet_data) ;;
            match p with
            | Some pkt =>
                read_packets fuel' (packets ++ [pkt]) (packet_num + 1)
            | None => read_packets fuel' packets (packet_num + 1)
            end
      end
  end.

(** [analyze_pcap], on the opened file, up to the end of the loop: the
    packets found and the number of frames seen, or the inner [None] after
    the message for a file that is not a capture.  The outer [None] stands
    for fuel exhausted. *)
Definition analyze_pcap (filename : string)
  : F (option (option (list packet * Z))) :=
  fun st =>
    (header <~ read_pcap_header ;;
     match header with
     | None =>
         _ <~ print ("Error: " ++ filename
                     ++ " is not a valid PCAP file")%string ;;
         fret (Some None)
     | Some _ =>
         r <~ read_packets (S (List.length (pending st))) [] 0 ;;
         fret (match r with Some x => Some (Some x) | None => None end)
     end) st.

End analyze_pcap.

(* ================================================================== *)
(** ** The wire layout                                                 *)
(* ================================================================== *)

(** The fields of a BCUDP header and of a UDP header as the layout table
    gives them: a byte offset into the buffer, a size and an encoding. *)
Module Wire.

Definition byte_at (p : bytes) (i : nat) : Z := byte_val (nth i p x00).

(** Unsigned little-endian 32-bit integer at byte offset [off]. *)
Definition u32_le_at (p : bytes) (off : nat) : Z :=
  byte_at p off + 2 ^ 8 * byte_at p (off + 1)
  + 2 ^ 16 * byte_at p (off + 2) + 2 ^ 24 * byte_at p (off + 3).

(** Signed little-endian 32-bit integer at byte offset [off]. *)
Definition s32_le_at (p : bytes) (off : nat) : Z :=
  let u := u32_le_at p off in
  if u <? 2 ^ 31 then u else u - 2 ^ 32.

(** Unsigned big-endian 32-bit integer at byte offset [off]. *)
Definition u32_be_at (p : bytes) (off : nat) : Z :=
  2 ^ 24 * byte_at p off + 2 ^ 16 * byte_at p (off + 1)
  + 2 ^ 8 * byte_at p (off + 2) + byte_at p (off + 3).

(** Unsigned big-endian 16-bit integer at byte offset [off]. *)
Definition u16_be_at (p : bytes) (off : nat) : Z :=
  2 ^ 8 * byte_at p off + byte_at p (off + 1).

(** The three variants and what the decoder asks of each. *)
Inductive variant : Type := VDiscovery | VData | VAck.

Definition magic_of (v : variant) : Z :=
  match v with
  | VDiscovery => 0x3acf872a
  | VData => 0x10cf872a
  | VAck => 0x20cf872a
  end.

Definition min_len (v : variant) : Z :=
  match v with
  | VDiscovery => 4
  | VData => 20
  | VAck => 28
  end.

(** A request that stays inside a buffer of [n] bytes. *)
Definition in_bounds (n : Z) (s : span) : Prop := 0 <= lo s /\ hi s <= n.

(** The line printed for a block whose trailing length [t] differs from its
    leading length [l]. *)
Definition block_length_warning (l t : Z) : string :=
  ("Warning: block length mismatch: " ++ str l ++ " != " ++ str t)%string.

(** The packets list and counter after a block that contributed [p]. *)
Definition appended {A} (packets : list A) (p : option A) : list A :=
  match p with Some x => packets ++ [x] | None => packets end.
Definition counted {A} (n : Z) (p : option A) : Z :=
  match p with Some _ => n + 1 | None => n end.

(** Dotted rendering of the four octets at [off]. *)
Definition dotted_at (f : bytes) (off : nat) : string :=
  join "."
    [str (byte_at f off); str (byte_at f (off + 1));
     str (byte_at f (off + 2)); str (byte_at f (off + 3))].

(** An Ethernet frame (14-byte link header) that carries an IPv4 header
    without options (first byte 0x45, protocol at offset 9 of the header)
    and a UDP header: source port, destination port, length. *)
Definition is_udp_frame (f : bytes) : Prop :=
  42 <= len f /\ byte_at f 14 = 0x45 /\ byte_at f 23 = 17.

Definition udp_length_of (f : bytes) : Z := u16_be_at f 38.






End Wire.

Import Wire.

(* ================================================================== *)
(** ** The decoder of the design                                       *)
(* ================================================================== *)

Module Design.

(** What a decoded packet says, whatever dictionary carries it: the variant
    and the header fields. *)
Inductive decoded : Type :=
| DDiscovery
| DData (connection_id packet_id payload_len : Z)
| DAck (connection_id group_id packet_id : Z).

(** The decoder as the design states it, for a payload [p] whose magic
    field has been read as the integer [magic]: the variant is the one
    whose constant [magic] equals, the payload must have the minimum length
    of the variant, and the fields are read at their offsets. *)
Definition decode (magic : Z) (p : bytes) : option decoded :=
  if len p <? min_len VDiscovery then None
  else if magic =? magic_of VDiscovery then Some DDiscovery
  else if magic =? magic_of VData then
    if len p <? min_len VData then None
    else Some (DData (s32_le_at p 4) (u32_le_at p 12) (u32_le_at p 16))
  else if magic =? magic_of VAck then
    if len p <? min_len VAck then None
    else Some (DAck (s32_le_at p 4) (u32_le_at p 12) (u32_le_at p 16))
  else None.

Definition view_binary (b : compare_pcaps.bcudp) : decoded :=
  match b with
  | compare_pcaps.Discovery _ _ => DDiscovery
  | compare_pcaps.Data _ c p l _ => DData c p l
  | compare_pcaps.Ack _ c g p _ => DAck c g p
  end.

Definition view_json (b : analyze_json.bcudp) : decoded :=
  match b with
  | analyze_json.Discovery _ _ => DDiscovery
  | analyze_json.Data _ c p l _ => DData c p l
  | analyze_json.Ack _ c g p _ => DAck c g p
  end.

(** The result of a call, seen through [f]. *)
Definition result_map {A B} (f : A -> B) (r : result A) : result B :=
  match r with
  | Ret a => Ret (f a)
  | Raise e => Raise e
  end.


(** The dictionary that [analyze_json.py] builds for the payload string
    [s] whose bytes are [d], and the one that [compare_stream_flow.py]
    builds for the same bytes, both in terms of [decode]. *)
Definition decode_json (s : string) (d : bytes) : option analyze_json.bcudp :=
  match decode (u32_be_at d 0) d with
  | Some DDiscovery => Some (analyze_json.Discovery (magic_of VDiscovery) s)
  | Some (DData c p l) =>
      Some (analyze_json.Data (magic_of VData) c p l (str_prefix 80 s))
  | Some (DAck c g p) =>
      Some (analyze_json.Ack (magic_of VAck) c g p (str_prefix 56 s))
  | None => None
  end.

Definition decode_stream (d : bytes) : option compare_stream_flow.bcudp :=
  match decode (u32_be_at d 0) d with
  | Some (DData c p l) => Some (compare_stream_flow.Data c p l)
  | Some (DAck c g p) => Some (compare_stream_flow.Ack c g p)
  | _ => None
  end.

(** A packet of [analyze_json.py] as [compare_stream_flow.py] would hold
    it: discovery packets have no counterpart, the destination address and
    the hex strings are not kept. *)
Definition stream_packet (p : analyze_json.packet)
  : option compare_stream_flow.packet :=
  let mk := compare_stream_flow.Packet
              (analyze_json.frame_num p) (analyze_json.time p)
              (analyze_json.src_ip p) (analyze_json.src_port p)
              (analyze_json.dst_port p) in
  match analyze_json.pkt_bcudp p with
  | analyze_json.Discovery _ _ => None
  | analyze_json.Data _ c pid l _ => Some (mk (compare_stream_flow.Data c pid l))
  | analyze_json.Ack _ c g pid _ => Some (mk (compare_stream_flow.Ack c g pid))
  end.

Definition stream_packets (ps : list analyze_json.packet)
  : list compare_stream_flow.packet :=
  flat_map (fun p => match stream_packet p with
                     | Some q => [q]
                     | None => []
                     end) ps.

(** Bytes as a Wireshark export prints them: two digits per byte, with
    [':'] between bytes. *)
Fixpoint colon_hex (bs : bytes) : string :=
  match bs with
  | [] => EmptyString
  | [b] => hex [b]
  | b :: t => (hex [b] ++ ":" ++ colon_hex t)%string
  end.


(** The test of the first loops of [compare_initial_sequence]: a discovery
    packet whose source address contains ['192.168']. *)
Definition ends_discovery (p : analyze_json.packet) : bool :=
  analyze_json.is_discovery p && contains "192.168" (analyze_json.src_ip p).

End Design.

Import Design.

(* ================================================================== *)
(** ** Sample inputs                                                   *)
(* ================================================================== *)

Module Samples.

(** A Data header: connection id [-2147483647], packet id 5, payload
    length 7, after the four magic bytes [10 cf 87 2a] in wire order. *)
Definition data_fields : bytes :=
  [x01; x00; x00; x80; x00; x00; x00; x00;
   x05; x00; x00; x00; x07; x00; x00; x00].

Definition data_wire : bytes := [x10; xcf; x87; x2a] ++ data_fields.

(** The same header with the magic bytes in the opposite order. *)
Definition data_reversed : bytes := [x2a; x87; xcf; x10] ++ data_fields.

(** [data_wire] as the export prints it. *)
Definition data_wire_hex : string :=
  "10:cf:87:2a:01:00:00:80:00:00:00:00:05:00:00:00:07:00:00:00".

(** Magic bytes alone, and an Ack magic followed by four bytes. *)
Definition data_magic_only : bytes := [x2a; x87; xcf; x10].
Definition ack_magic_short : bytes :=
  [x20; xcf; x87; x2a; x00; x00; x00; x00].

(** The 42 header bytes of a UDP frame: Ethernet, IPv4 (0x45, protocol 17,
    addresses 192.168.1.20 and 10.0.0.2), UDP (ports 8080 and 9000) with
    the length field [udp_len_hi udp_len_lo]. *)
Definition frame_headers (udp_len_hi udp_len_lo : byte) : bytes :=
  [x00; x11; x22; x33; x44; x55; x66; x77; x88; x99; xaa; xbb; x08; x00]
  ++ [x45; x00; x00; x20; x00; x00; x00; x00; x40; x11; x00; x00;
      xc0; xa8; x01; x14; x0a; x00; x00; x02]
  ++ [x1f; x90; x23; x28; udp_len_hi; udp_len_lo; x00; x00].

(** A frame whose UDP length field says 100 while the frame ends after the
    headers. *)
Definition truncated_frame : bytes := frame_headers x00 x64.

(** A frame that carries a four-byte payload, UDP length 12. *)
Definition discovery_frame : bytes :=
  frame_headers x00 x0c ++ [x3a; xcf; x87; x2a].

(** An ARP frame of 42 bytes: the byte at offset 14 is not 0x45. *)
Definition arp_frame : bytes :=
  [xff; xff; xff; xff; xff; xff; x66; x77; x88; x99; xaa; xbb; x08; x06]
  ++ repeat x00 28.

(** A legacy capture file: the 24-byte global header, then one record whose
    frame is [discovery_frame] (46 bytes). *)
Definition legacy_file : bytes :=
  [xd4; xc3; xb2; xa1; x02; x00; x04; x00; x00; x00; x00; x00;
   x00; x00; x00; x00; xff; xff; x00; x00; x01; x00; x00; x00]
  ++ [x01; x00; x00; x00; x02; x00; x00; x00;
      x2e; x00; x00; x00; x2e; x00; x00; x00]
  ++ discovery_frame.

(** A packet block of total length 16 whose trailing length says 17. *)
Definition block_body : bytes := [x00; x00; x00; x00; x01; x00; x00; x00].
Definition mismatched_block : bytes :=
  [x06; x00; x00; x00] ++ [x10; x00; x00; x00] ++ block_body
  ++ [x11; x00; x00; x00] ++ [].

(** A record of an export whose payload string is cut in the middle of a
    byte. *)
Definition malformed_hex : string := "10:cf:87:2".
Definition malformed_entry : Json.entry :=
  Json.Entry 7 0 (Some (Json.UdpLayer 8080 9000 malformed_hex))
    "192.168.1.20" "10.0.0.2".

(** A Data packet sent by the camera at time [t] with packet id [pid]. *)
Definition data_from_camera (t : float) (pid : Z) : compare_stream_flow.packet :=
  compare_stream_flow.Packet 0 t "192.168.1.20" 8080 9000
    (compare_stream_flow.Data 1 pid 0).


(** Twelve ids with eleven gaps between them. *)
Definition even_ids : list Z := [0; 2; 4; 6; 8; 10; 12; 14; 16; 18; 20; 22].
Definition even_packets : list compare_stream_flow.packet :=
  map (data_from_camera 0) even_ids.

(** Ten Data packets, the first at 1.0 s and the last at 3.0 s. *)
Definition ten_packets : list compare_stream_flow.packet :=
  [data_from_camera 1 0; data_from_camera 1.25 1; data_from_camera 1.5 2;
   data_from_camera 1.75 3; data_from_camera 2 4; data_from_camera 2.25 5;
   data_from_camera 2.5 6; data_from_camera 2.75 7;
   data_from_camera 2.875 8; data_from_camera 3 9]%float.

Definition one_packet : list compare_stream_flow.packet :=
  [data_from_camera 1 7]%float.

(** Fifty Data packets with ids 100 to 149, evenly spread over [span]
    seconds. *)
Definition fifty_packets (span : float) : list compare_stream_flow.packet :=
  map (fun i : nat =>
         data_from_camera
           (float_of_int (Z.of_nat i) / 49 * span)%float
           (100 + Z.of_nat i))
      (seq 0 50).

(** The body of a packet block: interface 0, timestamp words 1 and 2, a
    captured length of 100, and three bytes of frame data. *)
Definition clipped_block_body : bytes :=
  [x00; x00; x00; x00; x01; x00; x00; x00; x02; x00; x00; x00;
   x64; x00; x00; x00; xaa; xbb; xcc].


(** A capture laid out as [read_pcapng_block] reads it (type, length,
    [length - 8] bytes of body, trailing length): a first block of type
    [0x0A0D0D0A] and length 12, then a packet block of length 86 whose
    frame is a UDP datagram carrying the twenty bytes [payload]. *)
Definition capture_with (payload : bytes) : bytes :=
  [x0a; x0d; x0d; x0a; x0c; x00; x00; x00;
   x4d; x3c; x2b; x1a; x0c; x00; x00; x00]
  ++ [x06; x00; x00; x00; x56; x00; x00; x00]
  ++ [x00; x00; x00; x00; x01; x00; x00; x00;
      x02; x00; x00; x00; x3e; x00; x00; x00]
  ++ frame_headers x00 x1c ++ payload
  ++ [x56; x00; x00; x00].

(** [data_reversed] with packet id 6 instead of 5. *)
Definition data_reversed_next : bytes :=
  [x2a; x87; xcf; x10; x01; x00; x00; x80; x00; x00; x00; x00;
   x06; x00; x00; x00; x07; x00; x00; x00].


(** The entry that [analyze_pcapng] builds for the packet block of
    [capture_with payload], for a Data payload with id [packet_id]. *)
Definition captured_data (packet_id : Z) (payload : bytes)
  : compare_pcaps.packet :=
  compare_pcaps.Packet 0 4294967298 "192.168.1.20" "10.0.0.2" 8080 9000
    (compare_pcaps.Data 0x10cf872a (-2147483647) packet_id 7 payload)
    (hex payload).


(** The first eight bytes of a legacy capture file: the magic number and
    the version, the rest of the 24-byte header missing. *)
Definition truncated_legacy_header : bytes :=
  [xd4; xc3; xb2; xa1; x02; x00; x04; x00].



(** Two Ack packets sent by the client, and no Data packet. *)
Definition client_acks : list compare_stream_flow.packet :=
  [compare_stream_flow.Packet 1 1 "10.0.0.2" 9000 8080
     (compare_stream_flow.Ack 1 0 3);
   compare_stream_flow.Packet 2 2 "10.0.0.2" 9000 8080
     (compare_stream_flow.Ack 1 0 4)]%float.


(** Packets of [analyze_json.py]: a discovery request sent by the client,
    the answer of the camera, and a Data packet of the camera. *)
Definition discovery_request : analyze_json.packet :=
  analyze_json.Packet 1 0.5 "10.0.0.2" "192.168.1.20" 9000 8080
    (analyze_json.Discovery 0x3acf872a "3a:cf:87:2a").
Definition discovery_answer : analyze_json.packet :=
  analyze_json.Packet 2 1.5 "192.168.1.20" "10.0.0.2" 8080 9000
    (analyze_json.Discovery 0x3acf872a "3a:cf:87:2a").
Definition data_after_discovery : analyze_json.packet :=
  analyze_json.Packet 3 2 "192.168.1.20" "10.0.0.2" 8080 9000
    (analyze_json.Data 0x10cf872a (-2147483647) 5 7 data_wire_hex).


(** The start of a capture in the standard layout: a section header of
    total length 28 and the first twelve bytes of an interface
    description for Ethernet (type 1, total length 20, link type 1). *)
Definition standard_capture_start : bytes :=
  [x0a; x0d; x0d; x0a] ++ [x1c; x00; x00; x00]
  ++ [x4d; x3c; x2b; x1a; x01; x00; x00; x00;
      xff; xff; xff; xff; xff; xff; xff; xff]
  ++ [x1c; x00; x00; x00]
  ++ [x01; x00; x00; x00] ++ [x14; x00; x00; x00] ++ [x01; x00; x00; x00]
  ++ [x00; x00; x04; x00; x14; x00; x00; x00].


(** A packet block of length 86, framed as [read_pcapng_block] reads it,
    whose frame is a UDP datagram that carries [data_reversed]. *)
Definition data_block_body : bytes :=
  [x00; x00; x00; x00; x01; x00; x00; x00;
   x02; x00; x00; x00; x3e; x00; x00; x00]
  ++ frame_headers x00 x1c ++ data_reversed.
Definition data_packet_block : bytes :=
  [x06; x00; x00; x00] ++ [x56; x00; x00; x00] ++ data_block_body
  ++ [x56; x00; x00; x00] ++ [].

End Samples.

(* ================================================================== *)
(** ** Properties of the primitives                                    *)
(* ================================================================== *)

(** Powers of two that occur in the layout, as numerals. *)
Ltac pow2 :=
  change (2 ^ 8) with 256 in *; change (2 ^ 16) with 65536 in *;
  change (2 ^ 24) with 16777216 in *; change (2 ^ 31) with 2147483648 in *;
  change (2 ^ 32) with 4294967296 in *.

Section Primitives.

Lemma len_nonneg {A} (l : list A) : 0 <= len l.
Proof. unfold len. lia. Qed.

Lemma byte_val_range (b : byte) : 0 <= byte_val b < 256.
Proof.
  unfold byte_val. pose proof (Byte.to_N_bounded b) as H.
  lia.
Qed.

Lemma clamp_in_range (n i : Z) : 0 <= i <= n -> clamp n i = i.
Proof.
  intros H. unfold clamp.
  destruct (i <? 0) eqn:E; [apply Z.ltb_lt in E; lia | lia].
Qed.

(** A slice whose bounds lie inside the sequence. *)
Lemma slice_of_in_range {A} (d : list A) (a b : Z) :
  0 <= a -> a <= b -> b <= len d ->
  slice_of d a b = firstn (Z.to_nat (b - a)) (skipn (Z.to_nat a) d).
Proof.
  intros Ha Hab Hb. unfold slice_of.
  rewrite !clamp_in_range by lia. reflexivity.
Qed.

Lemma length_slice_of {A} (d : list A) (a b : Z) :
  0 <= a -> a <= b -> b <= len d ->
  List.length (slice_of d a b) = Z.to_nat (b - a).
Proof.
  intros Ha Hab Hb. rewrite slice_of_in_range by assumption.
  rewrite length_firstn, length_skipn. unfold len in Hb. lia.
Qed.

(** The four elements that [firstn 4 (skipn off p)] holds. *)
Lemma firstn4_skipn {A} (d : A) (p : list A) (off : nat) :
  (off + 4 <= List.length p)%nat ->
  firstn 4 (skipn off p) =
  [nth off p d; nth (off + 1) p d; nth (off + 2) p d; nth (off + 3) p d].
Proof.
  revert p. induction off as [|off IH]; intros p H.
  - destruct p as [|a [|b [|c [|e t]]]]; simpl in H; try lia. reflexivity.
  - destruct p as [|a t]; simpl in H; [lia|].
    simpl. apply IH. lia.
Qed.

Lemma firstn2_skipn {A} (d : A) (p : list A) (off : nat) :
  (off + 2 <= List.length p)%nat ->
  firstn 2 (skipn off p) = [nth off p d; nth (off + 1) p d].
Proof.
  revert p. induction off as [|off IH]; intros p H.
  - destruct p as [|a [|b t]]; simpl in H; try lia. reflexivity.
  - destruct p as [|a t]; simpl in H; [lia|].
    simpl. apply IH. lia.
Qed.

Lemma uint_le_4 (a b c d : byte) :
  uint_le [a; b; c; d] =
  byte_val a + 2 ^ 8 * byte_val b + 2 ^ 16 * byte_val c + 2 ^ 24 * byte_val d.
Proof. cbn [uint_le]. pow2. lia. Qed.

Lemma uint_be_4 (a b c d : byte) :
  uint_be [a; b; c; d] =
  2 ^ 24 * byte_val a + 2 ^ 16 * byte_val b + 2 ^ 8 * byte_val c + byte_val d.
Proof. unfold uint_be. cbn [fold_left]. pow2. lia. Qed.

Lemma uint_be_2 (a b : byte) :
  uint_be [a; b] = 2 ^ 8 * byte_val a + byte_val b.
Proof. unfold uint_be. cbn [fold_left]. pow2. lia. Qed.

(** Reading four bytes at [off], least significant first, through a slice. *)
Lemma uint_le_slice (p : bytes) (off : nat) :
  Z.of_nat off + 4 <= len p ->
  uint_le (slice_of p (Z.of_nat off) (Z.of_nat off + 4)) = u32_le_at p off.
Proof.
  intros H. rewrite slice_of_in_range by lia.
  replace (Z.to_nat (Z.of_nat off + 4 - Z.of_nat off)) with 4%nat by lia.
  rewrite Nat2Z.id. unfold len in H.
  rewrite (firstn4_skipn x00) by lia.
  rewrite uint_le_4. reflexivity.
Qed.

Lemma uint_be_slice (p : bytes) (off : nat) :
  Z.of_nat off + 4 <= len p ->
  uint_be (slice_of p (Z.of_nat off) (Z.of_nat off + 4)) = u32_be_at p off.
Proof.
  intros H. rewrite slice_of_in_range by lia.
  replace (Z.to_nat (Z.of_nat off + 4 - Z.of_nat off)) with 4%nat by lia.
  rewrite Nat2Z.id. unfold len in H.
  rewrite (firstn4_skipn x00) by lia.
  rewrite uint_be_4. reflexivity.
Qed.

Lemma uint_be_slice2 (p : bytes) (off : nat) :
  Z.of_nat off + 2 <= len p ->
  uint_be (slice_of p (Z.of_nat off) (Z.of_nat off + 2)) = u16_be_at p off.
Proof.
  intros H. rewrite slice_of_in_range by lia.
  replace (Z.to_nat (Z.of_nat off + 2 - Z.of_nat off)) with 2%nat by lia.
  rewrite Nat2Z.id. unfold len in H.
  rewrite (firstn2_skipn x00) by lia.
  rewrite uint_be_2. reflexivity.
Qed.

Lemma u32_le_at_range (p : bytes) (off : nat) : 0 <= u32_le_at p off < 2 ^ 32.
Proof.
  unfold u32_le_at, byte_at.
  pose proof (byte_val_range (nth off p x00)).
  pose proof (byte_val_range (nth (off + 1) p x00)).
  pose proof (byte_val_range (nth (off + 2) p x00)).
  pose proof (byte_val_range (nth (off + 3) p x00)).
  pow2. lia.
Qed.

Lemma s32_le_at_range (p : bytes) (off : nat) :
  - 2 ^ 31 <= s32_le_at p off < 2 ^ 31.
Proof.
  unfold s32_le_at. pose proof (u32_le_at_range p off) as H.
  destruct (u32_le_at p off <? 2 ^ 31) eqn:E.
  - apply Z.ltb_lt in E. pow2. lia.
  - apply Z.ltb_ge in E. pow2. lia.
Qed.

Lemma to_signed_4 (v : Z) :
  to_signed 4 v = if v <? 2 ^ 31 then v else v - 2 ^ 32.
Proof. reflexivity. Qed.

(** [struct.unpack] on a buffer of the right size. *)
Lemma unpack_sized (size : nat) (decode : bytes -> Z) (bs : bytes) :
  List.length bs = size -> unpack size decode bs = ret (decode bs).
Proof. intros H. unfold unpack. rewrite H, Nat.eqb_refl. reflexivity. Qed.

Lemma unpack_missized (size : nat) (decode : bytes -> Z) (bs : bytes) :
  List.length bs <> size -> unpack size decode bs = raise StructError.
Proof.
  intros H. unfold unpack.
  destruct (Nat.eqb (List.length bs) size) eqn:E; [|reflexivity].
  apply Nat.eqb_eq in E. contradiction.
Qed.

End Primitives.

(* ================================================================== *)
(** ** Reading header fields                                           *)
(* ================================================================== *)

Section Fields.

Variable B : Type.
Variable p : bytes.

(** [struct.unpack('<I', p[off:off+4])] followed by [k]. *)
Lemma bind_slice_unpack_lt_I (off : nat) (k : Z -> M B) :
  Z.of_nat off + 4 <= len p ->
  (c <- slice p (Z.of_nat off) (Z.of_nat off + 4) ;;
   v <- unpack_lt_I c ;; k v) =
  (value (k (u32_le_at p off)),
   Span (Z.of_nat off) (Z.of_nat off + 4) :: reads (k (u32_le_at p off))).
Proof.
  intros H. unfold slice, unpack_lt_I, bind. cbv beta iota.
  rewrite unpack_sized by (rewrite length_slice_of; lia).
  rewrite uint_le_slice by assumption.
  unfold ret, value, reads.
  destruct (k (u32_le_at p off)) as [r l]. reflexivity.
Qed.

(** [struct.unpack('<i', p[off:off+4])] followed by [k]. *)
Lemma bind_slice_unpack_lt_i (off : nat) (k : Z -> M B) :
  Z.of_nat off + 4 <= len p ->
  (c <- slice p (Z.of_nat off) (Z.of_nat off + 4) ;;
   v <- unpack_lt_i c ;; k v) =
  (value (k (s32_le_at p off)),
   Span (Z.of_nat off) (Z.of_nat off + 4) :: reads (k (s32_le_at p off))).
Proof.
  intros H. unfold slice, unpack_lt_i, bind. cbv beta iota.
  rewrite unpack_sized by (rewrite length_slice_of; lia).
  rewrite to_signed_4, uint_le_slice by assumption.
  fold (s32_le_at p off).
  unfold ret, value, reads.
  destruct (k (s32_le_at p off)) as [r l]. reflexivity.
Qed.

(** [struct.unpack('>I', p[off:off+4])] followed by [k]. *)
Lemma bind_slice_unpack_gt_I (off : nat) (k : Z -> M B) :
  Z.of_nat off + 4 <= len p ->
  (c <- slice p (Z.of_nat off) (Z.of_nat off + 4) ;;
   v <- unpack_gt_I c ;; k v) =
  (value (k (u32_be_at p off)),
   Span (Z.of_nat off) (Z.of_nat off + 4) :: reads (k (u32_be_at p off))).
Proof.
  intros H. unfold slice, unpack_gt_I, bind. cbv beta iota.
  rewrite unpack_sized by (rewrite length_slice_of; lia).
  rewrite uint_be_slice by assumption.
  unfold ret, value, reads.
  destruct (k (u32_be_at p off)) as [r l]. reflexivity.
Qed.

(** [struct.unpack('>H', p[off:off+2])] followed by [k]. *)
Lemma bind_slice_unpack_gt_H (off : nat) (k : Z -> M B) :
  Z.of_nat off + 2 <= len p ->
  (c <- slice p (Z.of_nat off) (Z.of_nat off + 2) ;;
   v <- unpack_gt_H c ;; k v) =
  (value (k (u16_be_at p off)),
   Span (Z.of_nat off) (Z.of_nat off + 2) :: reads (k (u16_be_at p off))).
Proof.
  intros H. unfold slice, unpack_gt_H, bind. cbv beta iota.
  rewrite unpack_sized by (rewrite length_slice_of; lia).
  rewrite uint_be_slice2 by assumption.
  unfold ret, value, reads.
  destruct (k (u16_be_at p off)) as [r l]. reflexivity.
Qed.

(** [int.from_bytes(p[off:off+4], 'little')] is the unsigned field. *)
Lemma int_from_bytes_little_slice (off : nat) :
  Z.of_nat off + 4 <= len p ->
  int_from_bytes_little (slice_of p (Z.of_nat off) (Z.of_nat off + 4)) =
  u32_le_at p off.
Proof. intros H. unfold int_from_bytes_little. now apply uint_le_slice. Qed.

(** [int.from_bytes(p[off:off+4], 'little', signed=True)] is the signed
    field. *)
Lemma int_from_bytes_little_signed_slice (off : nat) :
  Z.of_nat off + 4 <= len p ->
  int_from_bytes_little_signed
    (slice_of p (Z.of_nat off) (Z.of_nat off + 4)) = s32_le_at p off.
Proof.
  intros H. unfold int_from_bytes_little_signed.
  pose proof (length_slice_of p (Z.of_nat off) (Z.of_nat off + 4)) as L.
  replace (Z.to_nat (Z.of_nat off + 4 - Z.of_nat off)) with 4%nat in L by lia.
  specialize (L ltac:(lia) ltac:(lia) H).
  destruct (slice_of p (Z.of_nat off) (Z.of_nat off + 4)) as [|b t] eqn:E;
    [discriminate|].
  rewrite L, <- E, to_signed_4, uint_le_slice by assumption. reflexivity.
Qed.

End Fields.

Arguments bind_slice_unpack_lt_I {B} p off k.
Arguments bind_slice_unpack_lt_i {B} p off k.
Arguments bind_slice_unpack_gt_I {B} p off k.
Arguments bind_slice_unpack_gt_H {B} p off k.

(** Tests between the magic constants and the length tests that the
    hypotheses settle. *)
Ltac magic_tests :=
  repeat match goal with
  | |- context [?a =? ?b] =>
      first [ change (a =? b) with true | change (a =? b) with false ]
  | |- context [?a <? ?b] =>
      first [ change (a <? b) with true | change (a <? b) with false ]
  end;
  cbn [negb]; cbv beta iota.

Ltac length_tests :=
  repeat first
    [ rewrite (proj2 (Z.ltb_ge _ _)) by lia
    | rewrite (proj2 (Z.ltb_lt _ _)) by lia ];
  cbv beta iota.

Ltac read_fields p :=
  repeat first
    [ rewrite (bind_slice_unpack_lt_I p 0) by (simpl; lia)
    | rewrite (bind_slice_unpack_gt_I p 0) by (simpl; lia)
    | rewrite (bind_slice_unpack_lt_i p 4) by (simpl; lia)
    | rewrite (bind_slice_unpack_lt_I p 12) by (simpl; lia)
    | rewrite (bind_slice_unpack_lt_I p 16) by (simpl; lia) ].

Ltac from_bytes_fields p :=
  change (slice_of p 4 8) with (slice_of p (Z.of_nat 4) (Z.of_nat 4 + 4));
  change (slice_of p 12 16)
    with (slice_of p (Z.of_nat 12) (Z.of_nat 12 + 4));
  change (slice_of p 16 20)
    with (slice_of p (Z.of_nat 16) (Z.of_nat 16 + 4));
  rewrite (int_from_bytes_little_signed_slice p 4) by (simpl; lia);
  rewrite (int_from_bytes_little_slice p 12) by (simpl; lia);
  rewrite (int_from_bytes_little_slice p 16) by (simpl; lia).

Section Decoders.

(** The binary decoder on a payload that is long enough for a Data header
    and starts with the Data magic, as the decoder reads it. *)
Lemma parse_bcudp_packet_data (p : bytes) :
  20 <= len p ->
  u32_le_at p 0 = compare_pcaps.BCUDP_MAGIC_DATA ->
  compare_pcaps.parse_bcudp_packet p =
  (Ret (Some (compare_pcaps.Data compare_pcaps.BCUDP_MAGIC_DATA
                (s32_le_at p 4) (u32_le_at p 12) (u32_le_at p 16) p)),
   [Span 0 4; Span 4 8; Span 12 16; Span 16 20]).
Proof.
  intros Hlen Hmagic. unfold compare_pcaps.parse_bcudp_packet.
  length_tests.
  rewrite (bind_slice_unpack_lt_I p 0) by (simpl; lia).
  rewrite Hmagic. magic_tests. length_tests.
  read_fields p. reflexivity.
Qed.

Lemma parse_bcudp_packet_ack (p : bytes) :
  28 <= len p ->
  u32_le_at p 0 = compare_pcaps.BCUDP_MAGIC_ACK ->
  compare_pcaps.parse_bcudp_packet p =
  (Ret (Some (compare_pcaps.Ack compare_pcaps.BCUDP_MAGIC_ACK
                (s32_le_at p 4) (u32_le_at p 12) (u32_le_at p 16) p)),
   [Span 0 4; Span 4 8; Span 12 16; Span 16 20]).
Proof.
  intros Hlen Hmagic. unfold compare_pcaps.parse_bcudp_packet.
  length_tests.
  rewrite (bind_slice_unpack_lt_I p 0) by (simpl; lia).
  rewrite Hmagic. magic_tests. length_tests.
  read_fields p. reflexivity.
Qed.

Lemma parse_bcudp_packet_discovery (p : bytes) :
  4 <= len p ->
  u32_le_at p 0 = compare_pcaps.BCUDP_MAGIC_DISCOVERY ->
  compare_pcaps.parse_bcudp_packet p =
  (Ret (Some (compare_pcaps.Discovery compare_pcaps.BCUDP_MAGIC_DISCOVERY p)),
   [Span 0 4]).
Proof.
  intros Hlen Hmagic. unfold compare_pcaps.parse_bcudp_packet.
  length_tests.
  rewrite (bind_slice_unpack_lt_I p 0) by (simpl; lia).
  rewrite Hmagic. magic_tests. reflexivity.
Qed.

(** A magic match on a payload that is too short for the variant. *)
Lemma parse_bcudp_packet_short (v : variant) (p : bytes) :
  4 <= len p ->
  u32_le_at p 0 = magic_of v ->
  len p < min_len v ->
  compare_pcaps.parse_bcudp_packet p = (Ret None, [Span 0 4]).
Proof.
  intros H4 Hmagic Hshort. unfold compare_pcaps.parse_bcudp_packet.
  length_tests.
  rewrite (bind_slice_unpack_lt_I p 0) by (simpl; lia).
  rewrite Hmagic.
  destruct v; cbn [magic_of min_len] in *; magic_tests.
  - lia.
  - length_tests. reflexivity.
  - length_tests. reflexivity.
Qed.

(** A payload of fewer than four bytes is not looked at. *)
Lemma parse_bcudp_packet_tiny (p : bytes) :
  len p < 4 -> compare_pcaps.parse_bcudp_packet p = (Ret None, []).
Proof.
  intros H. unfold compare_pcaps.parse_bcudp_packet.
  length_tests. reflexivity.
Qed.

(** A payload that starts with none of the three magic values. *)
Lemma parse_bcudp_packet_other (p : bytes) :
  4 <= len p ->
  u32_le_at p 0 <> compare_pcaps.BCUDP_MAGIC_DISCOVERY ->
  u32_le_at p 0 <> compare_pcaps.BCUDP_MAGIC_DATA ->
  u32_le_at p 0 <> compare_pcaps.BCUDP_MAGIC_ACK ->
  compare_pcaps.parse_bcudp_packet p = (Ret None, [Span 0 4]).
Proof.
  intros H4 H1 H2 H3. unfold compare_pcaps.parse_bcudp_packet.
  length_tests.
  rewrite (bind_slice_unpack_lt_I p 0) by (simpl; lia).
  apply Z.eqb_neq in H1, H2, H3. rewrite H1, H2, H3. reflexivity.
Qed.

(** The decoders of [compare_stream_flow.py]. *)
Lemma parse_bcudp_data_ok (p : bytes) :
  20 <= len p ->
  u32_be_at p 0 = compare_stream_flow.BCUDP_MAGIC_DATA ->
  compare_stream_flow.parse_bcudp_data p =
  (Ret (Some (compare_stream_flow.Data
                (s32_le_at p 4) (u32_le_at p 12) (u32_le_at p 16))),
   [Span 0 4; Span 4 8; Span 12 16; Span 16 20]).
Proof.
  intros Hlen Hmagic. unfold compare_stream_flow.parse_bcudp_data.
  length_tests.
  rewrite (bind_slice_unpack_gt_I p 0) by (simpl; lia).
  rewrite Hmagic. magic_tests.
  unfold slice, bind, ret, value, reads. cbv beta iota zeta.
  from_bytes_fields p. reflexivity.
Qed.

Lemma parse_bcudp_ack_ok (p : bytes) :
  28 <= len p ->
  u32_be_at p 0 = compare_stream_flow.BCUDP_MAGIC_ACK ->
  compare_stream_flow.parse_bcudp_ack p =
  (Ret (Some (compare_stream_flow.Ack
                (s32_le_at p 4) (u32_le_at p 12) (u32_le_at p 16))),
   [Span 0 4; Span 4 8; Span 12 16; Span 16 20]).
Proof.
  intros Hlen Hmagic. unfold compare_stream_flow.parse_bcudp_ack.
  length_tests.
  rewrite (bind_slice_unpack_gt_I p 0) by (simpl; lia).
  rewrite Hmagic. magic_tests.
  unfold slice, bind, ret, value, reads. cbv beta iota zeta.
  from_bytes_fields p. reflexivity.
Qed.

Lemma parse_bcudp_data_short (p : bytes) :
  len p < 20 -> compare_stream_flow.parse_bcudp_data p = (Ret None, []).
Proof.
  intros H. unfold compare_stream_flow.parse_bcudp_data.
  length_tests. reflexivity.
Qed.

Lemma parse_bcudp_ack_short (p : bytes) :
  len p < 28 -> compare_stream_flow.parse_bcudp_ack p = (Ret None, []).
Proof.
  intros H. unfold compare_stream_flow.parse_bcudp_ack.
  length_tests. reflexivity.
Qed.

Lemma parse_bcudp_data_other (p : bytes) :
  20 <= len p ->
  u32_be_at p 0 <> compare_stream_flow.BCUDP_MAGIC_DATA ->
  compare_stream_flow.parse_bcudp_data p = (Ret None, [Span 0 4]).
Proof.
  intros Hlen Hmagic. unfold compare_stream_flow.parse_bcudp_data.
  length_tests.
  rewrite (bind_slice_unpack_gt_I p 0) by (simpl; lia).
  apply Z.eqb_neq in Hmagic. rewrite Hmagic. reflexivity.
Qed.

Lemma parse_bcudp_ack_other (p : bytes) :
  28 <= len p ->
  u32_be_at p 0 <> compare_stream_flow.BCUDP_MAGIC_ACK ->
  compare_stream_flow.parse_bcudp_ack p = (Ret None, [Span 0 4]).
Proof.
  intros Hlen Hmagic. unfold compare_stream_flow.parse_bcudp_ack.
  length_tests.
  rewrite (bind_slice_unpack_gt_I p 0) by (simpl; lia).
  apply Z.eqb_neq in Hmagic. rewrite Hmagic. reflexivity.
Qed.

End Decoders.

(* ================================================================== *)
(** ** The BCUDP decoders stay inside the payload                      *)
(* ================================================================== *)

Section Bounds.

Ltac spans_in_bounds :=
  repeat constructor; unfold in_bounds; cbn [lo hi]; lia.

(** Every request of the binary decoder lies inside the payload. *)
Lemma parse_bcudp_packet_in_bounds (p : bytes) :
  Forall (in_bounds (len p)) (reads (compare_pcaps.parse_bcudp_packet p)).
Proof.
  destruct (Z.lt_ge_cases (len p) 4) as [H4|H4].
  { rewrite parse_bcudp_packet_tiny by assumption. constructor. }
  destruct (Z.eq_dec (u32_le_at p 0) compare_pcaps.BCUDP_MAGIC_DISCOVERY)
    as [Hd|Hd].
  { rewrite parse_bcudp_packet_discovery by assumption. spans_in_bounds. }
  destruct (Z.eq_dec (u32_le_at p 0) compare_pcaps.BCUDP_MAGIC_DATA)
    as [Ha|Ha].
  { destruct (Z.lt_ge_cases (len p) 20) as [H20|H20].
    - rewrite (parse_bcudp_packet_short VData) by assumption.
      spans_in_bounds.
    - rewrite parse_bcudp_packet_data by assumption. spans_in_bounds. }
  destruct (Z.eq_dec (u32_le_at p 0) compare_pcaps.BCUDP_MAGIC_ACK)
    as [Hk|Hk].
  { destruct (Z.lt_ge_cases (len p) 28) as [H28|H28].
    - rewrite (parse_bcudp_packet_short VAck) by assumption.
      spans_in_bounds.
    - rewrite parse_bcudp_packet_ack by assumption. spans_in_bounds. }
  rewrite parse_bcudp_packet_other by assumption. spans_in_bounds.
Qed.

(** The binary decoder never raises. *)
Lemma parse_bcudp_packet_total (p : bytes) :
  exists r, value (compare_pcaps.parse_bcudp_packet p) = Ret r.
Proof.
  destruct (Z.lt_ge_cases (len p) 4) as [H4|H4].
  { rewrite parse_bcudp_packet_tiny by assumption. now eexists. }
  destruct (Z.eq_dec (u32_le_at p 0) compare_pcaps.BCUDP_MAGIC_DISCOVERY)
    as [Hd|Hd].
  { rewrite parse_bcudp_packet_discovery by assumption. now eexists. }
  destruct (Z.eq_dec (u32_le_at p 0) compare_pcaps.BCUDP_MAGIC_DATA)
    as [Ha|Ha].
  { destruct (Z.lt_ge_cases (len p) 20) as [H20|H20].
    - rewrite (parse_bcudp_packet_short VData) by assumption. now eexists.
    - rewrite parse_bcudp_packet_data by assumption. now eexists. }
  destruct (Z.eq_dec (u32_le_at p 0) compare_pcaps.BCUDP_MAGIC_ACK)
    as [Hk|Hk].
  { destruct (Z.lt_ge_cases (len p) 28) as [H28|H28].
    - rewrite (parse_bcudp_packet_short VAck) by assumption. now eexists.
    - rewrite parse_bcudp_packet_ack by assumption. now eexists. }
  rewrite parse_bcudp_packet_other by assumption. now eexists.
Qed.

Lemma parse_bcudp_data_in_bounds (p : bytes) :
  Forall (in_bounds (len p)) (reads (compare_stream_flow.parse_bcudp_data p)).
Proof.
  destruct (Z.lt_ge_cases (len p) 20) as [H|H].
  { rewrite parse_bcudp_data_short by assumption. constructor. }
  destruct (Z.eq_dec (u32_be_at p 0) compare_stream_flow.BCUDP_MAGIC_DATA)
    as [Hm|Hm].
  - rewrite parse_bcudp_data_ok by assumption. spans_in_bounds.
  - rewrite parse_bcudp_data_other by assumption. spans_in_bounds.
Qed.

Lemma parse_bcudp_ack_in_bounds (p : bytes) :
  Forall (in_bounds (len p)) (reads (compare_stream_flow.parse_bcudp_ack p)).
Proof.
  destruct (Z.lt_ge_cases (len p) 28) as [H|H].
  { rewrite parse_bcudp_ack_short by assumption. constructor. }
  destruct (Z.eq_dec (u32_be_at p 0) compare_stream_flow.BCUDP_MAGIC_ACK)
    as [Hm|Hm].
  - rewrite parse_bcudp_ack_ok by assumption. spans_in_bounds.
  - rewrite parse_bcudp_ack_other by assumption. spans_in_bounds.
Qed.

(** Fewer than four bytes cannot spell a magic value: the integer read from
    them is below [2^24]. *)
Lemma short_payload_no_magic (v : variant) (p : bytes) :
  len p < 4 -> u32_le_at p 0 <> magic_of v /\ u32_be_at p 0 <> magic_of v.
Proof.
  intros H. unfold len in H.
  destruct p as [|a [|b [|c [|d t]]]]; cbn [List.length] in H; try lia;
    unfold u32_le_at, u32_be_at, byte_at; cbn [nth Nat.add];
    change (byte_val x00) with 0;
    repeat match goal with
    | x : byte |- _ =>
        lazymatch goal with
        | _ : 0 <= byte_val x < 256 |- _ => fail
        | _ => pose proof (byte_val_range x)
        end
    end;
    destruct v; cbn [magic_of]; pow2; split; lia.
Qed.

End Bounds.

(* ================================================================== *)
(** ** Decoding of the BCUDP header                                    *)
(* ================================================================== *)

(** The two readings of the four bytes [10 cf 87 2a]. *)
Lemma data_magic_readings (p : bytes) :
  4 <= len p -> firstn 4 p = [x10; xcf; x87; x2a] ->
  u32_be_at p 0 = 0x10cf872a /\ u32_le_at p 0 = 0x2a87cf10.
Proof.
  intros Hlen H. unfold len in Hlen.
  change (firstn 4 p) with (firstn 4 (skipn 0 p)) in H.
  rewrite (firstn4_skipn x00) in H by lia.
  cbn [Nat.add] in H. injection H as H0 H1 H2 H3.
  unfold u32_be_at, u32_le_at, byte_at. cbn [Nat.add].
  rewrite H0, H1, H2, H3. split; reflexivity.
Qed.

(** C2.  For every payload of at least 20 bytes whose first four bytes
    are the Data magic [10 cf 87 2a], [parse_bcudp_data] of
    compare_stream_flow.py returns (it does not raise, and being a
    function it is deterministic) a Data packet whose [connection_id] is
    the signed little-endian 32-bit integer at offset 4, whose
    [packet_id] is the unsigned little-endian 32-bit integer at offset 12
    and whose [payload_len] is the unsigned little-endian 32-bit integer
    at offset 16.  [parse_bcudp_packet] of compare_pcaps.py does not: it
    reads the four bytes least significant first, finds [0x2a87cf10],
    which is none of its constants, and returns [None] for every such
    payload. *)
Theorem data_header_decoding (p : bytes) :
  20 <= len p ->
  firstn 4 p = [x10; xcf; x87; x2a] ->
  value (compare_stream_flow.parse_bcudp_data p) =
  Ret (Some (compare_stream_flow.Data
               (s32_le_at p 4) (u32_le_at p 12) (u32_le_at p 16)))
  /\
  value (compare_pcaps.parse_bcudp_packet p) = Ret None.
Proof.
  intros Hlen Hmagic.
  destruct (data_magic_readings p ltac:(lia) Hmagic) as (Hbe & Hle).
  split.
  - rewrite parse_bcudp_data_ok by assumption. reflexivity.
  - rewrite parse_bcudp_packet_other; try reflexivity; try lia;
      rewrite Hle; discriminate.
Qed.

Lemma data_header_decoding_witness :
  value (compare_stream_flow.parse_bcudp_data Samples.data_wire) =
  Ret (Some (compare_stream_flow.Data (-2147483647) 5 7))
  /\
  value (compare_pcaps.parse_bcudp_packet Samples.data_wire) = Ret None.
Proof.
  apply (data_header_decoding Samples.data_wire
           ltac:(vm_compute; discriminate) eq_refl).
Defined.

(** C4.  For every payload whose first four bytes carry the magic of a
    variant while the payload is shorter than the minimum of that variant
    (4 bytes for Discovery, 20 for Data, 28 for Ack), the decoder returns
    [None], it does not raise, and every position it asks for lies inside
    the payload.  This holds for [parse_bcudp_packet] of compare_pcaps.py
    and for [parse_bcudp_data] and [parse_bcudp_ack] of
    compare_stream_flow.py. *)
Theorem short_payload_undecodable (p : bytes) :
  (forall v : variant,
     u32_le_at p 0 = magic_of v -> len p < min_len v ->
     value (compare_pcaps.parse_bcudp_packet p) = Ret None /\
     Forall (in_bounds (len p))
       (reads (compare_pcaps.parse_bcudp_packet p)))
  /\
  (u32_be_at p 0 = magic_of VData -> len p < min_len VData ->
   value (compare_stream_flow.parse_bcudp_data p) = Ret None /\
   Forall (in_bounds (len p))
     (reads (compare_stream_flow.parse_bcudp_data p)))
  /\
  (u32_be_at p 0 = magic_of VAck -> len p < min_len VAck ->
   value (compare_stream_flow.parse_bcudp_ack p) = Ret None /\
   Forall (in_bounds (len p))
     (reads (compare_stream_flow.parse_bcudp_ack p))).
Proof.
  repeat split.
  - destruct (Z.lt_ge_cases (len p) 4) as [H4|H4].
    + now rewrite parse_bcudp_packet_tiny.
    + now rewrite (parse_bcudp_packet_short v).
  - apply parse_bcudp_packet_in_bounds.
  - cbn [min_len] in *. now rewrite parse_bcudp_data_short.
  - apply parse_bcudp_data_in_bounds.
  - cbn [min_len] in *. now rewrite parse_bcudp_ack_short.
  - apply parse_bcudp_ack_in_bounds.
Qed.

Lemma short_payload_undecodable_witness :
  (value (compare_pcaps.parse_bcudp_packet Samples.data_magic_only) =
   Ret None /\
   Forall (in_bounds 4)
     (reads (compare_pcaps.parse_bcudp_packet Samples.data_magic_only)))
  /\
  (value (compare_stream_flow.parse_bcudp_ack Samples.ack_magic_short) =
   Ret None /\
   Forall (in_bounds 8)
     (reads (compare_stream_flow.parse_bcudp_ack Samples.ack_magic_short))).
Proof.
  split.
  - apply (proj1 (short_payload_undecodable Samples.data_magic_only) VData).
    + reflexivity.
    + vm_compute. reflexivity.
  - apply (proj2 (proj2 (short_payload_undecodable Samples.ack_magic_short))).
    + reflexivity.
    + vm_compute. reflexivity.
Defined.


(* ================================================================== *)
(** ** Values of computations                                          *)
(* ================================================================== *)

Section Values.

Lemma value_bind {A B} (m : M A) (f : A -> M B) :
  value (bind m f) =
  match value m with
  | Ret a => value (f a)
  | Raise e => Raise e
  end.
Proof.
  destruct m as [[a|e] l]; unfold bind, value; cbn [fst]; [|reflexivity].
  destruct (f a). reflexivity.
Qed.

Lemma value_ret {A} (a : A) : value (ret a) = Ret a.
Proof. reflexivity. Qed.

Lemma value_slice (d : bytes) (a b : Z) :
  value (slice d a b) = Ret (slice_of d a b).
Proof. reflexivity. Qed.

Lemma value_index (d : bytes) (i : Z) :
  0 <= i < len d ->
  value (index d i) = Ret (byte_at d (Z.to_nat i)).
Proof.
  intros H. unfold index, byte_at.
  destruct (nth_error d (Z.to_nat i)) as [b|] eqn:E.
  - rewrite (nth_error_nth _ _ _ E). reflexivity.
  - apply nth_error_None in E. unfold len in H. lia.
Qed.

Lemma value_try_except {A} (m : M A) (h : A) :
  value (try_except m h) =
  match value m with
  | Ret a => Ret a
  | Raise _ => Ret h
  end.
Proof. destruct m as [[a|e] l]; reflexivity. Qed.

Lemma len_slice_of {A} (d : list A) (a b : Z) :
  0 <= a -> a <= b -> b <= len d -> len (slice_of d a b) = b - a.
Proof.
  intros Ha Hab Hb. unfold len at 1.
  rewrite length_slice_of by assumption. lia.
Qed.

(** A slice of a slice. *)
Lemma slice_of_slice_of {A} (f : list A) (a b c d : Z) :
  0 <= a -> a <= b -> b <= len f -> 0 <= c -> c <= d -> d <= b - a ->
  slice_of (slice_of f a b) c d = slice_of f (a + c) (a + d).
Proof.
  intros Ha Hab Hb Hc Hcd Hd.
  rewrite (slice_of_in_range (slice_of f a b)) by
    (rewrite ?len_slice_of; lia).
  rewrite !slice_of_in_range by lia.
  rewrite skipn_firstn_comm, firstn_firstn, skipn_skipn.
  f_equal; [|f_equal]; lia.
Qed.

(** An element of a slice. *)
Lemma byte_at_slice_of (f : bytes) (a b : Z) (i : nat) :
  0 <= a -> a <= b -> b <= len f -> Z.of_nat i < b - a ->
  byte_at (slice_of f a b) i = byte_at f (Z.to_nat a + i).
Proof.
  intros Ha Hab Hb Hi. unfold byte_at.
  rewrite slice_of_in_range by lia. f_equal.
  rewrite nth_firstn, nth_skipn.
  destruct (Nat.ltb i (Z.to_nat (b - a))) eqn:E; [reflexivity|].
  apply Nat.ltb_ge in E. lia.
Qed.

(** A slice that starts at or after the end is empty. *)
Lemma slice_of_past_end {A} (d : list A) (a b : Z) :
  len d <= a -> slice_of d a b = [].
Proof.
  intros H. pose proof (len_nonneg d) as Hn. unfold slice_of.
  replace (clamp (len d) a) with (len d)
    by (unfold clamp; destruct (a <? 0) eqn:E;
        [apply Z.ltb_lt in E|apply Z.ltb_ge in E]; lia).
  unfold len. rewrite Nat2Z.id, skipn_all. apply firstn_nil.
Qed.

(** A slice whose start lies inside the sequence and whose stop is not
    negative: the stop is clamped to the end. *)
Lemma slice_of_clamped {A} (d : list A) (a b : Z) :
  0 <= a -> a <= len d -> 0 <= b ->
  slice_of d a b = firstn (Z.to_nat (b - a)) (skipn (Z.to_nat a) d).
Proof.
  intros Ha Had Hb. unfold slice_of.
  rewrite (clamp_in_range (len d) a) by lia.
  unfold clamp. destruct (b <? 0) eqn:E; [apply Z.ltb_lt in E; lia|].
  destruct (Z.le_ge_cases b (len d)) as [H|H].
  - rewrite Z.min_l by lia. reflexivity.
  - rewrite Z.min_r by lia. unfold len in *.
    rewrite !firstn_all2; [reflexivity| |]; rewrite length_skipn; lia.
Qed.

Lemma firstn_app_exact {A} (a r : list A) (n : nat) :
  List.length a = n -> firstn n (a ++ r) = a.
Proof.
  intros <-. rewrite firstn_app, Nat.sub_diag, firstn_all, firstn_O.
  apply app_nil_r.
Qed.

Lemma skipn_app_exact {A} (a r : list A) (n : nat) :
  List.length a = n -> skipn n (a ++ r) = r.
Proof.
  intros <-. rewrite skipn_app, Nat.sub_diag, skipn_all. reflexivity.
Qed.

(** [f.read(n)] when [n] bytes are there. *)
Lemma fread_app (a rest : bytes) (out : list string) (n : Z) :
  len a = n ->
  fread n (FState (a ++ rest) out) = (Ret a, FState rest out).
Proof.
  intros H. unfold fread. cbn [pending stdout]. unfold len in H.
  rewrite firstn_app_exact, skipn_app_exact by lia. reflexivity.
Qed.

(** [struct.unpack('>H', p[a:b])] on two bytes inside [p]. *)
Lemma value_unpack_gt_H_slice (p : bytes) (a b : Z) :
  0 <= a -> b = a + 2 -> b <= len p ->
  value (unpack_gt_H (slice_of p a b)) = Ret (u16_be_at p (Z.to_nat a)).
Proof.
  intros Ha -> Hb. unfold unpack_gt_H.
  rewrite unpack_sized by (rewrite length_slice_of; lia).
  rewrite <- (Z2Nat.id a) at 1 2 by assumption.
  rewrite uint_be_slice2 by lia. reflexivity.
Qed.

Lemma u16_be_at_range (p : bytes) (off : nat) : 0 <= u16_be_at p off < 2 ^ 16.
Proof.
  unfold u16_be_at, byte_at.
  pose proof (byte_val_range (nth off p x00)).
  pose proof (byte_val_range (nth (off + 1) p x00)).
  pow2. lia.
Qed.

(** The dotted address built from four bytes inside [p]. *)
Lemma dotted_slice (p : bytes) (a b : Z) :
  0 <= a -> b = a + 4 -> b <= len p ->
  join "." (map (fun x : byte => str (byte_val x)) (slice_of p a b)) =
  dotted_at p (Z.to_nat a).
Proof.
  intros Ha -> Hb. rewrite slice_of_in_range by lia.
  replace (Z.to_nat (a + 4 - a)) with 4%nat by lia.
  unfold len in Hb. rewrite (firstn4_skipn x00) by lia.
  reflexivity.
Qed.

End Values.

(* ================================================================== *)
(** ** extract_udp_packet                                              *)
(* ================================================================== *)

Section Frames.

Variable f : bytes.

Lemma extract_udp_packet_short :
  len f < 42 -> compare_pcaps.extract_udp_packet f = (Ret None, []).
Proof.
  intros H. unfold compare_pcaps.extract_udp_packet.
  length_tests. reflexivity.
Qed.

Lemma extract_udp_packet_not_ipv4 :
  42 <= len f -> byte_at f 14 <> 0x45 ->
  value (compare_pcaps.extract_udp_packet f) = Ret None.
Proof.
  intros Hlen Hv. unfold compare_pcaps.extract_udp_packet.
  length_tests.
  rewrite value_bind, (value_index f 14) by lia.
  change (Z.to_nat 14) with 14%nat.
  apply Z.eqb_neq in Hv. rewrite Hv. reflexivity.
Qed.

Lemma extract_udp_packet_not_udp :
  42 <= len f -> byte_at f 14 = 0x45 -> byte_at f 23 <> 17 ->
  value (compare_pcaps.extract_udp_packet f) = Ret None.
Proof.
  intros Hlen Hv Hp. unfold compare_pcaps.extract_udp_packet.
  length_tests.
  rewrite value_bind, (value_index f 14) by lia.
  change (Z.to_nat 14) with 14%nat.
  rewrite Hv. magic_tests.
  rewrite value_bind, value_slice.
  rewrite value_bind, value_slice.
  rewrite value_bind, value_slice.
  rewrite value_bind.
  rewrite (value_index (slice_of f 14 34) 9) by (rewrite len_slice_of; lia).
  change (Z.to_nat 9) with 9%nat.
  rewrite (byte_at_slice_of f 14 34 9) by lia.
  change (Z.to_nat 14 + 9)%nat with 23%nat.
  apply Z.eqb_neq in Hp. rewrite Hp. reflexivity.
Qed.

Lemma extract_udp_packet_udp :
  is_udp_frame f ->
  value (compare_pcaps.extract_udp_packet f) =
  Ret (Some (compare_pcaps.UdpPacket
               (dotted_at f 26) (dotted_at f 30)
               (u16_be_at f 34) (u16_be_at f 36)
               (firstn (Z.to_nat (udp_length_of f - 8)) (skipn 42 f)))).
Proof.
  intros (Hlen & Hv & Hp). unfold compare_pcaps.extract_udp_packet.
  length_tests.
  rewrite value_bind, (value_index f 14) by lia.
  change (Z.to_nat 14) with 14%nat.
  rewrite Hv. magic_tests.
  rewrite value_bind, value_slice.
  rewrite value_bind, value_slice.
  rewrite value_bind, value_slice.
  rewrite value_bind.
  rewrite (value_index (slice_of f 14 34) 9) by (rewrite len_slice_of; lia).
  change (Z.to_nat 9) with 9%nat.
  rewrite (byte_at_slice_of f 14 34 9) by lia.
  change (Z.to_nat 14 + 9)%nat with 23%nat.
  rewrite Hp. magic_tests.
  rewrite !(slice_of_slice_of f 14 34) by lia.
  rewrite !dotted_slice by lia.
  change (Z.to_nat (14 + 12)) with 26%nat.
  change (Z.to_nat (14 + 16)) with 30%nat.
  rewrite value_bind, value_slice.
  rewrite value_bind, value_slice, (slice_of_slice_of f 34 42) by lia.
  rewrite value_bind, value_unpack_gt_H_slice by lia.
  rewrite value_bind, value_slice, (slice_of_slice_of f 34 42) by lia.
  rewrite value_bind, value_unpack_gt_H_slice by lia.
  rewrite value_bind, value_slice, (slice_of_slice_of f 34 42) by lia.
  rewrite value_bind, value_unpack_gt_H_slice by lia.
  change (Z.to_nat (34 + 0)) with 34%nat.
  change (Z.to_nat (34 + 2)) with 36%nat.
  change (Z.to_nat (34 + 4)) with 38%nat.
  rewrite value_bind, value_slice.
  pose proof (u16_be_at_range f 38) as Hr.
  rewrite slice_of_clamped by lia.
  rewrite value_ret. unfold udp_length_of.
  change (Z.to_nat 42) with 42%nat.
  replace (42 + u16_be_at f 38 - 8 - 42) with (u16_be_at f 38 - 8) by lia.
  reflexivity.
Qed.

(** [extract_udp_packet] never raises. *)
Lemma extract_udp_packet_total :
  exists r, value (compare_pcaps.extract_udp_packet f) = Ret r.
Proof.
  destruct (Z.lt_ge_cases (len f) 42) as [H|H].
  { rewrite extract_udp_packet_short by assumption. now eexists. }
  destruct (Z.eq_dec (byte_at f 14) 0x45) as [Hv|Hv].
  2:{ rewrite extract_udp_packet_not_ipv4 by assumption. now eexists. }
  destruct (Z.eq_dec (byte_at f 23) 17) as [Hp|Hp].
  2:{ rewrite extract_udp_packet_not_udp by assumption. now eexists. }
  rewrite extract_udp_packet_udp by (repeat split; assumption). now eexists.
Qed.

End Frames.

(** C8 as stated fails on a truncated frame: the frame passes the three
    checks and its UDP length field is 100, yet the payload of the
    datagram produced is empty, not the 92 bytes that [udp_length - 8]
    announces. *)
Lemma truncated_frame_payload :
  is_udp_frame Samples.truncated_frame /\
  udp_length_of Samples.truncated_frame - 8 = 92 /\
  value (compare_pcaps.extract_udp_packet Samples.truncated_frame) =
  Ret (Some (compare_pcaps.UdpPacket "192.168.1.20" "10.0.0.2" 8080 9000 [])).
Proof.
  repeat split; try reflexivity; vm_compute; discriminate.
Qed.

(** C8, amended.  For every raw frame, [extract_udp_packet] yields [None]
    (and does not raise) whenever the frame is shorter than 42 bytes, or
    the byte at offset 14 differs from 0x45, or the IP protocol byte
    differs from 17; only frames that pass all three checks produce a
    datagram, with the ports read big-endian from the first four bytes of
    the UDP header, and whose payload is the part of the frame after the
    42 header bytes, cut to at most [udp_length - 8] bytes: exactly
    [udp_length - 8] bytes when the frame holds them. *)
Theorem frame_decoder_filters (f : bytes) :
  (len f < 42 \/ byte_at f 14 <> 0x45 \/ byte_at f 23 <> 17 ->
   value (compare_pcaps.extract_udp_packet f) = Ret None)
  /\
  (forall u, value (compare_pcaps.extract_udp_packet f) = Ret (Some u) ->
             is_udp_frame f)
  /\
  (is_udp_frame f ->
   exists u,
     value (compare_pcaps.extract_udp_packet f) = Ret (Some u) /\
     compare_pcaps.src_port u = u16_be_at f 34 /\
     compare_pcaps.dst_port u = u16_be_at f 36 /\
     compare_pcaps.payload u =
       firstn (Z.to_nat (udp_length_of f - 8)) (skipn 42 f) /\
     (8 <= udp_length_of f -> 34 + udp_length_of f <= len f ->
      len (compare_pcaps.payload u) = udp_length_of f - 8)).
Proof.
  assert (Hnone :
    len f < 42 \/ byte_at f 14 <> 0x45 \/ byte_at f 23 <> 17 ->
    value (compare_pcaps.extract_udp_packet f) = Ret None).
  { intros H.
    destruct (Z.lt_ge_cases (len f) 42) as [Hl|Hl].
    { now rewrite extract_udp_packet_short. }
    destruct (Z.eq_dec (byte_at f 14) 0x45) as [Hv|Hv].
    2:{ now apply extract_udp_packet_not_ipv4. }
    destruct (Z.eq_dec (byte_at f 23) 17) as [Hp|Hp].
    2:{ now apply extract_udp_packet_not_udp. }
    lia. }
  split; [exact Hnone|]. split.
  - intros u Hu.
    destruct (Z.lt_ge_cases (len f) 42) as [Hl|Hl].
    { rewrite Hnone in Hu by (now left). discriminate. }
    destruct (Z.eq_dec (byte_at f 14) 0x45) as [Hv|Hv].
    2:{ rewrite Hnone in Hu by (right; now left). discriminate. }
    destruct (Z.eq_dec (byte_at f 23) 17) as [Hp|Hp].
    2:{ rewrite Hnone in Hu by (right; now right). discriminate. }
    repeat split; assumption.
  - intros Hf. eexists. split; [now apply extract_udp_packet_udp|].
    cbn [compare_pcaps.src_port compare_pcaps.dst_port compare_pcaps.payload].
    repeat split.
    intros H8 Hfit. destruct Hf as (Hlen & _ & _).
    unfold len in *. rewrite length_firstn, length_skipn. lia.
Qed.

Lemma frame_decoder_filters_witness :
  value (compare_pcaps.extract_udp_packet Samples.arp_frame) = Ret None
  /\
  exists u,
    value (compare_pcaps.extract_udp_packet Samples.discovery_frame) =
      Ret (Some u) /\
    compare_pcaps.src_port u = 8080 /\
    compare_pcaps.dst_port u = 9000 /\
    compare_pcaps.payload u = [x3a; xcf; x87; x2a] /\
    len (compare_pcaps.payload u) = 4.
Proof.
  split.
  - apply (proj1 (frame_decoder_filters Samples.arp_frame)).
    right. left. vm_compute. discriminate.
  - assert (Hf : is_udp_frame Samples.discovery_frame).
    { repeat split; try reflexivity; vm_compute; discriminate. }
    destruct (proj2 (proj2 (frame_decoder_filters Samples.discovery_frame)) Hf)
      as (u & Hu & Hs & Hd & Hp & Hl).
    exists u. repeat split; try assumption.
    apply Hl; vm_compute; discriminate.
Defined.

(* ================================================================== *)
(** ** The frame stage of analyze_pcap.py                              *)
(* ================================================================== *)

Section LegacyFrames.

Variable packet_num : Z.
Variable pkt_header : analyze_pcap.packet_header.
Variable f : bytes.

Lemma frame_packet_short :
  len f < 42 ->
  analyze_pcap.frame_packet packet_num pkt_header f = (Ret None, []).
Proof.
  intros H. unfold analyze_pcap.frame_packet.
  rewrite Z.geb_leb, (proj2 (Z.leb_gt _ _)) by lia.
  reflexivity.
Qed.

Lemma frame_packet_not_ipv4 :
  42 <= len f -> byte_at f 14 <> 0x45 ->
  value (analyze_pcap.frame_packet packet_num pkt_header f) = Ret None.
Proof.
  intros Hlen Hv. unfold analyze_pcap.frame_packet.
  rewrite Z.geb_leb, (proj2 (Z.leb_le _ _)) by lia.
  rewrite value_bind, value_slice.
  rewrite value_bind, (value_index (slice_of f 14 34) 0)
    by (rewrite len_slice_of; lia).
  change (Z.to_nat 0) with 0%nat.
  rewrite (byte_at_slice_of f 14 34 0) by lia.
  change (Z.to_nat 14 + 0)%nat with 14%nat.
  apply Z.eqb_neq in Hv. rewrite Hv. reflexivity.
Qed.

Lemma frame_packet_not_udp :
  42 <= len f -> byte_at f 14 = 0x45 -> byte_at f 23 <> 17 ->
  value (analyze_pcap.frame_packet packet_num pkt_header f) = Ret None.
Proof.
  intros Hlen Hv Hp. unfold analyze_pcap.frame_packet.
  rewrite Z.geb_leb, (proj2 (Z.leb_le _ _)) by lia.
  rewrite value_bind, value_slice.
  rewrite value_bind, (value_index (slice_of f 14 34) 0)
    by (rewrite len_slice_of; lia).
  change (Z.to_nat 0) with 0%nat.
  rewrite (byte_at_slice_of f 14 34 0) by lia.
  change (Z.to_nat 14 + 0)%nat with 14%nat.
  rewrite Hv. magic_tests.
  rewrite value_bind, (value_index (slice_of f 14 34) 9)
    by (rewrite len_slice_of; lia).
  change (Z.to_nat 9) with 9%nat.
  rewrite (byte_at_slice_of f 14 34 9) by lia.
  change (Z.to_nat 14 + 9)%nat with 23%nat.
  apply Z.eqb_neq in Hp. rewrite Hp. reflexivity.
Qed.

(** The 20-byte [ip_header] holds no byte at the positions where the stage
    looks for the ports. *)
Lemma ip_header_has_no_ports :
  42 <= len f ->
  slice_of (slice_of f 14 34) 20 22 = [] /\
  slice_of (slice_of f 14 34) 22 24 = [].
Proof.
  intros Hlen. split; apply slice_of_past_end; rewrite len_slice_of; lia.
Qed.

End LegacyFrames.

(** The exception leaves [analyze_pcap]: on a capture file whose first
    record is a UDP frame, the call ends with [struct.error]. *)
Lemma analyze_pcap_raises_on_udp_frame :
  fst (analyze_pcap.analyze_pcap "neolink.pcapng"
         (FState Samples.legacy_file [])) = Raise StructError.
Proof. vm_compute. reflexivity. Qed.

(** On a UDP frame the stage asks for bytes 20 and 21 of the 20-byte
    [ip_header] and [struct.unpack] raises on the empty slice. *)
Lemma frame_packet_raises
    (packet_num : Z) (pkt_header : analyze_pcap.packet_header) (f : bytes) :
  is_udp_frame f ->
  value (analyze_pcap.frame_packet packet_num pkt_header f) =
  Raise StructError.
Proof.
  intros (Hlen & Hv & Hp).
  destruct (ip_header_has_no_ports f Hlen) as (He & _).
  unfold analyze_pcap.frame_packet.
  rewrite Z.geb_leb, (proj2 (Z.leb_le _ _)) by lia.
  rewrite value_bind, value_slice.
  rewrite value_bind, (value_index (slice_of f 14 34) 0)
    by (rewrite len_slice_of; lia).
  change (Z.to_nat 0) with 0%nat.
  rewrite (byte_at_slice_of f 14 34 0) by lia.
  change (Z.to_nat 14 + 0)%nat with 14%nat.
  rewrite Hv. magic_tests.
  rewrite value_bind, (value_index (slice_of f 14 34) 9)
    by (rewrite len_slice_of; lia).
  change (Z.to_nat 9) with 9%nat.
  rewrite (byte_at_slice_of f 14 34 9) by lia.
  change (Z.to_nat 14 + 9)%nat with 23%nat.
  rewrite Hp. magic_tests.
  rewrite value_bind, value_slice, He.
  rewrite value_bind. reflexivity.
Qed.

(** The exception leaves the loop of [analyze_pcap]: when the next record
    of the file holds a UDP frame, the loop ends with [struct.error]
    whatever it has collected so far. *)
Lemma read_packets_raises
    (fuel : nat) (packets : list analyze_pcap.packet) (packet_num : Z)
    (hb frame rest : bytes) (out : list string) :
  len hb = 16 ->
  uint_le (firstn 4 (skipn 8 hb)) = len frame ->
  is_udp_frame frame ->
  fst (analyze_pcap.read_packets (S fuel) packets packet_num
         (FState (hb ++ frame ++ rest) out)) = Raise StructError.
Proof.
  intros Hhb Hincl Hf.
  cbn [analyze_pcap.read_packets].
  unfold fbind at 1. unfold analyze_pcap.read_packet_header.
  unfold fbind at 1. rewrite (fread_app hb _ out 16 Hhb).
  rewrite Hhb. magic_tests.
  unfold fbind at 1. unfold lift at 1. unfold unpack_lt_IIII.
  replace (Nat.eqb (List.length hb) 16) with true
    by (symmetry; apply Nat.eqb_eq; unfold len in Hhb; lia).
  cbn [value ret fst fret analyze_pcap.incl_len].
  unfold fbind at 1. rewrite (fread_app frame rest out _ (eq_sym Hincl)).
  rewrite Hincl, Z.ltb_irrefl.
  unfold fbind at 1. unfold lift at 1.
  rewrite frame_packet_raises by assumption. reflexivity.
Qed.

(** C3.  For every frame that passes the length, IPv4 and UDP-protocol
    checks of [analyze_pcap], the stage does not extract the ports: it
    reads them from [ip_header[20:22]], an empty slice of the 20-byte
    header, and [struct.unpack] raises [struct.error]; nothing catches it,
    so that the loop over the records of the file ends with this
    exception. *)
Theorem legacy_frame_stage_raises
    (packet_num : Z) (pkt_header : analyze_pcap.packet_header) (f : bytes) :
  is_udp_frame f ->
  value (analyze_pcap.frame_packet packet_num pkt_header f) =
  Raise StructError
  /\
  forall (fuel : nat) (packets : list analyze_pcap.packet)
         (hb rest : bytes) (out : list string),
    len hb = 16 ->
    uint_le (firstn 4 (skipn 8 hb)) = len f ->
    fst (analyze_pcap.read_packets (S fuel) packets packet_num
           (FState (hb ++ f ++ rest) out)) = Raise StructError.
Proof.
  intros Hf. split.
  - now apply frame_packet_raises.
  - intros fuel packets hb rest out Hhb Hincl.
    now apply read_packets_raises.
Qed.

Lemma legacy_frame_stage_raises_witness :
  is_udp_frame Samples.discovery_frame /\
  value (analyze_pcap.frame_packet 0
           (analyze_pcap.PacketHeader 1 2 46 46) Samples.discovery_frame) =
  Raise StructError.
Proof.
  assert (Hf : is_udp_frame Samples.discovery_frame).
  { repeat split; try reflexivity; vm_compute; discriminate. }
  split; [exact Hf|].
  apply (proj1 (legacy_frame_stage_raises 0
                  (analyze_pcap.PacketHeader 1 2 46 46)
                  Samples.discovery_frame Hf)).
Defined.

(* ================================================================== *)
(** ** Reading blocks                                                  *)
(* ================================================================== *)

Section Blocks.

(** A well-framed block at the current position: type, leading length,
    body of [length - 8] bytes, trailing length. *)
Lemma read_pcapng_block_framed
    (ty lb body tr rest : bytes) (out : list string) :
  len ty = 4 -> len lb = 4 -> 12 <= uint_le lb ->
  len body = uint_le lb - 8 -> len tr = 4 ->
  compare_pcaps.read_pcapng_block
    (FState (ty ++ lb ++ body ++ tr ++ rest) out) =
  (Ret (Some (uint_le ty, body)),
   FState rest
     (if uint_le tr =? uint_le lb then out
      else out ++ [block_length_warning (uint_le lb) (uint_le tr)])).
Proof.
  intros Hty Hlb HL Hbody Htr.
  unfold compare_pcaps.read_pcapng_block, fbind. cbv beta.
  rewrite (fread_app ty _ out 4 Hty). cbv beta iota.
  rewrite Hty. magic_tests.
  unfold lift at 1. unfold unpack_lt_I at 1.
  rewrite unpack_sized by (unfold len in Hty; lia). cbn [value ret fst].
  rewrite (fread_app lb _ out 4 Hlb). cbv beta iota.
  rewrite Hlb. magic_tests.
  unfold lift at 1. unfold unpack_lt_I at 1.
  rewrite unpack_sized by (unfold len in Hlb; lia). cbn [value ret fst].
  length_tests.
  rewrite (fread_app body _ out _ Hbody). cbv beta iota. length_tests.
  rewrite (fread_app tr _ out 4 Htr). cbv beta iota.
  rewrite Htr. magic_tests.
  unfold lift at 1. unfold unpack_lt_I at 1.
  rewrite unpack_sized by (unfold len in Htr; lia). cbn [value ret fst].
  destruct (uint_le tr =? uint_le lb); reflexivity.
Qed.

(** Whatever the file holds, [read_pcapng_block] does not raise; it returns
    [None], or a block after which at least sixteen bytes fewer remain. *)
Lemma read_pcapng_block_cases (st : fstate) :
  (exists st', compare_pcaps.read_pcapng_block st = (Ret None, st')) \/
  (exists ty body st',
     compare_pcaps.read_pcapng_block st = (Ret (Some (ty, body)), st') /\
     (List.length (pending st') + 16 <= List.length (pending st))%nat).
Proof.
  destruct st as [pend out].
  set (P := fun res : result (option (Z * bytes)) * fstate =>
    (exists st', res = (Ret None, st')) \/
    (exists ty body st',
       res = (Ret (Some (ty, body)), st') /\
       (List.length (pending st') + 16 <= List.length pend)%nat)).
  change (P (compare_pcaps.read_pcapng_block (FState pend out))).
  unfold compare_pcaps.read_pcapng_block, fbind. cbv beta.
  unfold fread at 1. cbn [pending stdout]. cbv beta iota.
  change (Z.to_nat 4) with 4%nat.
  destruct (len (firstn 4 pend) <? 4) eqn:E1.
  { subst P. left. eexists. reflexivity. }
  apply Z.ltb_ge in E1. unfold len in E1.
  pose proof (firstn_le_length 4 pend) as L1.
  unfold lift at 1. unfold unpack_lt_I at 1.
  rewrite unpack_sized by lia. cbn [value ret fst].
  unfold fread at 1. cbn [pending stdout]. cbv beta iota.
  change (Z.to_nat 4) with 4%nat.
  set (p1 := skipn 4 pend).
  destruct (len (firstn 4 p1) <? 4) eqn:E2.
  { subst P. left. eexists. reflexivity. }
  apply Z.ltb_ge in E2. unfold len in E2.
  pose proof (firstn_le_length 4 p1) as L2.
  unfold lift at 1. unfold unpack_lt_I at 1.
  rewrite unpack_sized by lia. cbn [value ret fst].
  set (L := uint_le (firstn 4 p1)).
  destruct (L <? 12) eqn:E3.
  { subst P. left. eexists. reflexivity. }
  apply Z.ltb_ge in E3.
  unfold fread at 1. cbn [pending stdout]. cbv beta iota.
  change (Z.to_nat 4) with 4%nat.
  set (p2 := skipn 4 p1).
  destruct (len (firstn (Z.to_nat (L - 8)) p2) <? L - 8) eqn:E4.
  { subst P. left. eexists. reflexivity. }
  apply Z.ltb_ge in E4. unfold len in E4.
  unfold fread at 1. cbn [pending stdout]. cbv beta iota.
  change (Z.to_nat 4) with 4%nat.
  set (p3 := skipn (Z.to_nat (L - 8)) p2).
  destruct (len (firstn 4 p3) <? 4) eqn:E5.
  { subst P. left. eexists. reflexivity. }
  apply Z.ltb_ge in E5. unfold len in E5.
  pose proof (firstn_le_length 4 p3) as L5.
  unfold lift at 1. unfold unpack_lt_I at 1.
  rewrite unpack_sized by lia. cbn [value ret fst].
  subst P. cbv beta. right.
  assert (Hlen : (List.length (skipn 4 p3) + 16 <= List.length pend)%nat).
  { rewrite length_firstn in E1, E2, E4, E5.
    subst p3 p2 p1. rewrite !length_skipn in *. lia. }
  destruct (negb (uint_le (firstn 4 p3) =? L));
    unfold print, fret; cbn [pending stdout];
    do 3 eexists; (split; [reflexivity|exact Hlen]).
Qed.

(** The decoders applied to a block never raise. *)
Lemma parse_enhanced_packet_block_total (b : bytes) :
  exists r, value (compare_pcaps.parse_enhanced_packet_block b) = Ret r.
Proof.
  unfold compare_pcaps.parse_enhanced_packet_block.
  destruct (len b <? 16) eqn:E; [now eexists|].
  apply Z.ltb_ge in E.
  rewrite (bind_slice_unpack_lt_I b 0) by (simpl; lia).
  unfold value at 1. cbn [fst]. cbv beta.
  rewrite (bind_slice_unpack_lt_I b 4) by (simpl; lia).
  unfold value at 1. cbn [fst]. cbv beta.
  rewrite (bind_slice_unpack_lt_I b 8) by (simpl; lia).
  unfold value at 1. cbn [fst]. cbv beta.
  rewrite (bind_slice_unpack_lt_I b 12) by (simpl; lia).
  unfold value at 1. cbn [fst]. cbv beta.
  rewrite value_bind, value_slice. now eexists.
Qed.

Lemma block_packet_total (packet_num block_type : Z) (block_body : bytes) :
  exists r,
    value (compare_pcaps.block_packet packet_num block_type block_body) =
    Ret r.
Proof.
  unfold compare_pcaps.block_packet.
  destruct (block_type =? 6); [|now eexists].
  destruct (parse_enhanced_packet_block_total block_body) as [e He].
  rewrite value_bind, He.
  destruct e as [e|]; [|now eexists].
  destruct (extract_udp_packet_total (compare_pcaps.packet_data e))
    as [u Hu].
  rewrite value_bind, Hu.
  destruct u as [u|]; [|now eexists].
  destruct (parse_bcudp_packet_total (compare_pcaps.payload u)) as [b Hb].
  rewrite value_bind, Hb.
  destruct b; now eexists.
Qed.

(** One iteration of the loop of [analyze_pcapng]. *)
Lemma read_blocks_step (fuel : nat) (packets : list compare_pcaps.packet)
    (packet_num : Z) (st : fstate) :
  compare_pcaps.read_blocks (S fuel) packets packet_num st =
  match compare_pcaps.read_pcapng_block st with
  | (Ret None, st') => (Ret (Some packets), st')
  | (Ret (Some (block_type, block_body)), st') =>
      match value (compare_pcaps.block_packet packet_num block_type
                     block_body) with
      | Ret p =>
          compare_pcaps.read_blocks fuel (appended packets p)
            (counted packet_num p) st'
      | Raise e => (Raise e, st')
      end
  | (Raise e, st') => (Raise e, st')
  end.
Proof.
  cbn [compare_pcaps.read_blocks]. unfold fbind at 1.
  destruct (compare_pcaps.read_pcapng_block st) as [[[[ty body]|]|e] st'];
    try reflexivity.
  unfold fbind, lift.
  destruct (value (compare_pcaps.block_packet packet_num ty body))
    as [[pkt|]|e]; reflexivity.
Qed.

(** The loop ends before its fuel does, and it does not raise. *)
Lemma read_blocks_enough (fuel : nat) :
  forall packets packet_num st,
    (List.length (pending st) < fuel)%nat ->
    exists r st',
      compare_pcaps.read_blocks fuel packets packet_num st =
      (Ret (Some r), st').
Proof.
  induction fuel as [|fuel IH]; intros packets packet_num st H; [lia|].
  rewrite read_blocks_step.
  destruct (read_pcapng_block_cases st)
    as [[st' E]|(ty & body & st' & E & Hdec)]; rewrite E.
  - now do 2 eexists.
  - destruct (block_packet_total packet_num ty body) as [p Hp].
    rewrite Hp. apply IH. lia.
Qed.

(** More fuel than the loop needs does not change its result. *)
Lemma read_blocks_fuel_irrelevant (fuel1 : nat) :
  forall fuel2 packets packet_num st,
    (List.length (pending st) < fuel1)%nat ->
    (List.length (pending st) < fuel2)%nat ->
    compare_pcaps.read_blocks fuel1 packets packet_num st =
    compare_pcaps.read_blocks fuel2 packets packet_num st.
Proof.
  induction fuel1 as [|fuel1 IH]; intros fuel2 packets packet_num st H1 H2;
    [lia|].
  destruct fuel2 as [|fuel2]; [lia|].
  rewrite !read_blocks_step.
  destruct (read_pcapng_block_cases st)
    as [[st' E]|(ty & body & st' & E & Hdec)]; rewrite E.
  - reflexivity.
  - destruct (block_packet_total packet_num ty body) as [p Hp].
    rewrite Hp. apply IH; lia.
Qed.

(** [analyze_pcapng] reads any file to its end: it does not raise and its
    fuel is never exhausted. *)
Lemma analyze_pcapng_total (filename : string) (st : fstate) :
  exists r st',
    compare_pcaps.analyze_pcapng filename st = (Ret (Some r), st').
Proof.
  unfold compare_pcaps.analyze_pcapng. cbv zeta. unfold fbind at 1.
  destruct (read_pcapng_block_cases st)
    as [[st' E]|(ty & body & st' & E & Hdec)]; rewrite E.
  - now do 2 eexists.
  - destruct (negb (ty =? 168627466)).
    + now do 2 eexists.
    + apply read_blocks_enough. lia.
Qed.

End Blocks.

Section Continuation.

(** At the end of the file, with fewer than four bytes left, the reader
    returns [None] and prints nothing. *)
Lemma read_pcapng_block_eof (pend : bytes) (out : list string) :
  len pend < 4 ->
  compare_pcaps.read_pcapng_block (FState pend out) =
  (Ret None, FState [] out).
Proof.
  intros H. unfold len in H.
  unfold compare_pcaps.read_pcapng_block, fbind. cbv beta.
  unfold fread at 1. cbn [pending stdout]. cbv beta iota.
  change (Z.to_nat 4) with 4%nat.
  pose proof (firstn_le_length 4 pend) as L.
  rewrite (proj2 (Z.ltb_lt (len (firstn 4 pend)) 4))
    by (unfold len; rewrite length_firstn; lia).
  unfold fret. now rewrite skipn_all2 by lia.
Qed.

Lemma read_blocks_eof (fuel : nat) (packets : list compare_pcaps.packet)
    (packet_num : Z) (pend : bytes) (out : list string) :
  len pend < 4 ->
  compare_pcaps.read_blocks (S fuel) packets packet_num (FState pend out) =
  (Ret (Some packets), FState [] out).
Proof.
  intros H. now rewrite read_blocks_step, read_pcapng_block_eof.
Qed.

(** One turn of the loop on a framed block, whatever its trailing length
    says. *)
Lemma read_blocks_framed (fuel : nat) (packets : list compare_pcaps.packet)
    (packet_num : Z) (ty lb body tr rest : bytes) (out : list string)
    (p : option compare_pcaps.packet) :
  len ty = 4 -> len lb = 4 -> 12 <= uint_le lb ->
  len body = uint_le lb - 8 -> len tr = 4 ->
  value (compare_pcaps.block_packet packet_num (uint_le ty) body) = Ret p ->
  compare_pcaps.read_blocks (S fuel) packets packet_num
    (FState (ty ++ lb ++ body ++ tr ++ rest) out) =
  compare_pcaps.read_blocks fuel (appended packets p) (counted packet_num p)
    (FState rest
       (if uint_le tr =? uint_le lb then out
        else out ++ [block_length_warning (uint_le lb) (uint_le tr)])).
Proof.
  intros Hty Hlb HL Hbody Htr Hp.
  now rewrite read_blocks_step, read_pcapng_block_framed, Hp.
Qed.

End Continuation.

(** C9.  For every block at the current position of a block-structured
    capture, whose leading length is [l >= 12] and which is followed by
    [l - 8] bytes of body and a four-byte trailing length: the body
    returned is these [l - 8] bytes, read with the leading length; when the
    trailing length differs from the leading one, a warning line is
    printed, nothing is raised, the block is returned all the same, and
    the loop of [analyze_pcapng] goes on with the rest of the file.  When
    the file ends there, the loop returns the packets collected, with the
    one of this block if it holds one; when another block follows, that
    block is read and decoded in its turn, and the packet it holds is in
    the result. *)
Theorem block_length_mismatch_nonfatal
    (ty lb body tr rest : bytes) (out : list string)
    (packets : list compare_pcaps.packet) (packet_num : Z) :
  len ty = 4 -> len lb = 4 -> 12 <= uint_le lb ->
  len body = uint_le lb - 8 -> len tr = 4 ->
  let st := FState (ty ++ lb ++ body ++ tr ++ rest) out in
  let out' :=
    if uint_le tr =? uint_le lb then out
    else out ++ [block_length_warning (uint_le lb) (uint_le tr)] in
  let st' := FState rest out' in
  compare_pcaps.read_pcapng_block st = (Ret (Some (uint_le ty, body)), st')
  /\
  exists p,
    value (compare_pcaps.block_packet packet_num (uint_le ty) body) = Ret p
    /\
    compare_pcaps.read_remaining packets packet_num st =
    compare_pcaps.read_remaining (appended packets p) (counted packet_num p)
      st'
    /\
    (len rest < 4 ->
     compare_pcaps.read_remaining packets packet_num st =
     (Ret (Some (appended packets p)), FState [] out'))
    /\
    (forall ty2 lb2 body2 tr2 rest2 : bytes,
       rest = ty2 ++ lb2 ++ body2 ++ tr2 ++ rest2 ->
       len ty2 = 4 -> len lb2 = 4 -> 12 <= uint_le lb2 ->
       len body2 = uint_le lb2 - 8 -> len tr2 = 4 -> len rest2 < 4 ->
       exists p2,
         value (compare_pcaps.block_packet (counted packet_num p)
                  (uint_le ty2) body2) = Ret p2 /\
         compare_pcaps.read_remaining packets packet_num st =
         (Ret (Some (appended (appended packets p) p2)),
          FState []
            (if uint_le tr2 =? uint_le lb2 then out'
             else out' ++ [block_length_warning (uint_le lb2)
                             (uint_le tr2)])))
    /\
    exists r st'',
      compare_pcaps.read_remaining packets packet_num st =
      (Ret (Some r), st'').
Proof.
  intros Hty Hlb HL Hbody Htr st out' st'.
  pose proof (read_pcapng_block_framed ty lb body tr rest out
                Hty Hlb HL Hbody Htr) as E.
  fold st out' st' in E. split; [exact E|].
  destruct (block_packet_total packet_num (uint_le ty) body) as [p Hp].
  exists p. split; [exact Hp|].
  assert (Hlong : (List.length rest
                   < List.length (ty ++ lb ++ body ++ tr ++ rest))%nat).
  { rewrite !length_app. unfold len in *. lia. }
  assert (Hstep : forall fuel,
    compare_pcaps.read_blocks (S fuel) packets packet_num st =
    compare_pcaps.read_blocks fuel (appended packets p)
      (counted packet_num p) st').
  { intros fuel. subst st st' out'.
    now apply read_blocks_framed. }
  split; [|split; [|split]].
  - unfold compare_pcaps.read_remaining at 1. rewrite Hstep.
    apply read_blocks_fuel_irrelevant.
    + subst st st'. cbn [pending]. exact Hlong.
    + lia.
  - intros Hend. unfold compare_pcaps.read_remaining. rewrite Hstep.
    rewrite (read_blocks_fuel_irrelevant _ (S (List.length rest)))
      by (subst st st'; cbn [pending]; (exact Hlong || lia)).
    subst st'. now apply read_blocks_eof.
  - intros ty2 lb2 body2 tr2 rest2 Hrest Hty2 Hlb2 HL2 Hbody2 Htr2 Hend.
    destruct (block_packet_total (counted packet_num p) (uint_le ty2) body2)
      as [p2 Hp2].
    exists p2. split; [exact Hp2|].
    unfold compare_pcaps.read_remaining. rewrite Hstep.
    rewrite (read_blocks_fuel_irrelevant _ (S (List.length rest)))
      by (subst st st'; cbn [pending]; (exact Hlong || lia)).
    subst st'. rewrite Hrest at 2.
    rewrite (read_blocks_framed _ _ _ ty2 lb2 body2 tr2 rest2 out' p2)
      by assumption.
    rewrite (read_blocks_fuel_irrelevant _ (S (List.length rest2)))
      by (cbn [pending]; first [lia|
          rewrite Hrest, !length_app; unfold len in *; lia]).
    now apply read_blocks_eof.
  - apply read_blocks_enough. lia.
Qed.

Lemma block_length_mismatch_nonfatal_witness :
  compare_pcaps.read_pcapng_block
    (FState ([x06; x00; x00; x00] ++ [x10; x00; x00; x00]
             ++ Samples.block_body ++ [x11; x00; x00; x00]
             ++ Samples.data_packet_block) []) =
  (Ret (Some (6, Samples.block_body)),
   FState Samples.data_packet_block
     ["Warning: block length mismatch: 16 != 17"%string])
  /\
  compare_pcaps.read_remaining [] 0
    (FState ([x06; x00; x00; x00] ++ [x10; x00; x00; x00]
             ++ Samples.block_body ++ [x11; x00; x00; x00]
             ++ Samples.data_packet_block) []) =
  (Ret (Some [Samples.captured_data 5 Samples.data_reversed]),
   FState [] ["Warning: block length mismatch: 16 != 17"%string]).
Proof.
  pose proof (block_length_mismatch_nonfatal
                [x06; x00; x00; x00] [x10; x00; x00; x00] Samples.block_body
                [x11; x00; x00; x00] Samples.data_packet_block [] [] 0
                eq_refl eq_refl ltac:(vm_compute; discriminate)
                eq_refl eq_refl) as H.
  cbv zeta in H.
  destruct H as (E & p & Hp & _ & _ & Hnext & _).
  split; [exact E|].
  assert (p = None) as -> by (vm_compute in Hp; now injection Hp).
  destruct (Hnext [x06; x00; x00; x00] [x56; x00; x00; x00]
              Samples.data_block_body [x56; x00; x00; x00] []
              eq_refl eq_refl eq_refl ltac:(vm_compute; discriminate)
              eq_refl eq_refl eq_refl) as (p2 & Hp2 & Hrun).
  assert (p2 = Some (Samples.captured_data 5 Samples.data_reversed)) as ->
    by (vm_compute in Hp2; injection Hp2 as <-; reflexivity).
  exact Hrun.
Defined.

(* ================================================================== *)
(** ** Malformed hex strings                                           *)
(* ================================================================== *)

Section Hex.

Variable hex_str : string.
Variable e : exn.
Hypothesis malformed :
  fromhex_result (remove_char " " (remove_char ":" hex_str)) = Raise e.

Lemma analyze_json_hex_to_bytes_malformed :
  analyze_json.hex_to_bytes hex_str = (Ret [], []).
Proof.
  unfold analyze_json.hex_to_bytes, fromhex, try_except.
  rewrite malformed. reflexivity.
Qed.

Lemma stream_hex_to_bytes_malformed :
  compare_stream_flow.hex_to_bytes hex_str = (Ret [], []).
Proof.
  unfold compare_stream_flow.hex_to_bytes, fromhex, try_except.
  rewrite malformed. reflexivity.
Qed.

Lemma analyze_json_parse_malformed :
  analyze_json.parse_bcudp_packet hex_str = (Ret None, []).
Proof.
  unfold analyze_json.parse_bcudp_packet.
  rewrite analyze_json_hex_to_bytes_malformed. reflexivity.
Qed.

Variable entry : Json.entry.
Variable udp : Json.udp_layer.
Hypothesis has_udp : Json.udp entry = Some udp.
Hypothesis has_payload : Json.udp_payload udp = hex_str.

Lemma stream_extract_entry_malformed :
  compare_stream_flow.extract_entry entry = (Ret None, []).
Proof.
  unfold compare_stream_flow.extract_entry.
  rewrite has_udp, has_payload.
  destruct (String.eqb hex_str ""); [reflexivity|].
  rewrite stream_hex_to_bytes_malformed. reflexivity.
Qed.

Lemma analyze_json_extract_entry_malformed :
  analyze_json.extract_entry entry = (Ret None, []).
Proof.
  unfold analyze_json.extract_entry.
  rewrite has_udp, has_payload.
  destruct (String.eqb hex_str ""); [reflexivity|].
  rewrite analyze_json_parse_malformed. reflexivity.
Qed.

Lemma stream_extract_skips (rest : list Json.entry) :
  value (compare_stream_flow.extract_stream_packets (entry :: rest)) =
  value (compare_stream_flow.extract_stream_packets rest).
Proof.
  cbn [compare_stream_flow.extract_stream_packets].
  rewrite stream_extract_entry_malformed.
  rewrite value_bind. unfold value at 1. cbn [fst].
  rewrite value_bind.
  destruct (value (compare_stream_flow.extract_stream_packets rest));
    reflexivity.
Qed.

Lemma analyze_json_extract_skips (rest : list Json.entry) :
  value (analyze_json.extract_packets (entry :: rest)) =
  value (analyze_json.extract_packets rest).
Proof.
  cbn [analyze_json.extract_packets].
  rewrite analyze_json_extract_entry_malformed.
  rewrite value_bind. unfold value at 1. cbn [fst].
  rewrite value_bind.
  destruct (value (analyze_json.extract_packets rest)); reflexivity.
Qed.

End Hex.

(** C10.  For every payload string that [bytes.fromhex] refuses once the
    [':'] and [' '] characters are removed, [hex_to_bytes] returns the empty
    byte string and does not raise; the decoder of analyze_json.py then
    returns [None], and the record is skipped by the length test of
    [extract_stream_packets]: it adds no packet to the result of either
    script and raises nothing. *)
Theorem malformed_hex_is_skipped (hex_str : string) (e : exn) :
  fromhex_result (remove_char " " (remove_char ":" hex_str)) = Raise e ->
  value (analyze_json.hex_to_bytes hex_str) = Ret [] /\
  value (compare_stream_flow.hex_to_bytes hex_str) = Ret [] /\
  value (analyze_json.parse_bcudp_packet hex_str) = Ret None /\
  forall (entry : Json.entry) (udp : Json.udp_layer),
    Json.udp entry = Some udp -> Json.udp_payload udp = hex_str ->
    value (compare_stream_flow.extract_entry entry) = Ret None /\
    value (analyze_json.extract_entry entry) = Ret None /\
    forall rest : list Json.entry,
      value (compare_stream_flow.extract_stream_packets (entry :: rest)) =
      value (compare_stream_flow.extract_stream_packets rest) /\
      value (analyze_json.extract_packets (entry :: rest)) =
      value (analyze_json.extract_packets rest).
Proof.
  intros H.
  rewrite (analyze_json_hex_to_bytes_malformed hex_str e H).
  rewrite (stream_hex_to_bytes_malformed hex_str e H).
  rewrite (analyze_json_parse_malformed hex_str e H).
  repeat split.
  - now rewrite (stream_extract_entry_malformed hex_str e H entry udp).
  - now rewrite (analyze_json_extract_entry_malformed hex_str e H entry udp).
  - now apply (stream_extract_skips hex_str e H entry udp).
  - now apply (analyze_json_extract_skips hex_str e H entry udp).
Qed.

Lemma malformed_hex_is_skipped_witness :
  value (compare_stream_flow.hex_to_bytes Samples.malformed_hex) = Ret [] /\
  value (compare_stream_flow.extract_entry Samples.malformed_entry) =
  Ret None /\
  value (analyze_json.extract_entry Samples.malformed_entry) = Ret None.
Proof.
  destruct (malformed_hex_is_skipped Samples.malformed_hex ValueError
              eq_refl) as (_ & H1 & _ & H2).
  destruct (H2 Samples.malformed_entry
              (Json.UdpLayer 8080 9000 Samples.malformed_hex)
              eq_refl eq_refl) as (H3 & H4 & _).
  repeat split; assumption.
Defined.

(* ================================================================== *)
(** ** Sorting and gaps                                                *)
(* ================================================================== *)

Section Sorting.





(** Two insertions commute. *)
Lemma insert_sorted_comm (x y : Z) (l : list Z) :
  insert_sorted x (insert_sorted y l) = insert_sorted y (insert_sorted x l).
Proof.
  induction l as [|z t IH]; cbn [insert_sorted].
  - destruct (x <=? y) eqn:E1, (y <=? x) eqn:E2;
      try apply Z.leb_le in E1; try apply Z.leb_le in E2;
      try apply Z.leb_gt in E1; try apply Z.leb_gt in E2;
      try reflexivity; try lia.
    replace y with x by lia. reflexivity.
  - destruct (y <=? z) eqn:Eyz, (x <=? z) eqn:Exz;
      cbn [insert_sorted]; rewrite ?Eyz, ?Exz;
      destruct (x <=? y) eqn:Exy, (y <=? x) eqn:Eyx;
      try apply Z.leb_le in Eyz; try apply Z.leb_le in Exz;
      try apply Z.leb_le in Exy; try apply Z.leb_le in Eyx;
      try apply Z.leb_gt in Eyz; try apply Z.leb_gt in Exz;
      try apply Z.leb_gt in Exy; try apply Z.leb_gt in Eyx;
      try lia; try reflexivity.
    + replace y with x by lia. reflexivity.
    + now rewrite IH.
    + now rewrite IH.
    + now rewrite IH.
Qed.

(** The result of [sorted] does not depend on the order of its input. *)
Lemma sorted_of_permutation (l l' : list Z) :
  Permutation l l' -> sorted l = sorted l'.
Proof.
  induction 1 as [|x l l' _ IH|x y l|l l' l'' _ IH1 _ IH2];
    cbn [sorted].
  - reflexivity.
  - now rewrite IH.
  - apply insert_sorted_comm.
  - now rewrite IH1.
Qed.

(** A list that is already ascending is what [sorted] returns for any of
    its rearrangements: [sorted] computes the one ascending rearrangement. *)
Lemma sorted_unique (l l' : list Z) :
  StronglySorted Z.le l -> Permutation l l' -> sorted l' = l.
Proof.
  intros Hs Hp. rewrite <- (sorted_of_permutation l l' Hp).
  clear l' Hp. induction Hs as [|x t Ht IH Hx]; [reflexivity|].
  cbn [sorted]. rewrite IH.
  destruct t as [|y t']; [reflexivity|].
  cbn [insert_sorted].
  replace (x <=? y) with true; [reflexivity|].
  symmetry. apply Z.leb_le. now inversion Hx.
Qed.


End Sorting.

Section Gaps.










End Gaps.

(* ================================================================== *)
(** ** The report of analyze_stream_flow                               *)
(* ================================================================== *)

(** The camera part of the report of [analyze_stream_flow]. *)
Lemma analyze_stream_flow_camera
    (packets : list compare_stream_flow.packet)
    (first : compare_stream_flow.packet)
    (rest : list compare_stream_flow.packet) :
  filter compare_stream_flow.from_camera
    (filter compare_stream_flow.is_data packets) = first :: rest ->
  let camera_data := first :: rest in
  let gaps :=
    compare_stream_flow.find_gaps
      (sorted (map compare_stream_flow.packet_id camera_data)) in
  let duration := compare_stream_flow.duration_of first camera_data in
  compare_stream_flow.camera (compare_stream_flow.analyze_stream_flow packets)
  = Some (compare_stream_flow.CameraReport first
            (last camera_data first) duration gaps
            (compare_stream_flow.missing_lines gaps)
            (if len camera_data >? 1 then
               Some (compare_stream_flow.rate_of camera_data duration)
             else None)).
Proof.
  intros H. unfold compare_stream_flow.analyze_stream_flow.
  destruct (filter compare_stream_flow.is_data packets) as [|d ds] eqn:E;
    [discriminate H|].
  cbn [compare_stream_flow.camera]. rewrite H. reflexivity.
Qed.

(** How the gaps are displayed: the lines that name the missing
    sub-ranges stop after the tenth.  For the ids [0, 2, ..., 22] the list
    of gaps holds all eleven, the count printed is eleven, and ten lines
    follow. *)
Lemma eleventh_gap_not_listed :
  exists r,
    compare_stream_flow.camera
      (compare_stream_flow.analyze_stream_flow Samples.even_packets) = Some r /\
    List.length (compare_stream_flow.cam_gaps r) = 11%nat /\
    In (20, 22, 2) (compare_stream_flow.cam_gaps r) /\
    List.length (compare_stream_flow.cam_missing r) = 10%nat /\
    ~ In (21, 21, 1) (compare_stream_flow.cam_missing r).
Proof.
  eexists. split; [reflexivity|].
  cbn [compare_stream_flow.cam_gaps compare_stream_flow.cam_missing].
  repeat split.
  - vm_compute. tauto.
  - vm_compute. intros H.
    repeat (destruct H as [H|H]; [discriminate H|]). exact H.
Qed.



(** The client part of the report of [analyze_stream_flow]. *)
Lemma analyze_stream_flow_client
    (packets : list compare_stream_flow.packet)
    (first : compare_stream_flow.packet)
    (rest : list compare_stream_flow.packet) :
  filter compare_stream_flow.is_data packets <> [] ->
  filter (fun p => negb (compare_stream_flow.from_camera p))
    (filter compare_stream_flow.is_ack packets) = first :: rest ->
  let client_ack := first :: rest in
  compare_stream_flow.client (compare_stream_flow.analyze_stream_flow packets)
  = Some (compare_stream_flow.AckReport (len client_ack)
            (if len client_ack >? 1 then
               Some (compare_stream_flow.rate_of client_ack
                       (compare_stream_flow.duration_of first client_ack))
             else None)).
Proof.
  intros Hd H. unfold compare_stream_flow.analyze_stream_flow.
  destruct (filter compare_stream_flow.is_data packets) as [|d ds] eqn:E;
    [contradiction|].
  cbn [compare_stream_flow.client]. rewrite H. reflexivity.
Qed.

(** The rate line of a group of [first :: rest]. *)
Lemma rate_line_cases
    (first : compare_stream_flow.packet)
    (rest : list compare_stream_flow.packet) :
  let l := first :: rest in
  let d := compare_stream_flow.duration_of first l in
  let line :=
    if len l >? 1 then Some (compare_stream_flow.rate_of l d) else None in
  (rest = [] -> line = None) /\
  (rest <> [] -> (0 <? d)%float = true ->
   line = Some (float_of_int (len l) / d)%float) /\
  (rest <> [] -> (0 <? d)%float = false -> line = Some 0%float).
Proof.
  intros l d line. subst line.
  destruct rest as [|p t].
  - repeat split; intros; try congruence; reflexivity.
  - assert (E : (len l >? 1) = true).
    { apply Z.gtb_lt. subst l. unfold len. cbn [List.length]. lia. }
    rewrite E. unfold compare_stream_flow.rate_of.
    repeat split; try discriminate; intros _ Hd; now rewrite Hd.
Qed.

(** C6 as stated fails for a group of one packet: [analyze_stream_flow]
    reports no rate for it, where the claim gives the rate 0.  It fails
    too for the ACK packets of a capture without Data packet: the
    function returns before it looks at them, and reports no rate for two
    ACK packets one second apart. *)
Lemma single_packet_has_no_rate :
  option_map compare_stream_flow.cam_rate
    (compare_stream_flow.camera
       (compare_stream_flow.analyze_stream_flow Samples.one_packet))
  = Some None
  /\
  option_map compare_stream_flow.cam_rate
    (compare_stream_flow.camera
       (compare_stream_flow.analyze_stream_flow Samples.one_packet))
  <> Some (Some 0%float)
  /\
  filter (fun p => negb (compare_stream_flow.from_camera p))
    (filter compare_stream_flow.is_ack Samples.client_acks) =
  Samples.client_acks
  /\
  compare_stream_flow.client
    (compare_stream_flow.analyze_stream_flow Samples.client_acks) = None.
Proof. repeat split; try reflexivity. discriminate. Qed.

(** C6, amended.  [analyze_stream_flow] reports a rate for two groups:
    the Data packets from the camera, and the ACK packets from the
    client, the latter only when the capture holds a Data packet, since
    the function returns early when it holds none.  For such a group of
    two packets or more, the rate equals the count divided by the
    duration (last timestamp minus first) when the duration is positive,
    and is 0 otherwise; for a group of a single packet no rate is
    reported.  Ten Data packets that span 2.0 seconds give the rate
    5.0. *)
Theorem packet_rate_report (packets : list compare_stream_flow.packet) :
  (forall first rest,
     filter compare_stream_flow.from_camera
       (filter compare_stream_flow.is_data packets) = first :: rest ->
     let l := first :: rest in
     let d := (compare_stream_flow.time (last l first)
               - compare_stream_flow.time first)%float in
     exists r,
       compare_stream_flow.camera
         (compare_stream_flow.analyze_stream_flow packets) = Some r /\
       compare_stream_flow.cam_duration r = d /\
       (rest = [] -> compare_stream_flow.cam_rate r = None) /\
       (rest <> [] -> (0 <? d)%float = true ->
        compare_stream_flow.cam_rate r =
        Some (float_of_int (len l) / d)%float) /\
       (rest <> [] -> (0 <? d)%float = false ->
        compare_stream_flow.cam_rate r = Some 0%float))
  /\
  (forall first rest,
     filter (fun p => negb (compare_stream_flow.from_camera p))
       (filter compare_stream_flow.is_ack packets) = first :: rest ->
     let l := first :: rest in
     let d := (compare_stream_flow.time (last l first)
               - compare_stream_flow.time first)%float in
     (filter compare_stream_flow.is_data packets = [] ->
      compare_stream_flow.client
        (compare_stream_flow.analyze_stream_flow packets) = None)
     /\
     (filter compare_stream_flow.is_data packets <> [] ->
      exists a,
        compare_stream_flow.client
          (compare_stream_flow.analyze_stream_flow packets) = Some a /\
        (rest = [] -> compare_stream_flow.ack_rate a = None) /\
        (rest <> [] -> (0 <? d)%float = true ->
         compare_stream_flow.ack_rate a =
         Some (float_of_int (len l) / d)%float) /\
        (rest <> [] -> (0 <? d)%float = false ->
         compare_stream_flow.ack_rate a = Some 0%float))).
Proof.
  split.
  - intros first rest H l d.
    pose proof (analyze_stream_flow_camera packets first rest H) as Hr.
    cbv zeta in Hr. eexists. split; [exact Hr|].
    cbn [compare_stream_flow.cam_duration compare_stream_flow.cam_rate].
    split; [reflexivity|]. apply (rate_line_cases first rest).
  - intros first rest H l d. split.
    + intros Hd. unfold compare_stream_flow.analyze_stream_flow.
      cbv zeta. rewrite Hd. reflexivity.
    + intros Hd.
      pose proof (analyze_stream_flow_client packets first rest Hd H) as Hr.
      cbv zeta in Hr. eexists. split; [exact Hr|].
      cbn [compare_stream_flow.ack_rate].
      apply (rate_line_cases first rest).
Qed.

Lemma packet_rate_report_witness :
  (exists r,
     compare_stream_flow.camera
       (compare_stream_flow.analyze_stream_flow Samples.ten_packets) = Some r /\
     compare_stream_flow.cam_duration r = 2%float /\
     compare_stream_flow.cam_rate r = Some 5%float)
  /\
  (exists a,
     compare_stream_flow.client
       (compare_stream_flow.analyze_stream_flow
          (Samples.ten_packets ++ Samples.client_acks)) = Some a /\
     compare_stream_flow.ack_rate a = Some 2%float)
  /\
  compare_stream_flow.client
    (compare_stream_flow.analyze_stream_flow Samples.client_acks) = None.
Proof.
  split; [|split].
  - destruct (proj1 (packet_rate_report Samples.ten_packets)
                (Samples.data_from_camera 1 0) (tl Samples.ten_packets)
                eq_refl)
      as (r & Hr & Hd & _ & Hpos & _).
    exists r. split; [exact Hr|]. split; [exact Hd|].
    apply Hpos; [discriminate|reflexivity].
  - destruct (proj2 (packet_rate_report
                       (Samples.ten_packets ++ Samples.client_acks))
                (hd (Samples.data_from_camera 0 0) Samples.client_acks)
                (tl Samples.client_acks) eq_refl)
      as (_ & Hsome).
    destruct (Hsome ltac:(discriminate)) as (a & Ha & _ & Hpos & _).
    exists a. split; [exact Ha|].
    apply Hpos; [discriminate|reflexivity].
  - apply (proj2 (packet_rate_report Samples.client_acks)
             (hd (Samples.data_from_camera 0 0) Samples.client_acks)
             (tl Samples.client_acks) eq_refl).
    reflexivity.
Defined.

(* ================================================================== *)
(** ** The comparison of two streams                                   *)
(* ================================================================== *)

(** C7.  For every pair of packet lists in which both captures hold Data
    packets from the camera, so that both rates are computed (count over
    duration when the duration is positive, 0 otherwise), [compare_streams]
    raises the rate warning exactly when the rate of the second capture is
    strictly less than the rate of the first multiplied by 0.5; when one
    of the two captures holds no such packet, no rate is compared. *)
Theorem rate_anomaly_flag (nl_packets sc_packets : list compare_stream_flow.packet) :
  let camera_data :=
    filter (fun p => compare_stream_flow.is_data p
                     && compare_stream_flow.from_camera p) in
  (forall a0 a b0 b,
     camera_data nl_packets = a0 :: a ->
     camera_data sc_packets = b0 :: b ->
     exists r,
       compare_stream_flow.rates
         (compare_stream_flow.compare_streams nl_packets sc_packets) = Some r /\
       compare_stream_flow.nl_rate r =
         compare_stream_flow.rate_of (a0 :: a)
           (compare_stream_flow.time (last (a0 :: a) a0)
            - compare_stream_flow.time a0)%float /\
       compare_stream_flow.sc_rate r =
         compare_stream_flow.rate_of (b0 :: b)
           (compare_stream_flow.time (last (b0 :: b) b0)
            - compare_stream_flow.time b0)%float /\
       (compare_stream_flow.much_lower r = true <->
        (compare_stream_flow.sc_rate r
         <? compare_stream_flow.nl_rate r * 0.5)%float = true))
  /\
  (camera_data nl_packets = [] \/ camera_data sc_packets = [] ->
   compare_stream_flow.rates
     (compare_stream_flow.compare_streams nl_packets sc_packets) = None).
Proof.
  intros camera_data. split.
  - intros a0 a b0 b Ha Hb. unfold compare_stream_flow.compare_streams.
    fold camera_data. cbn [compare_stream_flow.rates].
    rewrite Ha, Hb. eexists. split; [reflexivity|].
    cbn [compare_stream_flow.nl_rate compare_stream_flow.sc_rate
         compare_stream_flow.much_lower].
    repeat split; auto.
  - intros H. unfold compare_stream_flow.compare_streams.
    fold camera_data. cbn [compare_stream_flow.rates].
    destruct H as [H|H]; rewrite H; [reflexivity|].
    destruct (camera_data nl_packets); reflexivity.
Qed.

Lemma rate_anomaly_flag_witness :
  exists r,
    compare_stream_flow.rates
      (compare_stream_flow.compare_streams
         (Samples.fifty_packets 2) (Samples.fifty_packets 5)) = Some r /\
    compare_stream_flow.nl_rate r = 25%float /\
    compare_stream_flow.sc_rate r = 10%float /\
    compare_stream_flow.much_lower r = true.
Proof.
  destruct (proj1 (rate_anomaly_flag
                     (Samples.fifty_packets 2) (Samples.fifty_packets 5))
              (Samples.data_from_camera 0 100) (tl (Samples.fifty_packets 2))
              (Samples.data_from_camera 0 100) (tl (Samples.fifty_packets 5))
              eq_refl eq_refl)
    as (r & Hr & Hn & Hs & Hf).
  exists r. split; [exact Hr|]. split; [exact Hn|]. split; [exact Hs|].
  apply Hf. rewrite Hn, Hs. reflexivity.
Defined.

(** The scenario of two captures with the same fifty ids, at 25 and at 10
    packets per second: the same count, and the rate warning. *)
Lemma same_ids_lower_rate :
  let c := compare_stream_flow.compare_streams
             (Samples.fifty_packets 2) (Samples.fifty_packets 5) in
  compare_stream_flow.data_counts c = (50, 50) /\
  compare_stream_flow.data_ratio c = 100%float /\
  option_map compare_stream_flow.much_lower (compare_stream_flow.rates c) =
  Some true.
Proof. vm_compute. repeat split. Qed.

(* ================================================================== *)
(** ** The two decoding paths                                          *)
(* ================================================================== *)

Section Paths.

(** Rendering bytes as hex digits and reading them back. *)
Lemma fromhex_hex_cons (b : byte) (t : bytes) :
  fromhex_result (hex (b :: t)) =
  match fromhex_result (hex t) with
  | Ret bs => Ret (b :: bs)
  | Raise e => Raise e
  end.
Proof. destruct b; reflexivity. Qed.

Lemma fromhex_hex (p : bytes) : fromhex_result (hex p) = Ret p.
Proof.
  induction p as [|b t IH]; [reflexivity|].
  now rewrite fromhex_hex_cons, IH.
Qed.

Lemma remove_colon_hex (p : bytes) : remove_char ":" (hex p) = hex p.
Proof.
  induction p as [|b t IH]; [reflexivity|].
  cbn [hex remove_char]. rewrite IH. destruct b; reflexivity.
Qed.

Lemma remove_space_hex (p : bytes) : remove_char " " (hex p) = hex p.
Proof.
  induction p as [|b t IH]; [reflexivity|].
  cbn [hex remove_char]. rewrite IH. destruct b; reflexivity.
Qed.

Lemma hex_to_bytes_hex (p : bytes) :
  analyze_json.hex_to_bytes (hex p) = (Ret p, []).
Proof.
  unfold analyze_json.hex_to_bytes, fromhex, try_except.
  now rewrite remove_colon_hex, remove_space_hex, fromhex_hex.
Qed.

Lemma value_unpack_gt_I_magic (p : bytes) :
  4 <= len p ->
  value (unpack_gt_I (slice_of p 0 4)) = Ret (u32_be_at p 0).
Proof.
  intros H. unfold unpack_gt_I.
  rewrite unpack_sized by (rewrite length_slice_of; lia).
  change (slice_of p 0 4) with (slice_of p (Z.of_nat 0) (Z.of_nat 0 + 4)).
  now rewrite uint_be_slice.
Qed.

(** The binary path is the decoder of the design, with the magic field read
    least significant byte first. *)
Lemma binary_path_decodes (p : bytes) :
  result_map (option_map view_binary)
    (value (compare_pcaps.parse_bcudp_packet p)) =
  Ret (decode (u32_le_at p 0) p).
Proof.
  unfold decode. cbn [min_len magic_of].
  destruct (Z.lt_ge_cases (len p) 4) as [H4|H4].
  { rewrite parse_bcudp_packet_tiny by assumption.
    length_tests. reflexivity. }
  length_tests.
  destruct (Z.eq_dec (u32_le_at p 0) compare_pcaps.BCUDP_MAGIC_DISCOVERY)
    as [Hd|Hd].
  { rewrite parse_bcudp_packet_discovery by assumption.
    rewrite Hd. reflexivity. }
  destruct (Z.eq_dec (u32_le_at p 0) compare_pcaps.BCUDP_MAGIC_DATA)
    as [Ha|Ha].
  { rewrite Ha. magic_tests.
    destruct (Z.lt_ge_cases (len p) 20) as [H20|H20].
    - rewrite (parse_bcudp_packet_short VData) by assumption.
      length_tests. reflexivity.
    - rewrite parse_bcudp_packet_data by assumption.
      length_tests. reflexivity. }
  destruct (Z.eq_dec (u32_le_at p 0) compare_pcaps.BCUDP_MAGIC_ACK)
    as [Hk|Hk].
  { rewrite Hk. magic_tests.
    destruct (Z.lt_ge_cases (len p) 28) as [H28|H28].
    - rewrite (parse_bcudp_packet_short VAck) by assumption.
      length_tests. reflexivity.
    - rewrite parse_bcudp_packet_ack by assumption.
      length_tests. reflexivity. }
  rewrite parse_bcudp_packet_other by assumption.
  apply Z.eqb_neq in Hd, Ha, Hk.
  unfold compare_pcaps.BCUDP_MAGIC_DISCOVERY, compare_pcaps.BCUDP_MAGIC_DATA,
    compare_pcaps.BCUDP_MAGIC_ACK in *.
  rewrite Hd, Ha, Hk. reflexivity.
Qed.

(** The hex-string path is the same decoder, with the magic field read
    most significant byte first. *)
Lemma hex_path_decodes (p : bytes) :
  result_map (option_map view_json)
    (value (analyze_json.parse_bcudp_packet (hex p))) =
  Ret (decode (u32_be_at p 0) p).
Proof.
  unfold decode, analyze_json.parse_bcudp_packet. cbn [min_len magic_of].
  rewrite value_try_except, value_bind, hex_to_bytes_hex.
  unfold value at 1. cbn [fst].
  destruct (len p <? 4) eqn:E4; [reflexivity|]. apply Z.ltb_ge in E4.
  rewrite value_bind, value_slice, value_bind, value_unpack_gt_I_magic
    by assumption.
  unfold analyze_json.BCUDP_MAGIC_DISCOVERY, analyze_json.BCUDP_MAGIC_DATA,
    analyze_json.BCUDP_MAGIC_ACK.
  destruct (u32_be_at p 0 =? 0x3acf872a); [reflexivity|].
  destruct (u32_be_at p 0 =? 0x10cf872a).
  { destruct (len p <? 20) eqn:E20; [reflexivity|]. apply Z.ltb_ge in E20.
    rewrite !value_bind, !value_slice. cbv beta iota zeta.
    rewrite !value_bind, !value_slice. cbv beta iota zeta.
    rewrite !value_bind, !value_slice. cbv beta iota zeta.
    from_bytes_fields p. reflexivity. }
  destruct (u32_be_at p 0 =? 0x20cf872a); [|reflexivity].
  destruct (len p <? 28) eqn:E28; [reflexivity|]. apply Z.ltb_ge in E28.
  rewrite !value_bind, !value_slice. cbv beta iota zeta.
  rewrite !value_bind, !value_slice. cbv beta iota zeta.
  rewrite !value_bind, !value_slice. cbv beta iota zeta.
  from_bytes_fields p. reflexivity.
Qed.

(** No payload is decoded by both readings of the magic field: the three
    constants read backwards are none of the three constants. *)
Lemma decode_one_order_only (p : bytes) :
  decode (u32_le_at p 0) p <> None -> decode (u32_be_at p 0) p = None.
Proof.
  unfold decode. cbn [min_len magic_of].
  destruct (len p <? 4); [congruence|].
  assert (H : forall m,
            (m = 0x3acf872a \/ m = 0x10cf872a \/ m = 0x20cf872a) ->
            u32_le_at p 0 = m ->
            u32_be_at p 0 <> 0x3acf872a /\ u32_be_at p 0 <> 0x10cf872a /\
            u32_be_at p 0 <> 0x20cf872a).
  { intros m Hm. unfold u32_le_at, u32_be_at, byte_at.
    cbn [Nat.add].
    pose proof (byte_val_range (nth 0 p x00)).
    pose proof (byte_val_range (nth 1 p x00)).
    pose proof (byte_val_range (nth 2 p x00)).
    pose proof (byte_val_range (nth 3 p x00)).
    pow2. lia. }
  intros Hle.
  destruct (u32_le_at p 0 =? 0x3acf872a) eqn:E1.
  { apply Z.eqb_eq in E1. destruct (H _ (or_introl eq_refl) E1) as (A & B & C).
    apply Z.eqb_neq in A, B, C. now rewrite A, B, C. }
  destruct (u32_le_at p 0 =? 0x10cf872a) eqn:E2.
  { apply Z.eqb_eq in E2.
    destruct (H _ (or_intror (or_introl eq_refl)) E2) as (A & B & C).
    apply Z.eqb_neq in A, B, C. now rewrite A, B, C. }
  destruct (u32_le_at p 0 =? 0x20cf872a) eqn:E3; [|congruence].
  apply Z.eqb_eq in E3.
  destruct (H _ (or_intror (or_intror eq_refl)) E3) as (A & B & C).
  apply Z.eqb_neq in A, B, C. now rewrite A, B, C.
Qed.

(** Whenever the binary path decodes a payload, the hex-string path returns
    [None] for the same bytes. *)
Lemma paths_never_both_decode (p : bytes) (b : compare_pcaps.bcudp) :
  value (compare_pcaps.parse_bcudp_packet p) = Ret (Some b) ->
  value (analyze_json.parse_bcudp_packet (hex p)) = Ret None.
Proof.
  intros Hb.
  pose proof (binary_path_decodes p) as B. rewrite Hb in B.
  cbn [result_map option_map] in B.
  pose proof (hex_path_decodes p) as J.
  rewrite decode_one_order_only in J by (injection B as <-; discriminate).
  destruct (value (analyze_json.parse_bcudp_packet (hex p))) as [[j|]|e];
    cbn [result_map option_map] in J; congruence.
Qed.

End Paths.

(** C1.  The two decoding paths on the same twenty bytes, a Data header
    with the magic bytes in wire order [10 cf 87 2a]: [hex_to_bytes] turns
    the exported string into these bytes, [parse_bcudp_packet] of
    analyze_json.py decodes them as a Data packet, and
    [parse_bcudp_packet] of compare_pcaps.py returns [None] for them. *)
Theorem hex_and_binary_paths_differ :
  value (analyze_json.hex_to_bytes Samples.data_wire_hex) =
  Ret Samples.data_wire
  /\
  value (analyze_json.parse_bcudp_packet Samples.data_wire_hex) =
  Ret (Some (analyze_json.Data 0x10cf872a (-2147483647) 5 7
               Samples.data_wire_hex))
  /\
  value (compare_pcaps.parse_bcudp_packet Samples.data_wire) = Ret None.
Proof. repeat split; vm_compute; reflexivity. Qed.

(* ================================================================== *)
(** ** Packet blocks                                                   *)
(* ================================================================== *)

(** A high word shifted by 32 and or-ed with a low word is their sum. *)
Lemma lor_shiftl_32 (hi lo : Z) :
  0 <= lo < 2 ^ 32 -> Z.lor (Z.shiftl hi 32) lo = hi * 2 ^ 32 + lo.
Proof.
  intros Hlo. rewrite Z.shiftl_mul_pow2 by lia.
  assert (Hland : Z.land (hi * 2 ^ 32) lo = 0).
  { apply Z.bits_inj'. intros n Hn.
    rewrite Z.land_spec, Z.bits_0.
    destruct (Z.lt_ge_cases n 32) as [Hlt|Hge].
    - rewrite Z.mul_pow2_bits_low by assumption. reflexivity.
    - destruct (Z.eq_dec lo 0) as [->|Hnz].
      + rewrite Z.bits_0. apply andb_false_r.
      + rewrite (Z.bits_above_log2 lo n); [apply andb_false_r|lia|].
        apply Z.lt_le_trans with 32; [|assumption].
        apply Z.log2_lt_pow2; lia. }
  rewrite <- Z.lxor_lor by assumption.
  symmetry. now apply Z.add_nocarry_lxor.
Qed.

(** X1.  [parse_enhanced_packet_block] returns [None] for a body of fewer
    than 16 bytes and never raises; for a longer body it returns the
    interface id read at offset 0, the timestamp
    [timestamp_high * 2^32 + timestamp_low] from the words at offsets 4 and
    8, and as packet data the bytes after offset 16, at most
    [captured_len] of them, fewer when the body ends sooner. *)
Theorem enhanced_packet_block_fields (b : bytes) :
  (len b < 16 ->
   value (compare_pcaps.parse_enhanced_packet_block b) = Ret None)
  /\
  (16 <= len b ->
   value (compare_pcaps.parse_enhanced_packet_block b) =
   Ret (Some (compare_pcaps.Epb
                (u32_le_at b 0)
                (u32_le_at b 4 * 2 ^ 32 + u32_le_at b 8)
                (firstn (Z.to_nat (u32_le_at b 12)) (skipn 16 b))))
   /\ 0 <= u32_le_at b 4 * 2 ^ 32 + u32_le_at b 8 < 2 ^ 64).
Proof.
  unfold compare_pcaps.parse_enhanced_packet_block. split; intros H.
  - length_tests. reflexivity.
  - length_tests.
    rewrite (bind_slice_unpack_lt_I b 0) by (simpl; lia).
    unfold value at 1. cbn [fst]. cbv beta.
    rewrite (bind_slice_unpack_lt_I b 4) by (simpl; lia).
    unfold value at 1. cbn [fst]. cbv beta.
    rewrite (bind_slice_unpack_lt_I b 8) by (simpl; lia).
    unfold value at 1. cbn [fst]. cbv beta.
    rewrite (bind_slice_unpack_lt_I b 12) by (simpl; lia).
    unfold value at 1. cbn [fst]. cbv beta.
    pose proof (u32_le_at_range b 4) as R4.
    pose proof (u32_le_at_range b 8) as R8.
    pose proof (u32_le_at_range b 12) as R12.
    rewrite value_bind, value_slice, value_ret.
    rewrite slice_of_clamped by lia.
    rewrite lor_shiftl_32 by assumption.
    change (Z.to_nat 16) with 16%nat.
    replace (16 + u32_le_at b 12 - 16) with (u32_le_at b 12) by lia.
    split; [reflexivity|].
    change (2 ^ 64) with (2 ^ 32 * 2 ^ 32). nia.
Qed.

Lemma enhanced_packet_block_fields_witness :
  value (compare_pcaps.parse_enhanced_packet_block
           Samples.clipped_block_body) =
  Ret (Some (compare_pcaps.Epb 0 (1 * 2 ^ 32 + 2) [xaa; xbb; xcc])).
Proof.
  apply (proj2 (enhanced_packet_block_fields Samples.clipped_block_body)).
  vm_compute. discriminate.
Defined.

(* ================================================================== *)
(** ** The loop of analyze_pcapng                                      *)
(* ================================================================== *)

Section Capture.

Lemma uint_le_firstn4 (p : bytes) :
  4 <= len p -> uint_le (firstn 4 p) = u32_le_at p 0.
Proof.
  intros H. unfold len in H.
  change (firstn 4 p) with (firstn 4 (skipn 0 p)).
  rewrite (firstn4_skipn x00) by lia. apply uint_le_4.
Qed.

(** What [read_pcapng_block] does on any file: it returns [None] and prints
    nothing, or it returns a block whose type is the first word of the
    file and leaves at least sixteen bytes fewer. *)
Lemma read_pcapng_block_outcome (pend : bytes) (out : list string) :
  (exists st',
     compare_pcaps.read_pcapng_block (FState pend out) = (Ret None, st') /\
     stdout st' = out) \/
  (exists body st',
     compare_pcaps.read_pcapng_block (FState pend out) =
     (Ret (Some (u32_le_at pend 0, body)), st') /\
     (List.length (pending st') + 16 <= List.length pend)%nat).
Proof.
  set (P := fun res : result (option (Z * bytes)) * fstate =>
    (exists st', res = (Ret None, st') /\ stdout st' = out) \/
    (exists body st',
       res = (Ret (Some (u32_le_at pend 0, body)), st') /\
       (List.length (pending st') + 16 <= List.length pend)%nat)).
  change (P (compare_pcaps.read_pcapng_block (FState pend out))).
  unfold compare_pcaps.read_pcapng_block, fbind. cbv beta.
  unfold fread at 1. cbn [pending stdout]. cbv beta iota.
  change (Z.to_nat 4) with 4%nat.
  destruct (len (firstn 4 pend) <? 4) eqn:E1.
  { subst P. left. eexists. split; reflexivity. }
  apply Z.ltb_ge in E1. unfold len in E1.
  pose proof (firstn_le_length 4 pend) as L1.
  unfold lift at 1. unfold unpack_lt_I at 1.
  rewrite unpack_sized by lia. cbn [value ret fst].
  unfold fread at 1. cbn [pending stdout]. cbv beta iota.
  change (Z.to_nat 4) with 4%nat.
  set (p1 := skipn 4 pend).
  destruct (len (firstn 4 p1) <? 4) eqn:E2.
  { subst P. left. eexists. split; reflexivity. }
  apply Z.ltb_ge in E2. unfold len in E2.
  pose proof (firstn_le_length 4 p1) as L2.
  unfold lift at 1. unfold unpack_lt_I at 1.
  rewrite unpack_sized by lia. cbn [value ret fst].
  set (L := uint_le (firstn 4 p1)).
  destruct (L <? 12) eqn:E3.
  { subst P. left. eexists. split; reflexivity. }
  apply Z.ltb_ge in E3.
  unfold fread at 1. cbn [pending stdout]. cbv beta iota.
  change (Z.to_nat 4) with 4%nat.
  set (p2 := skipn 4 p1).
  destruct (len (firstn (Z.to_nat (L - 8)) p2) <? L - 8) eqn:E4.
  { subst P. left. eexists. split; reflexivity. }
  apply Z.ltb_ge in E4. unfold len in E4.
  unfold fread at 1. cbn [pending stdout]. cbv beta iota.
  change (Z.to_nat 4) with 4%nat.
  set (p3 := skipn (Z.to_nat (L - 8)) p2).
  destruct (len (firstn 4 p3) <? 4) eqn:E5.
  { subst P. left. eexists. split; reflexivity. }
  apply Z.ltb_ge in E5. unfold len in E5.
  pose proof (firstn_le_length 4 p3) as L5.
  unfold lift at 1. unfold unpack_lt_I at 1.
  rewrite unpack_sized by lia. cbn [value ret fst].
  subst P. cbv beta. right.
  assert (Hlen : (List.length (skipn 4 p3) + 16 <= List.length pend)%nat).
  { rewrite length_firstn in E1, E2, E4, E5.
    subst p3 p2 p1. rewrite !length_skipn in *. lia. }
  rewrite (uint_le_firstn4 pend)
    by (unfold len; rewrite length_firstn in E1; lia).
  destruct (negb (uint_le (firstn 4 p3) =? L));
    unfold print, fret; cbn [pending stdout];
    do 2 eexists; (split; [reflexivity|exact Hlen]).
Qed.

(** A payload that the decoder accepts is kept whole in the result. *)
Lemma parse_bcudp_packet_payload (p : bytes) (b : compare_pcaps.bcudp) :
  value (compare_pcaps.parse_bcudp_packet p) = Ret (Some b) ->
  compare_pcaps.bcudp_payload b = p.
Proof.
  destruct (Z.lt_ge_cases (len p) 4) as [H4|H4].
  { rewrite parse_bcudp_packet_tiny by assumption. discriminate. }
  destruct (Z.eq_dec (u32_le_at p 0) compare_pcaps.BCUDP_MAGIC_DISCOVERY)
    as [Hd|Hd].
  { rewrite parse_bcudp_packet_discovery by assumption.
    intros H. injection H as <-. reflexivity. }
  destruct (Z.eq_dec (u32_le_at p 0) compare_pcaps.BCUDP_MAGIC_DATA)
    as [Ha|Ha].
  { destruct (Z.lt_ge_cases (len p) 20) as [H20|H20].
    - rewrite (parse_bcudp_packet_short VData) by assumption. discriminate.
    - rewrite parse_bcudp_packet_data by assumption.
      intros H. injection H as <-. reflexivity. }
  destruct (Z.eq_dec (u32_le_at p 0) compare_pcaps.BCUDP_MAGIC_ACK)
    as [Hk|Hk].
  { destruct (Z.lt_ge_cases (len p) 28) as [H28|H28].
    - rewrite (parse_bcudp_packet_short VAck) by assumption. discriminate.
    - rewrite parse_bcudp_packet_ack by assumption.
      intros H. injection H as <-. reflexivity. }
  rewrite parse_bcudp_packet_other by assumption. discriminate.
Qed.

(** The entry built for a block: its number is the current counter and its
    [raw_payload] is the first hundred hex digits of the payload kept in
    its decoded dictionary. *)
Lemma block_packet_entry (packet_num block_type : Z) (block_body : bytes)
    (pkt : compare_pcaps.packet) :
  value (compare_pcaps.block_packet packet_num block_type block_body) =
  Ret (Some pkt) ->
  compare_pcaps.num pkt = packet_num /\
  compare_pcaps.raw_payload pkt =
  str_prefix 100
    (hex (compare_pcaps.bcudp_payload (compare_pcaps.pkt_bcudp pkt))).
Proof.
  unfold compare_pcaps.block_packet.
  destruct (block_type =? 6); [|discriminate].
  rewrite value_bind.
  destruct (value (compare_pcaps.parse_enhanced_packet_block block_body))
    as [[e|]|ex]; try discriminate.
  rewrite value_bind.
  destruct (value (compare_pcaps.extract_udp_packet
                     (compare_pcaps.packet_data e))) as [[u|]|ex];
    try discriminate.
  rewrite value_bind.
  destruct (value (compare_pcaps.parse_bcudp_packet
                     (compare_pcaps.payload u))) as [[b|]|ex] eqn:Eb;
    try discriminate.
  intros H. injection H as <-.
  cbn [compare_pcaps.num compare_pcaps.raw_payload compare_pcaps.pkt_bcudp].
  now rewrite (parse_bcudp_packet_payload _ _ Eb).
Qed.

(** A property of the collected packets and of the counter that every
    appended entry preserves holds when the loop ends. *)
Lemma read_blocks_invariant
    (Inv : list compare_pcaps.packet -> Z -> Prop) :
  (forall packets n block_type block_body pkt,
     Inv packets n ->
     value (compare_pcaps.block_packet n block_type block_body) =
     Ret (Some pkt) ->
     Inv (packets ++ [pkt]) (n + 1)) ->
  forall fuel packets n st r st',
    Inv packets n ->
    compare_pcaps.read_blocks fuel packets n st = (Ret (Some r), st') ->
    exists n', Inv r n'.
Proof.
  intros Hstep. induction fuel as [|fuel IH];
    intros packets n st r st' Hinv Hrun.
  - discriminate Hrun.
  - rewrite read_blocks_step in Hrun.
    destruct (compare_pcaps.read_pcapng_block st)
      as [[[[ty body]|]|ex] st1]; try discriminate.
    + destruct (value (compare_pcaps.block_packet n ty body))
        as [[pkt|]|ex] eqn:Ep; try discriminate.
      * eapply IH; [|exact Hrun]. cbn [appended counted].
        eapply Hstep; eassumption.
      * eapply IH; [|exact Hrun]. exact Hinv.
    + injection Hrun as <- _. now exists n.
Qed.

End Capture.

(** X2.  Whatever bytes the file holds, [analyze_pcapng] returns a list
    of packets and raises nothing: its loop always ends, though not
    always at the end of the file.  The packets it returns carry the
    numbers 0, 1, 2, ... in the order of the list. *)
Theorem analyze_pcapng_numbers_packets (filename : string) (st : fstate) :
  exists r st',
    compare_pcaps.analyze_pcapng filename st = (Ret (Some r), st') /\
    map compare_pcaps.num r = map Z.of_nat (seq 0 (List.length r)).
Proof.
  destruct (analyze_pcapng_total filename st) as (r & st' & Hrun).
  exists r, st'. split; [exact Hrun|].
  unfold compare_pcaps.analyze_pcapng in Hrun. cbv zeta in Hrun.
  unfold fbind at 1 in Hrun.
  destruct (compare_pcaps.read_pcapng_block st)
    as [[[[ty body]|]|ex] st1]; try discriminate.
  - destruct (negb (ty =? 168627466)).
    + unfold fbind, print, fret in Hrun. injection Hrun as <- _. reflexivity.
    + destruct (read_blocks_invariant
                  (fun packets n =>
                     n = len packets /\
                     map compare_pcaps.num packets =
                     map Z.of_nat (seq 0 (List.length packets))))
        with (fuel := S (List.length (pending st)))
             (packets := @nil compare_pcaps.packet) (n := 0)
             (st := st1) (r := r) (st' := st')
        as (n' & _ & Hnum); try assumption.
      * intros packets n bt bb pkt (Hn & Hmap) Hp.
        apply block_packet_entry in Hp. destruct Hp as (Hnum & _).
        unfold len in *. rewrite length_app, map_app, Hmap.
        cbn [List.length map]. split; [lia|].
        rewrite Nat.add_1_r, seq_S, map_app. cbn [map Nat.add].
        now rewrite Hnum, Hn.
      * now split.
  - unfold fbind, print, fret in Hrun. injection Hrun as <- _. reflexivity.
Qed.

(** X3.  A file of fewer than sixteen bytes, or one that does not start
    with the block type [0x0A0D0D0A], is refused: [analyze_pcapng] returns
    the empty list, the last line it prints says that the file is not a
    valid pcapng file, and nothing is raised. *)
Theorem analyze_pcapng_refuses (filename : string)
    (pend : bytes) (out : list string) :
  (List.length pend < 16)%nat \/ u32_le_at pend 0 <> 0x0A0D0D0A ->
  exists st',
    compare_pcaps.analyze_pcapng filename (FState pend out) =
    (Ret (Some []), st') /\
    last (stdout st') EmptyString =
    ("Error: " ++ filename ++ " is not a valid pcapng file")%string.
Proof.
  intros H. unfold compare_pcaps.analyze_pcapng. cbv zeta.
  unfold fbind at 1.
  destruct (read_pcapng_block_outcome pend out)
    as [(st1 & E & _)|(body & st1 & E & Hdec)]; rewrite E.
  - unfold fbind, print, fret. eexists. split; [reflexivity|].
    cbn [stdout]. apply last_last.
  - destruct H as [H|H]; [lia|].
    apply Z.eqb_neq in H. rewrite H. cbn [negb].
    unfold fbind, print, fret. eexists. split; [reflexivity|].
    cbn [stdout]. apply last_last.
Qed.

Lemma analyze_pcapng_refuses_witness :
  exists st',
    compare_pcaps.analyze_pcapng "scrypted.pcapng"
      (FState Samples.legacy_file []) = (Ret (Some []), st') /\
    last (stdout st') EmptyString =
    "Error: scrypted.pcapng is not a valid pcapng file"%string.
Proof.
  apply (analyze_pcapng_refuses "scrypted.pcapng" Samples.legacy_file []).
  right. vm_compute. discriminate.
Defined.

(* ================================================================== *)
(** ** Comparing two captures                                          *)
(* ================================================================== *)

Section Flows.

(** The first [2 * n] hex digits of a byte string are the digits of its
    first [n] bytes. *)
Lemma str_prefix_hex (n : nat) :
  forall p : bytes, str_prefix (2 * n) (hex p) = hex (firstn n p).
Proof.
  induction n as [|n IH]; intros [|b t]; try reflexivity.
  replace (2 * S n)%nat with (S (S (2 * n))) by lia.
  cbn [hex firstn]. unfold str_prefix. cbn [substring].
  do 2 f_equal. apply IH.
Qed.

Lemma hex_inj (p q : bytes) : hex p = hex q -> p = q.
Proof.
  intros H. apply (f_equal fromhex_result) in H.
  rewrite !fromhex_hex in H. now injection H.
Qed.

(** Every entry returned by [analyze_pcapng] keeps, as [raw_payload], the
    first hundred hex digits of the payload of its decoded dictionary. *)
Lemma analyze_pcapng_raw_payload (filename : string) (st st' : fstate)
    (r : list compare_pcaps.packet) :
  compare_pcaps.analyze_pcapng filename st = (Ret (Some r), st') ->
  Forall (fun pkt =>
            compare_pcaps.raw_payload pkt =
            hex (firstn 50 (compare_pcaps.bcudp_payload
                              (compare_pcaps.pkt_bcudp pkt)))) r.
Proof.
  intros Hrun.
  unfold compare_pcaps.analyze_pcapng in Hrun. cbv zeta in Hrun.
  unfold fbind at 1 in Hrun.
  destruct (compare_pcaps.read_pcapng_block st)
    as [[[[ty body]|]|ex] st1]; try discriminate.
  - destruct (negb (ty =? 168627466)).
    + unfold fbind, print, fret in Hrun. injection Hrun as <- _.
      constructor.
    + destruct (read_blocks_invariant
                  (fun packets _ =>
                     Forall (fun pkt =>
                       compare_pcaps.raw_payload pkt =
                       hex (firstn 50 (compare_pcaps.bcudp_payload
                                         (compare_pcaps.pkt_bcudp pkt))))
                       packets))
        with (fuel := S (List.length (pending st)))
             (packets := @nil compare_pcaps.packet) (n := 0)
             (st := st1) (r := r) (st' := st')
        as (n' & Hall); try assumption.
      * intros packets n bt bb pkt Hall Hp.
        apply block_packet_entry in Hp. destruct Hp as (_ & Hraw).
        apply Forall_app. split; [exact Hall|].
        constructor; [|constructor].
        rewrite Hraw. apply (str_prefix_hex 50).
      * constructor.
  - unfold fbind, print, fret in Hrun. injection Hrun as <- _. constructor.
Qed.

End Flows.

(** X4.  For the packets that [analyze_pcapng] returns for two files,
    when [compare_flows] shows a first DATA packet on both sides, it says
    "Same hex" exactly when the first fifty bytes of the two UDP payloads
    are equal, and "DIFFERENT HEX" otherwise; bytes after the fiftieth
    play no part. *)
Theorem first_data_same_hex
    (neolink_file scrypted_file : string) (st1 st2 st1' st2' : fstate)
    (neolink_packets scrypted_packets : list compare_pcaps.packet)
    (c : compare_pcaps.first_data_comparison) :
  compare_pcaps.analyze_pcapng neolink_file st1 =
    (Ret (Some neolink_packets), st1') ->
  compare_pcaps.analyze_pcapng scrypted_file st2 =
    (Ret (Some scrypted_packets), st2') ->
  compare_pcaps.first_data
    (compare_pcaps.compare_flows neolink_packets scrypted_packets) = Some c ->
  (compare_pcaps.different_hex c = false <->
   firstn 50 (compare_pcaps.bcudp_payload
                (compare_pcaps.pkt_bcudp (compare_pcaps.neolink_first_data c)))
   = firstn 50 (compare_pcaps.bcudp_payload
                  (compare_pcaps.pkt_bcudp
                     (compare_pcaps.scrypted_first_data c)))).
Proof.
  intros H1 H2 Hc.
  apply analyze_pcapng_raw_payload in H1, H2.
  rewrite Forall_forall in H1, H2.
  unfold compare_pcaps.compare_flows in Hc.
  cbn [compare_pcaps.first_data] in Hc.
  destruct (find compare_pcaps.is_data neolink_packets) as [a|] eqn:Ea;
    [|discriminate].
  destruct (find compare_pcaps.is_data scrypted_packets) as [b|] eqn:Eb;
    [|discriminate].
  injection Hc as <-.
  cbn [compare_pcaps.different_hex compare_pcaps.neolink_first_data
       compare_pcaps.scrypted_first_data].
  apply find_some in Ea, Eb. destruct Ea as (Ia & _), Eb as (Ib & _).
  rewrite (H1 a Ia), (H2 b Ib).
  rewrite Bool.negb_false_iff, String.eqb_eq.
  split; [apply hex_inj|now intros ->].
Qed.

Lemma first_data_same_hex_witness :
  compare_pcaps.different_hex
    (compare_pcaps.FirstData
       (Samples.captured_data 5 Samples.data_reversed)
       (Samples.captured_data 6 Samples.data_reversed_next) true) = false <->
  firstn 50 Samples.data_reversed = firstn 50 Samples.data_reversed_next.
Proof.
  apply (first_data_same_hex "neolink.pcapng" "scrypted.pcapng"
           (FState (Samples.capture_with Samples.data_reversed) [])
           (FState (Samples.capture_with Samples.data_reversed_next) [])
           (FState [] []) (FState [] [])
           [Samples.captured_data 5 Samples.data_reversed]
           [Samples.captured_data 6 Samples.data_reversed_next]);
    vm_compute; reflexivity.
Defined.

(** X5.  [read_pcapng_block] takes [block_length - 8] bytes as the body
    and then four more as the trailing length.  On a block laid out as
    type, total length [L], [L - 12] bytes of body and [L] again, followed
    by another block, the body returned therefore ends with the four
    bytes of the trailing length, the word compared with [L] is the type
    of the following block, and reading resumes after that type. *)
Theorem total_length_block_overread
    (ty lb body ty2 rest : bytes) (out : list string) :
  len ty = 4 -> len lb = 4 -> len ty2 = 4 ->
  12 <= uint_le lb -> len body = uint_le lb - 12 ->
  compare_pcaps.read_pcapng_block
    (FState (ty ++ lb ++ body ++ lb ++ ty2 ++ rest) out) =
  (Ret (Some (uint_le ty, body ++ lb)),
   FState rest
     (if uint_le ty2 =? uint_le lb then out
      else out ++ [block_length_warning (uint_le lb) (uint_le ty2)])).
Proof.
  intros Hty Hlb Hty2 HL Hbody.
  replace (body ++ lb ++ ty2 ++ rest) with ((body ++ lb) ++ ty2 ++ rest)
    by now rewrite <- app_assoc.
  apply read_pcapng_block_framed; try assumption.
  unfold len in *. rewrite length_app. lia.
Qed.

Lemma total_length_block_overread_witness :
  compare_pcaps.read_pcapng_block
    (FState ([x0a; x0d; x0d; x0a] ++ [x0c; x00; x00; x00] ++ []
             ++ [x0c; x00; x00; x00] ++ [x06; x00; x00; x00]
             ++ [x56; x00; x00; x00]) []) =
  (Ret (Some (0x0A0D0D0A, [x0c; x00; x00; x00])),
   FState [x56; x00; x00; x00]
     ["Warning: block length mismatch: 12 != 6"%string]).
Proof.
  apply (total_length_block_overread
           [x0a; x0d; x0d; x0a] [x0c; x00; x00; x00] []
           [x06; x00; x00; x00] [x56; x00; x00; x00] []);
    vm_compute; try reflexivity; discriminate.
Defined.

(* ================================================================== *)
(** ** The whole of analyze_pcap                                       *)
(* ================================================================== *)

Section LegacyLoop.

Lemma bytes_eqb_eq (a : bytes) : forall b, bytes_eqb a b = true <-> a = b.
Proof.
  induction a as [|x a IH]; intros [|y b]; cbn [bytes_eqb];
    try (split; [reflexivity|reflexivity]);
    try (split; discriminate).
  rewrite Bool.andb_true_iff, IH. split.
  - intros (Hx & ->). apply byte_dec_bl in Hx. now subst.
  - intros H. injection H as -> ->. split; [now apply byte_dec_lb|reflexivity].
Qed.

(** The frame stage never produces a packet: it yields nothing or
    raises [struct.error]. *)
Lemma frame_packet_cases
    (packet_num : Z) (pkt_header : analyze_pcap.packet_header) (f : bytes) :
  value (analyze_pcap.frame_packet packet_num pkt_header f) = Ret None \/
  value (analyze_pcap.frame_packet packet_num pkt_header f) =
  Raise StructError.
Proof.
  destruct (Z.lt_ge_cases (len f) 42) as [Hl|Hl].
  { left. now rewrite frame_packet_short. }
  destruct (Z.eq_dec (byte_at f 14) 0x45) as [Hv|Hv];
    [|left; now apply frame_packet_not_ipv4].
  destruct (Z.eq_dec (byte_at f 23) 17) as [Hp|Hp];
    [|left; now apply frame_packet_not_udp].
  right. apply frame_packet_raises. repeat split; assumption.
Qed.

Lemma read_packet_header_cases (pend : bytes) (out : list string) :
  analyze_pcap.read_packet_header (FState pend out) =
    (Ret None, FState (skipn 16 pend) out) \/
  exists h,
    analyze_pcap.read_packet_header (FState pend out) =
      (Ret (Some h), FState (skipn 16 pend) out) /\
    (16 <= List.length pend)%nat.
Proof.
  unfold analyze_pcap.read_packet_header, fbind, fread.
  cbn [pending stdout]. change (Z.to_nat 16) with 16%nat.
  destruct (len (firstn 16 pend) <? 16) eqn:E; [left; reflexivity|].
  right. apply Z.ltb_ge in E. unfold len in E. rewrite length_firstn in E.
  unfold lift, unpack_lt_IIII.
  replace (Nat.eqb (List.length (firstn 16 pend)) 16) with true
    by (symmetry; apply Nat.eqb_eq; rewrite length_firstn; lia).
  cbn [value ret fst]. eexists. split; [reflexivity|lia].
Qed.

(** The loop over the records ends, by [struct.error] or with the list of
    packets it started from. *)
Lemma read_packets_outcome (fuel : nat) :
  forall (packets : list analyze_pcap.packet) (packet_num : Z) (st : fstate),
    (List.length (pending st) < fuel)%nat ->
    exists st',
      analyze_pcap.read_packets fuel packets packet_num st =
        (Raise StructError, st') \/
      exists n,
        analyze_pcap.read_packets fuel packets packet_num st =
          (Ret (Some (packets, n)), st').
Proof.
  induction fuel as [|fuel IH]; intros packets packet_num [pend out] H;
    cbn [pending] in H; [lia|].
  set (P := fun res : result (option (list analyze_pcap.packet * Z)) * fstate =>
    exists st',
      res = (Raise StructError, st') \/
      exists n, res = (Ret (Some (packets, n)), st')).
  change (P (analyze_pcap.read_packets (S fuel) packets packet_num
               (FState pend out))).
  cbn [analyze_pcap.read_packets]. unfold fbind at 1.
  destruct (read_packet_header_cases pend out) as [E|(h & E & Hlen)];
    rewrite E.
  - subst P. eexists. right. eexists. reflexivity.
  - unfold fbind at 1. unfold fread at 1. cbn [pending stdout].
    destruct (len (firstn (Z.to_nat (analyze_pcap.incl_len h))
                     (skipn 16 pend)) <? analyze_pcap.incl_len h).
    + subst P. eexists. right. eexists. reflexivity.
    + unfold fbind at 1. unfold lift at 1.
      destruct (frame_packet_cases packet_num h
                  (firstn (Z.to_nat (analyze_pcap.incl_len h))
                     (skipn 16 pend))) as [Ev|Ev]; rewrite Ev.
      * subst P. cbv beta. apply IH. cbn [pending].
        rewrite !length_skipn. lia.
      * subst P. eexists. left. reflexivity.
Qed.

(** The three outcomes of [read_pcap_header]. *)
Lemma read_pcap_header_cases (pend : bytes) (out : list string) :
  (firstn 4 pend <> [xd4; xc3; xb2; xa1] ->
   analyze_pcap.read_pcap_header (FState pend out) =
   (Ret None, FState (skipn 4 pend) out))
  /\
  (firstn 4 pend = [xd4; xc3; xb2; xa1] ->
   (List.length pend < 24)%nat ->
   exists st',
     analyze_pcap.read_pcap_header (FState pend out) =
     (Raise StructError, st'))
  /\
  (firstn 4 pend = [xd4; xc3; xb2; xa1] ->
   (24 <= List.length pend)%nat ->
   exists h,
     analyze_pcap.read_pcap_header (FState pend out) =
     (Ret (Some h), FState (skipn 24 pend) out)).
Proof.
  unfold analyze_pcap.read_pcap_header.
  split; [|split].
  - intros H. unfold fbind at 1. unfold fread at 1. cbn [pending stdout].
    change (Z.to_nat 4) with 4%nat.
    destruct (bytes_eqb (firstn 4 pend) [xd4; xc3; xb2; xa1]) eqn:E.
    + apply bytes_eqb_eq in E. contradiction.
    + reflexivity.
  - intros H Hlen. apply bytes_eqb_eq in H.
    unfold fbind, fread, lift, unpack_lt_HH, unpack_lt_II.
    cbn [pending stdout].
    change (Z.to_nat 4) with 4%nat. change (Z.to_nat 8) with 8%nat.
    rewrite H. cbn [negb pending stdout].
    destruct (Nat.eqb (List.length (firstn 4 (skipn 4 pend))) 4) eqn:E0;
      cbn [value ret raise fst]; [|now eexists].
    destruct (Nat.eqb (List.length (firstn 8 (skipn 4 (skipn 4 pend)))) 8)
      eqn:E1; cbn [value ret raise fst]; [|now eexists].
    destruct (Nat.eqb (List.length
                (firstn 8 (skipn 8 (skipn 4 (skipn 4 pend))))) 8)
      eqn:E2; cbn [value ret raise fst]; [|now eexists].
    apply Nat.eqb_eq in E0, E1, E2.
    rewrite length_firstn in E0, E1, E2.
    rewrite !length_skipn in E0. rewrite !length_skipn in E1.
    rewrite !length_skipn in E2. exfalso. lia.
  - intros H Hlen. apply bytes_eqb_eq in H.
    unfold fbind, fread, lift, unpack_lt_HH, unpack_lt_II.
    cbn [pending stdout].
    change (Z.to_nat 4) with 4%nat. change (Z.to_nat 8) with 8%nat.
    rewrite H. cbn [negb pending stdout].
    replace (Nat.eqb (List.length (firstn 4 (skipn 4 pend))) 4) with true
      by (symmetry; apply Nat.eqb_eq;
          rewrite length_firstn, !length_skipn; lia).
    cbn [value ret raise fst].
    replace (Nat.eqb (List.length (firstn 8 (skipn 4 (skipn 4 pend)))) 8)
      with true
      by (symmetry; apply Nat.eqb_eq;
          rewrite length_firstn, !length_skipn; lia).
    cbn [value ret raise fst].
    replace (Nat.eqb (List.length
               (firstn 8 (skipn 8 (skipn 4 (skipn 4 pend))))) 8)
      with true
      by (symmetry; apply Nat.eqb_eq;
          rewrite length_firstn, !length_skipn; lia).
    cbn [value ret raise fst]. unfold fret.
    rewrite !skipn_skipn. cbn [Nat.add]. now eexists.
Qed.

End LegacyLoop.

(** X6.  [analyze_pcap] never finds a packet.  On every file it ends in
    one of three ways: [struct.error] is raised and leaves the function,
    the file is refused, or the loop over the records ends with an empty
    list of packets, whatever number of frames it has counted. *)
Theorem legacy_analysis_finds_nothing (filename : string) (st : fstate) :
  exists st',
    analyze_pcap.analyze_pcap filename st = (Raise StructError, st') \/
    analyze_pcap.analyze_pcap filename st = (Ret (Some None), st') \/
    exists n,
      analyze_pcap.analyze_pcap filename st = (Ret (Some (Some ([], n))), st').
Proof.
  destruct st as [pend out].
  destruct (read_pcap_header_cases pend out) as (Hno & Hshort & Hok).
  set (P := fun res : result (option (option
                        (list analyze_pcap.packet * Z))) * fstate =>
    exists st',
      res = (Raise StructError, st') \/
      res = (Ret (Some None), st') \/
      exists n, res = (Ret (Some (Some ([], n))), st')).
  change (P (analyze_pcap.analyze_pcap filename (FState pend out))).
  unfold analyze_pcap.analyze_pcap. unfold fbind at 1.
  destruct (list_eq_dec Byte.byte_eq_dec (firstn 4 pend)
              [xd4; xc3; xb2; xa1]) as [Hm|Hm].
  - destruct (Nat.lt_ge_cases (List.length pend) 24) as [Hl|Hl].
    + destruct (Hshort Hm Hl) as (st' & E). rewrite E.
      exists st'. now left.
    + destruct (Hok Hm Hl) as (h & E). rewrite E.
      unfold fbind at 1. cbn [pending].
      destruct (read_packets_outcome (S (List.length pend)) [] 0
                  (FState (skipn 24 pend) out)) as (st' & [E'|(n & E')]).
      { cbn [pending]. rewrite length_skipn. lia. }
      * rewrite E'. exists st'. now left.
      * rewrite E'. exists st'. right. right. exists n. reflexivity.
  - rewrite (Hno Hm). unfold fbind, print, fret.
    eexists. right. left. reflexivity.
Qed.

(** X7.  The header check of [analyze_pcap] looks at the first four bytes
    only.  A file that does not start with [d4 c3 b2 a1] is refused with
    the message "is not a valid PCAP file" and nothing is raised; a file
    that starts with them but is shorter than the 24 bytes of the header
    is not refused: [struct.unpack] raises [struct.error]. *)
Theorem legacy_header_check (filename : string)
    (pend : bytes) (out : list string) :
  (firstn 4 pend <> [xd4; xc3; xb2; xa1] ->
   analyze_pcap.analyze_pcap filename (FState pend out) =
   (Ret (Some None),
    FState (skipn 4 pend)
      (out ++ ["Error: " ++ filename ++ " is not a valid PCAP file"]%string)))
  /\
  (firstn 4 pend = [xd4; xc3; xb2; xa1] ->
   (List.length pend < 24)%nat ->
   fst (analyze_pcap.analyze_pcap filename (FState pend out)) =
   Raise StructError).
Proof.
  destruct (read_pcap_header_cases pend out) as (Hno & Hshort & _).
  unfold analyze_pcap.analyze_pcap. split.
  - intros Hm. unfold fbind at 1. rewrite (Hno Hm). reflexivity.
  - intros Hm Hl. destruct (Hshort Hm Hl) as (st' & E).
    unfold fbind at 1. rewrite E. reflexivity.
Qed.

Lemma legacy_header_check_witness :
  analyze_pcap.analyze_pcap "neolink.pcapng"
    (FState Samples.mismatched_block []) =
  (Ret (Some None),
   FState (skipn 4 Samples.mismatched_block)
     ["Error: neolink.pcapng is not a valid PCAP file"%string])
  /\
  fst (analyze_pcap.analyze_pcap "neolink.pcapng"
         (FState Samples.truncated_legacy_header [])) = Raise StructError.
Proof.
  split.
  - apply (proj1 (legacy_header_check "neolink.pcapng"
                    Samples.mismatched_block [])).
    vm_compute. discriminate.
  - apply (proj2 (legacy_header_check "neolink.pcapng"
                    Samples.truncated_legacy_header []));
      vm_compute; [reflexivity|lia].
Defined.

(* ================================================================== *)
(** ** The two scripts that read JSON exports                          *)
(* ================================================================== *)

Section Exports.

(** [hex_to_bytes] always returns, the same bytes in both scripts. *)
Lemma hex_to_bytes_total (s : string) :
  exists d,
    analyze_json.hex_to_bytes s = (Ret d, []) /\
    compare_stream_flow.hex_to_bytes s = (Ret d, []).
Proof.
  unfold analyze_json.hex_to_bytes, compare_stream_flow.hex_to_bytes,
    fromhex, try_except.
  destruct (fromhex_result (remove_char " " (remove_char ":" s)));
    eexists; split; reflexivity.
Qed.

Lemma analyze_json_parse_bytes (s : string) (d : bytes) :
  analyze_json.hex_to_bytes s = (Ret d, []) ->
  value (analyze_json.parse_bcudp_packet s) = Ret (decode_json s d).
Proof.
  intros Hd.
  unfold decode_json, decode, analyze_json.parse_bcudp_packet.
  cbn [min_len magic_of].
  rewrite value_try_except, value_bind, Hd.
  unfold value at 1. cbn [fst].
  destruct (len d <? 4) eqn:E4; [reflexivity|]. apply Z.ltb_ge in E4.
  rewrite value_bind, value_slice, value_bind, value_unpack_gt_I_magic
    by assumption.
  unfold analyze_json.BCUDP_MAGIC_DISCOVERY, analyze_json.BCUDP_MAGIC_DATA,
    analyze_json.BCUDP_MAGIC_ACK.
  destruct (u32_be_at d 0 =? 0x3acf872a) eqn:Ed.
  { apply Z.eqb_eq in Ed. rewrite Ed. reflexivity. }
  destruct (u32_be_at d 0 =? 0x10cf872a) eqn:Ea.
  { apply Z.eqb_eq in Ea. rewrite Ea.
    destruct (len d <? 20) eqn:E20; [reflexivity|]. apply Z.ltb_ge in E20.
    rewrite !value_bind, !value_slice. cbv beta iota zeta.
    rewrite !value_bind, !value_slice. cbv beta iota zeta.
    rewrite !value_bind, !value_slice. cbv beta iota zeta.
    from_bytes_fields d. reflexivity. }
  destruct (u32_be_at d 0 =? 0x20cf872a) eqn:Ek; [|reflexivity].
  apply Z.eqb_eq in Ek. rewrite Ek.
  destruct (len d <? 28) eqn:E28; [reflexivity|]. apply Z.ltb_ge in E28.
  rewrite !value_bind, !value_slice. cbv beta iota zeta.
  rewrite !value_bind, !value_slice. cbv beta iota zeta.
  rewrite !value_bind, !value_slice. cbv beta iota zeta.
  from_bytes_fields d. reflexivity.
Qed.

Lemma stream_parse_data_bytes (d : bytes) :
  value (compare_stream_flow.parse_bcudp_data d) =
  Ret (if (len d <? 20) || negb (u32_be_at d 0 =? 0x10cf872a) then None
       else Some (compare_stream_flow.Data
                    (s32_le_at d 4) (u32_le_at d 12) (u32_le_at d 16))).
Proof.
  destruct (len d <? 20) eqn:E20.
  { apply Z.ltb_lt in E20. now rewrite parse_bcudp_data_short. }
  apply Z.ltb_ge in E20. cbn [orb].
  destruct (u32_be_at d 0 =? 0x10cf872a) eqn:Em.
  - apply Z.eqb_eq in Em. now rewrite parse_bcudp_data_ok.
  - apply Z.eqb_neq in Em. now rewrite parse_bcudp_data_other.
Qed.

Lemma stream_parse_ack_bytes (d : bytes) :
  value (compare_stream_flow.parse_bcudp_ack d) =
  Ret (if (len d <? 28) || negb (u32_be_at d 0 =? 0x20cf872a) then None
       else Some (compare_stream_flow.Ack
                    (s32_le_at d 4) (u32_le_at d 12) (u32_le_at d 16))).
Proof.
  destruct (len d <? 28) eqn:E28.
  { apply Z.ltb_lt in E28. now rewrite parse_bcudp_ack_short. }
  apply Z.ltb_ge in E28. cbn [orb].
  destruct (u32_be_at d 0 =? 0x20cf872a) eqn:Em.
  - apply Z.eqb_eq in Em. now rewrite parse_bcudp_ack_ok.
  - apply Z.eqb_neq in Em. now rewrite parse_bcudp_ack_other.
Qed.

(** The two attempts of [extract_stream_packets], Data first and Ack
    second, amount to [decode_stream]. *)
Lemma stream_parse_bytes {A} (d : bytes)
    (mk : compare_stream_flow.bcudp -> A) :
  value (pkt_data <- compare_stream_flow.parse_bcudp_data d ;;
         match pkt_data with
         | Some x => ret (Some (mk x))
         | None =>
             pkt_ack <- compare_stream_flow.parse_bcudp_ack d ;;
             match pkt_ack with
             | Some a => ret (Some (mk a))
             | None => ret None
             end
         end) =
  Ret (option_map mk (decode_stream d)).
Proof.
  rewrite value_bind, stream_parse_data_bytes.
  unfold decode_stream, decode. cbn [min_len magic_of].
  destruct (len d <? 20) eqn:E20; cbn [orb].
  - rewrite value_bind, stream_parse_ack_bytes.
    apply Z.ltb_lt in E20.
    rewrite (proj2 (Z.ltb_lt (len d) 28)) by lia. cbn [orb].
    destruct (len d <? 4); [reflexivity|].
    destruct (u32_be_at d 0 =? 0x3acf872a); [reflexivity|].
    destruct (u32_be_at d 0 =? 0x10cf872a); [reflexivity|].
    destruct (u32_be_at d 0 =? 0x20cf872a); reflexivity.
  - apply Z.ltb_ge in E20.
    rewrite (proj2 (Z.ltb_ge (len d) 4)) by lia.
    destruct (u32_be_at d 0 =? 0x3acf872a) eqn:Ed.
    { apply Z.eqb_eq in Ed. rewrite Ed. cbn [Z.eqb Pos.eqb negb].
      rewrite value_bind, stream_parse_ack_bytes, Ed.
      cbn [Z.eqb Pos.eqb negb]. rewrite Bool.orb_true_r. reflexivity. }
    destruct (u32_be_at d 0 =? 0x10cf872a) eqn:Ea; cbn [negb];
      [reflexivity|].
    rewrite value_bind, stream_parse_ack_bytes.
    destruct (u32_be_at d 0 =? 0x20cf872a); cbn [negb].
    + rewrite Bool.orb_false_r. destruct (len d <? 28); reflexivity.
    + rewrite Bool.orb_true_r. reflexivity.
Qed.

(** One record of the export, in the two scripts. *)
Lemma json_entry_agrees (e : Json.entry) :
  exists r,
    value (analyze_json.extract_entry e) = Ret r /\
    value (compare_stream_flow.extract_entry e) =
    Ret (match r with Some p => stream_packet p | None => None end).
Proof.
  unfold analyze_json.extract_entry, compare_stream_flow.extract_entry.
  destruct (Json.udp e) as [udp|]; [|exists None; split; reflexivity].
  cbv zeta.
  destruct (String.eqb (Json.udp_payload udp) "");
    [exists None; split; reflexivity|].
  destruct (hex_to_bytes_total (Json.udp_payload udp)) as (d & Hj & Hs).
  rewrite value_bind, (analyze_json_parse_bytes _ d Hj).
  rewrite (value_bind (compare_stream_flow.hex_to_bytes _)), Hs.
  change (value (Ret d, @nil span)) with (Ret d). cbv beta iota.
  assert (Hd : len d < 4 -> decode_stream d = None).
  { intros H. unfold decode_stream, decode. cbn [min_len].
    now rewrite (proj2 (Z.ltb_lt (len d) 4)). }
  assert (Hv : decode_stream d =
               match decode_json (Json.udp_payload udp) d with
               | Some (analyze_json.Data _ c p l _) =>
                   Some (compare_stream_flow.Data c p l)
               | Some (analyze_json.Ack _ c g p _) =>
                   Some (compare_stream_flow.Ack c g p)
               | _ => None
               end).
  { unfold decode_stream, decode_json.
    destruct (decode (u32_be_at d 0) d) as [[| |]|]; reflexivity. }
  destruct (len d <? 4) eqn:E4.
  - apply Z.ltb_lt in E4. rewrite (Hd E4) in Hv.
    destruct (decode_json (Json.udp_payload udp) d) as [[| |]|];
      try discriminate; eexists; (split; [reflexivity|]); reflexivity.
  - rewrite stream_parse_bytes, Hv.
    destruct (decode_json (Json.udp_payload udp) d) as [[| |]|];
      eexists; (split; [reflexivity|]); reflexivity.
Qed.

End Exports.

(** X8.  On the same export, neither script raises while it decodes the
    records, and the list of [extract_stream_packets] is the list of
    [extract_packets] without its discovery packets, in the same order
    and with the same frame number, time, source address, ports and
    header fields. *)
Theorem stream_packets_of_json_packets (entries : list Json.entry) :
  exists ps,
    value (analyze_json.extract_packets entries) = Ret ps /\
    value (compare_stream_flow.extract_stream_packets entries) =
    Ret (stream_packets ps).
Proof.
  induction entries as [|e rest (ps & Hj & Hs)].
  - exists []. split; reflexivity.
  - destruct (json_entry_agrees e) as (r & Ej & Es).
    cbn [analyze_json.extract_packets
         compare_stream_flow.extract_stream_packets].
    rewrite !value_bind, Ej, Es, !value_bind, Hj, Hs.
    eexists. split; [reflexivity|].
    destruct r as [p|]; [|reflexivity].
    unfold stream_packets. cbn [flat_map].
    destruct (stream_packet p); reflexivity.
Qed.

Section ColonStrings.

Lemma colon_hex_cons (b b' : byte) (t : bytes) :
  colon_hex (b :: b' :: t) =
  String (nibble_char (N.div (Byte.to_N b) 16))
    (String (nibble_char (N.modulo (Byte.to_N b) 16))
       (String ":" (colon_hex (b' :: t)))).
Proof. reflexivity. Qed.

Lemma remove_colon_colon_hex (p : bytes) :
  remove_char ":" (colon_hex p) = hex p.
Proof.
  induction p as [|b [|b' t] IH]; [reflexivity| |].
  - apply (remove_colon_hex [b]).
  - rewrite colon_hex_cons. cbn [remove_char].
    change (Ascii.eqb ":" ":") with true. cbv iota.
    rewrite IH. destruct b; reflexivity.
Qed.

(** Both scripts read a colon-separated string back to its bytes. *)
Lemma hex_to_bytes_colon_hex (p : bytes) :
  analyze_json.hex_to_bytes (colon_hex p) = (Ret p, []) /\
  compare_stream_flow.hex_to_bytes (colon_hex p) = (Ret p, []).
Proof.
  unfold analyze_json.hex_to_bytes, compare_stream_flow.hex_to_bytes,
    fromhex, try_except.
  now rewrite remove_colon_colon_hex, remove_space_hex, fromhex_hex.
Qed.

(** The first [3 * n + 2] characters of a colon-separated string are the
    string of the first [n + 1] bytes. *)
Lemma str_prefix_colon_hex (n : nat) :
  forall p : bytes,
    str_prefix (3 * n + 2) (colon_hex p) = colon_hex (firstn (S n) p).
Proof.
  induction n as [|n IH]; intros p.
  { destruct p as [|b [|b' t]]; reflexivity. }
  replace (3 * S n + 2)%nat with (S (S (S (3 * n + 2)))) by lia.
  destruct p as [|b [|b' t]]; try reflexivity.
  rewrite colon_hex_cons. unfold str_prefix. cbn [substring].
  fold (str_prefix (3 * n + 2) (colon_hex (b' :: t))). rewrite IH.
  change (firstn (S (S n)) (b :: b' :: t))
    with (b :: b' :: firstn n t).
  now rewrite colon_hex_cons.
Qed.

End ColonStrings.

(** X9.  On a payload string in the form of the export, two hex digits
    per byte separated by [':'], [hex_to_bytes] of either script gives the
    bytes back.  [parse_bcudp_packet] of analyze_json.py then decodes a
    Data header of twenty bytes or more, and the [payload_hex] it keeps,
    the first 80 characters of the string, spells the first 27 bytes of
    the payload; for an Ack header of 28 bytes or more the 56 characters
    kept spell the first 19 bytes. *)
Theorem colon_string_round_trip (p : bytes) :
  value (analyze_json.hex_to_bytes (colon_hex p)) = Ret p /\
  value (compare_stream_flow.hex_to_bytes (colon_hex p)) = Ret p /\
  (20 <= len p -> u32_be_at p 0 = analyze_json.BCUDP_MAGIC_DATA ->
   value (analyze_json.parse_bcudp_packet (colon_hex p)) =
   Ret (Some (analyze_json.Data analyze_json.BCUDP_MAGIC_DATA
                (s32_le_at p 4) (u32_le_at p 12) (u32_le_at p 16)
                (colon_hex (firstn 27 p))))) /\
  (28 <= len p -> u32_be_at p 0 = analyze_json.BCUDP_MAGIC_ACK ->
   value (analyze_json.parse_bcudp_packet (colon_hex p)) =
   Ret (Some (analyze_json.Ack analyze_json.BCUDP_MAGIC_ACK
                (s32_le_at p 4) (u32_le_at p 12) (u32_le_at p 16)
                (colon_hex (firstn 19 p))))).
Proof.
  destruct (hex_to_bytes_colon_hex p) as (Hj & Hs).
  rewrite Hj, Hs. split; [reflexivity|]. split; [reflexivity|].
  rewrite (analyze_json_parse_bytes _ p Hj).
  unfold decode_json, decode. cbn [min_len magic_of].
  split; intros Hlen Hm; rewrite Hm;
    unfold analyze_json.BCUDP_MAGIC_DATA, analyze_json.BCUDP_MAGIC_ACK;
    magic_tests; length_tests.
  - now rewrite <- (str_prefix_colon_hex 26).
  - now rewrite <- (str_prefix_colon_hex 18).
Qed.

Lemma colon_string_round_trip_witness :
  value (analyze_json.parse_bcudp_packet Samples.data_wire_hex) =
  Ret (Some (analyze_json.Data analyze_json.BCUDP_MAGIC_DATA
               (-2147483647) 5 7 Samples.data_wire_hex)).
Proof.
  apply (proj1 (proj2 (proj2 (colon_string_round_trip Samples.data_wire))));
    vm_compute; [discriminate|reflexivity].
Defined.

(* ================================================================== *)
(** ** The counts of compare_stream_flow.py                            *)
(* ================================================================== *)

Section Counts.

Lemma is_ack_not_data (p : compare_stream_flow.packet) :
  compare_stream_flow.is_ack p = negb (compare_stream_flow.is_data p).
Proof.
  unfold compare_stream_flow.is_ack, compare_stream_flow.is_data.
  destruct (compare_stream_flow.body p); reflexivity.
Qed.

Lemma len_filter_split {A} (f : A -> bool) (l : list A) :
  len (filter f l) + len (filter (fun x => negb (f x)) l) = len l.
Proof. unfold len. rewrite <- (filter_length f l). lia. Qed.

Lemma filter_filter_andb {A} (f g : A -> bool) (l : list A) :
  filter g (filter f l) = filter (fun x => f x && g x) l.
Proof.
  induction l as [|x l IH]; [reflexivity|].
  cbn [filter]. destruct (f x); cbn [filter andb]; [|exact IH].
  destruct (g x); now rewrite IH.
Qed.

End Counts.

(** X10.  In the report of [analyze_stream_flow] the total is the number
    of DATA packets plus the number of ACK packets.  When there is a DATA
    packet, the four numbers of the direction breakdown add up to the two
    counts.  When there is none, the function returns after the line
    "No DATA packets found!": no breakdown, no camera section and no ACK
    section are printed, whatever ACK packets the list holds. *)
Theorem stream_flow_counts (packets : list compare_stream_flow.packet) :
  let r := compare_stream_flow.analyze_stream_flow packets in
  compare_stream_flow.total r =
  compare_stream_flow.n_data r + compare_stream_flow.n_ack r
  /\
  match compare_stream_flow.breakdown r with
  | Some (camera_data, client_data, camera_ack, client_ack) =>
      0 < compare_stream_flow.n_data r /\
      camera_data + client_data = compare_stream_flow.n_data r /\
      camera_ack + client_ack = compare_stream_flow.n_ack r
  | None =>
      compare_stream_flow.n_data r = 0 /\
      compare_stream_flow.n_ack r = len packets /\
      compare_stream_flow.camera r = None /\
      compare_stream_flow.client r = None
  end.
Proof.
  pose proof (len_filter_split compare_stream_flow.is_data packets) as Hsplit.
  rewrite <- (filter_ext _ _ is_ack_not_data) in Hsplit.
  unfold compare_stream_flow.analyze_stream_flow. cbv zeta.
  destruct (filter compare_stream_flow.is_data packets) as [|d ds] eqn:E;
    cbn [compare_stream_flow.total compare_stream_flow.n_data
         compare_stream_flow.n_ack compare_stream_flow.breakdown
         compare_stream_flow.camera compare_stream_flow.client].
  - change (len (@nil compare_stream_flow.packet)) with 0 in *.
    repeat split; lia.
  - split; [lia|]. split; [unfold len; cbn [List.length]; lia|].
    split; apply len_filter_split.
Qed.

(** X11.  The two counts that [compare_streams] prints for a capture are
    numbers that [analyze_stream_flow] has printed in its direction
    breakdown for the same capture: the camera-to-client DATA count and
    the client-to-camera ACK count. *)
Theorem compared_counts_are_breakdown_counts
    (nl_packets sc_packets : list compare_stream_flow.packet)
    (camera_data client_data camera_ack client_ack : Z) :
  compare_stream_flow.breakdown
    (compare_stream_flow.analyze_stream_flow nl_packets) =
  Some (camera_data, client_data, camera_ack, client_ack) ->
  fst (compare_stream_flow.data_counts
         (compare_stream_flow.compare_streams nl_packets sc_packets)) =
  camera_data /\
  fst (compare_stream_flow.ack_counts
         (compare_stream_flow.compare_streams nl_packets sc_packets)) =
  client_ack /\
  snd (compare_stream_flow.data_counts
         (compare_stream_flow.compare_streams sc_packets nl_packets)) =
  camera_data /\
  snd (compare_stream_flow.ack_counts
         (compare_stream_flow.compare_streams sc_packets nl_packets)) =
  client_ack.
Proof.
  unfold compare_stream_flow.analyze_stream_flow,
    compare_stream_flow.compare_streams. cbv zeta.
  cbn [compare_stream_flow.data_counts compare_stream_flow.ack_counts
       fst snd].
  rewrite <- !filter_filter_andb.
  destruct (filter compare_stream_flow.is_data nl_packets) as [|d ds];
    cbn [compare_stream_flow.breakdown]; [discriminate|].
  intros H. injection H as <- _ _ <-. repeat split.
Qed.

Lemma compared_counts_are_breakdown_counts_witness :
  fst (compare_stream_flow.data_counts
         (compare_stream_flow.compare_streams
            (Samples.ten_packets ++ Samples.client_acks)
            Samples.one_packet)) = 10 /\
  fst (compare_stream_flow.ack_counts
         (compare_stream_flow.compare_streams
            (Samples.ten_packets ++ Samples.client_acks)
            Samples.one_packet)) = 2.
Proof.
  destruct (compared_counts_are_breakdown_counts
              (Samples.ten_packets ++ Samples.client_acks)
              Samples.one_packet 10 0 0 2 eq_refl) as (H1 & H2 & _).
  split; assumption.
Defined.

(* ================================================================== *)
(** ** The packets after the discovery                                 *)
(* ================================================================== *)

Section Discovery.

Lemma find_discovery_end_step (i : Z) (q : analyze_json.packet)
    (rest : list analyze_json.packet) :
  analyze_json.find_discovery_end i (q :: rest) =
  if ends_discovery q then Some i
  else analyze_json.find_discovery_end (i + 1) rest.
Proof.
  cbn [analyze_json.find_discovery_end]. unfold ends_discovery.
  destruct (analyze_json.is_discovery q); [|reflexivity].
  destruct (contains "192.168" (analyze_json.src_ip q)); reflexivity.
Qed.

(** The loop stops at the first packet that passes the test. *)
Lemma find_discovery_end_first (packets : list analyze_json.packet) :
  forall (i : Z) (k : nat) (pkt : analyze_json.packet),
    nth_error packets k = Some pkt ->
    ends_discovery pkt = true ->
    (forall k' q, (k' < k)%nat -> nth_error packets k' = Some q ->
                  ends_discovery q = false) ->
    analyze_json.find_discovery_end i packets = Some (i + Z.of_nat k).
Proof.
  induction packets as [|q rest IH]; intros i k pkt Hk Hp Hbefore.
  - destruct k; discriminate.
  - rewrite find_discovery_end_step. destruct k as [|k].
    + injection Hk as ->. rewrite Hp. f_equal. lia.
    + rewrite (Hbefore 0%nat q) by (cbn; (lia || reflexivity)).
      rewrite (IH (i + 1) k pkt Hk Hp).
      * f_equal. lia.
      * intros k' q' Hlt Hq'. apply (Hbefore (S k') q'); [lia|exact Hq'].
Qed.

End Discovery.

(** X12.  When the first discovery packet from a ['192.168'] address is
    at index [k] of the list and [k] is not zero,
    [compare_initial_sequence] reports the discovery as completed at
    packet [k], takes as next packets the fifty packets that follow it
    (fewer when the list ends), and prints a line for the first thirty of
    them, with the time counted from the time of packet [k]. *)
Theorem initial_sequence_window
    (packets : list analyze_json.packet) (k : nat)
    (pkt : analyze_json.packet) :
  nth_error packets k = Some pkt ->
  ends_discovery pkt = true ->
  (forall k' q, (k' < k)%nat -> nth_error packets k' = Some q ->
                ends_discovery q = false) ->
  k <> 0%nat ->
  let r := analyze_json.initial_sequence packets in
  analyze_json.completed_at r = Some (Z.of_nat k) /\
  analyze_json.next_packets r = firstn 50 (skipn (S k) packets) /\
  analyze_json.sequence r =
  map (fun q => ((analyze_json.time q - analyze_json.time pkt)%float, q))
      (firstn 30 (skipn (S k) packets)).
Proof.
  intros Hk Hp Hbefore Hnz.
  pose proof (find_discovery_end_first packets 0 k pkt Hk Hp Hbefore) as Hd.
  rewrite Z.add_0_l in Hd.
  assert (Hlen : (k < List.length packets)%nat)
    by (apply nth_error_Some; congruence).
  unfold analyze_json.initial_sequence. cbv zeta. rewrite Hd.
  unfold analyze_json.truthy.
  rewrite (proj2 (Z.eqb_neq (Z.of_nat k) 0)) by lia. cbn [negb].
  cbn [analyze_json.completed_at analyze_json.next_packets
       analyze_json.sequence].
  rewrite Nat2Z.id, Hk.
  rewrite (slice_of_clamped packets) by (unfold len; lia).
  replace (Z.to_nat (Z.of_nat k + 51 - (Z.of_nat k + 1))) with 50%nat by lia.
  replace (Z.to_nat (Z.of_nat k + 1)) with (S k) by lia.
  rewrite slice_of_clamped by (try apply len_nonneg; lia).
  change (Z.to_nat (30 - 0)) with 30%nat.
  change (Z.to_nat 0) with 0%nat. cbn [skipn].
  rewrite firstn_firstn. change (Nat.min 30 50) with 30%nat.
  repeat split.
Qed.

Lemma initial_sequence_window_witness :
  let r := analyze_json.initial_sequence
             [Samples.discovery_request; Samples.discovery_answer;
              Samples.data_after_discovery] in
  analyze_json.completed_at r = Some 1 /\
  analyze_json.next_packets r = [Samples.data_after_discovery] /\
  analyze_json.sequence r =
  [((2 - 1.5)%float, Samples.data_after_discovery)].
Proof.
  apply (initial_sequence_window
           [Samples.discovery_request; Samples.discovery_answer;
            Samples.data_after_discovery] 1 Samples.discovery_answer).
  - reflexivity.
  - reflexivity.
  - intros [|k'] q Hlt Hq; [|lia]. injection Hq as <-. reflexivity.
  - discriminate.
Defined.

(** X13.  When the very first packet of the list is a discovery packet
    from a ['192.168'] address, the loop of [compare_initial_sequence]
    finds it at index 0, and the tests [if nl_discovery_end] take that
    index for "nothing found": the report says "not found", and no packet
    after the discovery is taken or printed, however many follow. *)
Theorem discovery_at_start_not_found
    (pkt : analyze_json.packet) (rest : list analyze_json.packet) :
  ends_discovery pkt = true ->
  let r := analyze_json.initial_sequence (pkt :: rest) in
  analyze_json.discovery_end r = Some 0 /\
  analyze_json.completed_at r = None /\
  analyze_json.next_packets r = [] /\
  analyze_json.sequence r = [].
Proof.
  intros Hp.
  unfold analyze_json.initial_sequence. cbv zeta.
  rewrite find_discovery_end_step, Hp.
  repeat split.
Qed.

Lemma discovery_at_start_not_found_witness :
  let r := analyze_json.initial_sequence
             [Samples.discovery_answer; Samples.data_after_discovery] in
  analyze_json.discovery_end r = Some 0 /\
  analyze_json.completed_at r = None /\
  analyze_json.next_packets r = [] /\
  analyze_json.sequence r = [].
Proof.
  apply (discovery_at_start_not_found Samples.discovery_answer
           [Samples.data_after_discovery]).
  reflexivity.
Defined.

(* ================================================================== *)
(** ** Where the loop of analyze_pcapng stops                          *)
(* ================================================================== *)

Section Stops.

(** A length field below 12: the reader gives up after the eight bytes
    of type and length, and prints nothing. *)
Lemma read_pcapng_block_short_length
    (ty lb rest : bytes) (out : list string) :
  len ty = 4 -> len lb = 4 -> uint_le lb < 12 ->
  compare_pcaps.read_pcapng_block (FState (ty ++ lb ++ rest) out) =
  (Ret None, FState rest out).
Proof.
  intros Hty Hlb HL.
  unfold compare_pcaps.read_pcapng_block, fbind. cbv beta.
  rewrite (fread_app ty _ out 4 Hty). cbv beta iota.
  rewrite Hty. magic_tests.
  unfold lift at 1. unfold unpack_lt_I at 1.
  rewrite unpack_sized by (unfold len in Hty; lia). cbn [value ret fst].
  rewrite (fread_app lb _ out 4 Hlb). cbv beta iota.
  rewrite Hlb. magic_tests.
  unfold lift at 1. unfold unpack_lt_I at 1.
  rewrite unpack_sized by (unfold len in Hlb; lia). cbn [value ret fst].
  length_tests. reflexivity.
Qed.

Lemma read_blocks_short_length
    (fuel : nat) (packets : list compare_pcaps.packet) (packet_num : Z)
    (ty lb rest : bytes) (out : list string) :
  len ty = 4 -> len lb = 4 -> uint_le lb < 12 ->
  compare_pcaps.read_blocks (S fuel) packets packet_num
    (FState (ty ++ lb ++ rest) out) =
  (Ret (Some packets), FState rest out).
Proof.
  intros Hty Hlb HL.
  now rewrite read_blocks_step, read_pcapng_block_short_length.
Qed.

End Stops.

(** X14.  A block whose length field is below 12 ends the analysis
    without a word: [read_pcapng_block] returns [None] after the eight
    bytes of type and length and prints nothing, and the loop of
    [analyze_pcapng] returns the packets collected so far, whatever
    follows in the file. *)
Theorem short_block_length_ends_analysis
    (packets : list compare_pcaps.packet) (packet_num : Z)
    (ty lb rest : bytes) (out : list string) :
  len ty = 4 -> len lb = 4 -> uint_le lb < 12 ->
  compare_pcaps.read_pcapng_block (FState (ty ++ lb ++ rest) out) =
  (Ret None, FState rest out)
  /\
  compare_pcaps.read_remaining packets packet_num
    (FState (ty ++ lb ++ rest) out) =
  (Ret (Some packets), FState rest out).
Proof.
  intros Hty Hlb HL. split.
  - now apply read_pcapng_block_short_length.
  - unfold compare_pcaps.read_remaining.
    now apply read_blocks_short_length.
Qed.

Lemma short_block_length_ends_analysis_witness :
  compare_pcaps.read_remaining
    [Samples.captured_data 5 Samples.data_reversed] 1
    (FState ([x06; x00; x00; x00] ++ [x0b; x00; x00; x00]
             ++ Samples.mismatched_block) []) =
  (Ret (Some [Samples.captured_data 5 Samples.data_reversed]),
   FState Samples.mismatched_block []).
Proof.
  apply (proj2 (short_block_length_ends_analysis
                  [Samples.captured_data 5 Samples.data_reversed] 1
                  [x06; x00; x00; x00] [x0b; x00; x00; x00]
                  Samples.mismatched_block []
                  eq_refl eq_refl ltac:(vm_compute; reflexivity))).
Defined.

(** X15.  On a file whose first block is laid out as type [0x0A0D0D0A],
    total length [L], [L - 12] bytes of body and [L] again,
    [analyze_pcapng] reads the type of the second block as the trailing
    length of the first, then the length of the second block as a type
    and the first word of its body as a length.  When that word is below
    12, as the link type 1 of an interface description is, the loop ends
    there: the result is the empty list, whatever packets the file
    holds, and the only line printed is the length warning when the type
    of the second block differs from [L]. *)
Theorem total_length_capture_yields_nothing (filename : string)
    (ty lb body ty2 lb2 w rest : bytes) (out : list string) :
  len ty = 4 -> len lb = 4 -> len ty2 = 4 -> len lb2 = 4 -> len w = 4 ->
  uint_le ty = 0x0A0D0D0A ->
  12 <= uint_le lb -> len body = uint_le lb - 12 ->
  uint_le w < 12 ->
  compare_pcaps.analyze_pcapng filename
    (FState (ty ++ lb ++ body ++ lb ++ ty2 ++ lb2 ++ w ++ rest) out) =
  (Ret (Some []),
   FState rest
     (if uint_le ty2 =? uint_le lb then out
      else out ++ [block_length_warning (uint_le lb) (uint_le ty2)])).
Proof.
  intros Hty Hlb Hty2 Hlb2 Hw Hmagic HL Hbody Hshort.
  unfold compare_pcaps.analyze_pcapng. cbv zeta. unfold fbind at 1.
  replace (body ++ lb ++ ty2 ++ lb2 ++ w ++ rest)
    with ((body ++ lb) ++ ty2 ++ lb2 ++ w ++ rest)
    by now rewrite <- app_assoc.
  rewrite (read_pcapng_block_framed ty lb (body ++ lb) ty2)
    by (try assumption; unfold len in *; rewrite length_app; lia).
  rewrite Hmagic. cbn [Z.eqb Pos.eqb negb].
  now apply read_blocks_short_length.
Qed.

Lemma total_length_capture_yields_nothing_witness :
  compare_pcaps.analyze_pcapng "neolink.pcapng"
    (FState Samples.standard_capture_start []) =
  (Ret (Some []),
   FState [x00; x00; x04; x00; x14; x00; x00; x00]
     ["Warning: block length mismatch: 28 != 1"%string]).
Proof.
  apply (total_length_capture_yields_nothing "neolink.pcapng"
           [x0a; x0d; x0d; x0a] [x1c; x00; x00; x00]
           [x4d; x3c; x2b; x1a; x01; x00; x00; x00;
            xff; xff; xff; xff; xff; xff; xff; xff]
           [x01; x00; x00; x00] [x14; x00; x00; x00] [x01; x00; x00; x00]
           [x00; x00; x04; x00; x14; x00; x00; x00] []);
    vm_compute; try reflexivity; discriminate.
Defined.
